(** * Wine inventory: the external lookup pipeline and the cellar invariants

    A shallow embedding of the parts of the wine-inventory server that carry
    its specification: [WineDataNormalizer] (types/wine.ts), [WineApiService]
    (services/wineApiService.ts), [WineModel] and [RackSlotModel] (models/),
    and the validation of the wine routes.

    Conventions of the embedding.
    - A JavaScript number is an IEEE 754 binary64 value: [float], with the
      primitive operations of the kernel, which round as JavaScript does.
    - A JavaScript string is a [string]: a sequence of 8-bit code units.
      Case mapping and white space are those of the ASCII range.
    - [undefined] / [null] in an optional field is [None].
    - A plain object used as a table is an association list in insertion
      order, looked up among its own entries. *)

From Stdlib Require Import ZArith Bool Ascii String Lia.
From Stdlib Require Import Floats Numbers.Cyclic.Int63.Uint63.
From stdpp Require Import base option list strings gmap sorting pretty.

Set Warnings "-inexact-float".
Set Default Proof Using "Type".

(** ** The JavaScript runtime the code relies on *)

Module JS.

(** *** Numbers *)

Definition number := float.

(** [ToBoolean] on a number: false for [+0], [-0] and [NaN]. *)
Definition truthy (x : number) : bool :=
  negb (x =? 0)%float && negb (is_nan x).

(** An optional number in a condition: [undefined] is falsy. *)
Definition truthy_opt (x : option number) : bool :=
  match x with Some v => truthy v | None => false end.

Definition of_nat (n : nat) : number := of_uint63 (Uint63.of_Z (Z.of_nat n)).
Definition of_Z (n : Z) : number :=
  if (n <? 0)%Z then (- of_uint63 (Uint63.of_Z (- n)))%float
  else of_uint63 (Uint63.of_Z n).

(** [x >= y] and [x > y]; both are false when an operand is [NaN]. *)
Definition ge (x y : number) : bool := (y <=? x)%float.
Definition gt (x y : number) : bool := (y <? x)%float.

(** 2^52: from there on every binary64 value is an integer. *)
Definition two52 : number := 4503599627370496%float.

(** [Math.floor]. Below 2^52 adding and removing 2^52 rounds to an integer
    (to nearest, ties to even); one is taken off when that went up. *)
Definition Math_floor (x : number) : number :=
  if (x =? 0)%float then x
  else if (abs x <? two52)%float then
    let r := if (0 <? x)%float then ((x + two52) - two52)%float
             else ((x - two52) + two52)%float in
    if (x <? r)%float then (r - 1)%float else r
  else x.

(** [Math.round]: the nearest integer, a tie going towards +infinity;
    [-0] for an argument in [-0.5, 0). *)
Definition Math_round (x : number) : number :=
  if (x =? 0)%float then x
  else if (abs x <? two52)%float then
    if ((x <? 0) && (-0.5 <=? x))%float then neg_zero
    else
      let f := Math_floor x in
      if (0.5 <=? x - f)%float then (f + 1)%float else f
  else x.

(** *** Strings *)

Definition chars (s : string) : list ascii := list_ascii_of_string s.
Definition str (l : list ascii) : string := string_of_list_ascii l.

Definition is_upper (c : ascii) : bool :=
  ((65 <=? nat_of_ascii c) && (nat_of_ascii c <=? 90))%nat.
Definition is_lower (c : ascii) : bool :=
  ((97 <=? nat_of_ascii c) && (nat_of_ascii c <=? 122))%nat.
Definition is_digit (c : ascii) : bool :=
  ((48 <=? nat_of_ascii c) && (nat_of_ascii c <=? 57))%nat.

Definition lower_char (c : ascii) : ascii :=
  if is_upper c then ascii_of_nat (nat_of_ascii c + 32) else c.
Definition upper_char (c : ascii) : ascii :=
  if is_lower c then ascii_of_nat (nat_of_ascii c - 32) else c.

Definition toLowerCase (s : string) : string := str (map lower_char (chars s)).
Definition toUpperCase (s : string) : string := str (map upper_char (chars s)).

(** The class [\s], and what [trim] strips. *)
Definition is_space (c : ascii) : bool :=
  match nat_of_ascii c with
  | 9 | 10 | 11 | 12 | 13 | 32 => true
  | _ => false
  end.

Fixpoint trimStart_chars (l : list ascii) : list ascii :=
  match l with
  | c :: r => if is_space c then trimStart_chars r else l
  | [] => []
  end.
Definition trimEnd_chars (l : list ascii) : list ascii :=
  rev (trimStart_chars (rev l)).
Definition trim (s : string) : string :=
  str (trimEnd_chars (trimStart_chars (chars s))).

(** [s.length], [s.charAt(i)], [s.slice(i)], [s.substring(0, n)]. *)
Definition str_length (s : string) : nat := String.length s.
Definition charAt (s : string) (i : nat) : string := str (take 1 (drop i (chars s))).
Definition slice_from (s : string) (i : nat) : string := str (drop i (chars s)).
Definition substring0 (s : string) (n : nat) : string := str (take n (chars s)).

(** [s.includes(sub)]. *)
Fixpoint starts_with (sub l : list ascii) : bool :=
  match sub, l with
  | [], _ => true
  | a :: sub', b :: l' => Ascii.eqb a b && starts_with sub' l'
  | _ :: _, [] => false
  end.
Fixpoint includes_chars (l sub : list ascii) : bool :=
  starts_with sub l ||
  match l with
  | [] => false
  | _ :: l' => includes_chars l' sub
  end.
Definition includes (s sub : string) : bool := includes_chars (chars s) (chars sub).

(** [s.replace(/\s+/g, ' ')]: every maximal run of white space becomes one space. *)
Fixpoint collapse_spaces_from (in_run : bool) (l : list ascii) : list ascii :=
  match l with
  | [] => []
  | c :: r =>
      if is_space c then
        if in_run then collapse_spaces_from true r
        else " "%char :: collapse_spaces_from true r
      else c :: collapse_spaces_from false r
  end.
Definition collapse_spaces (s : string) : string :=
  str (collapse_spaces_from false (chars s)).

(** [s.replace(/[...]/g, by)] for a class of single characters. *)
Definition replace_class (cls : list ascii) (by_ : ascii) (s : string) : string :=
  str (map (fun c => if existsb (Ascii.eqb c) cls then by_ else c) (chars s)).

(** [s.split(sep)] for a one-character separator, and [parts.join(sep)]. *)
Fixpoint split_chars (sep : ascii) (cur : list ascii) (l : list ascii) : list string :=
  match l with
  | [] => [str (rev cur)]
  | c :: r =>
      if Ascii.eqb c sep then str (rev cur) :: split_chars sep [] r
      else split_chars sep (c :: cur) r
  end.
Definition split (sep : ascii) (s : string) : list string :=
  split_chars sep [] (chars s).
Fixpoint join (sep : string) (parts : list string) : string :=
  match parts with
  | [] => ""
  | [p] => p
  | p :: rest => p +:+ sep +:+ join sep rest
  end.

(** *** Numbers read from text *)

(** The binary64 value nearest to [n / d], ties to even, for [0 <= n] and
    [0 < d]: the quotient is taken with more than 60 bits and one more bit
    that tells whether anything was left over, and is rounded from there. *)
Definition nearest (negative : bool) (n d : Z) : number :=
  if (n =? 0)%Z then (if negative then neg_zero else zero)
  else
    let shift := Z.max 0 (64 + Z.log2 d - Z.log2 n) in
    let q := (n * 2 ^ shift / d)%Z in
    let sticky := if (n * 2 ^ shift mod d =? 0)%Z then 0%Z else 1%Z in
    let r := SF2Prim (binary_normalize prec emax (2 * q + sticky) (- shift - 1) false) in
    if negative then (- r)%float else r.

Definition digit_value (c : ascii) : Z := (Z.of_nat (nat_of_ascii c) - 48)%Z.
Definition digits_value (l : list ascii) : Z :=
  fold_left (fun acc c => (10 * acc + digit_value c)%Z) l 0%Z.

(** The longest prefix of characters of a class, and what follows it. *)
Fixpoint span (p : ascii -> bool) (l : list ascii) : list ascii * list ascii :=
  match l with
  | c :: r => if p c then let '(a, b) := span p r in (c :: a, b) else ([], l)
  | [] => ([], [])
  end.

(** A leading [+] or [-]. *)
Definition sign_of (l : list ascii) : bool * list ascii :=
  match l with
  | "-"%char :: r => (true, r)
  | "+"%char :: r => (false, r)
  | _ => (false, l)
  end.

(** [ExponentPart]: [e] or [E], a sign if any, and digits; 0 when the text
    does not go on with one. *)
Definition exponent_of (l : list ascii) : Z :=
  match l with
  | c :: r =>
      if Ascii.eqb c "e" || Ascii.eqb c "E" then
        let '(negative, r) := sign_of r in
        let '(ds, _) := span is_digit r in
        match ds with
        | [] => 0%Z
        | _ => if negative then (- digits_value ds)%Z else digits_value ds
        end
      else 0%Z
  | [] => 0%Z
  end.

(** [parseFloat(s)]: leading white space is skipped and the longest prefix
    that is a decimal literal is read: a sign, then [Infinity] or digits
    with a fraction and an exponent; [NaN] when there is none. *)
Definition parseFloat (s : string) : number :=
  let '(negative, l) := sign_of (trimStart_chars (chars s)) in
  if starts_with (chars "Infinity") l
  then (if negative then neg_infinity else infinity)
  else
    let '(int_digits, l) := span is_digit l in
    let '(frac_digits, l) :=
      match l with
      | "."%char :: r => span is_digit r
      | _ => ([], l)
      end in
    match int_digits ++ frac_digits with
    | [] => nan
    | mantissa =>
        let e := (exponent_of l - Z.of_nat (length frac_digits))%Z in
        if (0 <=? e)%Z then nearest negative (digits_value mantissa * 10 ^ e) 1
        else nearest negative (digits_value mantissa) (10 ^ (- e))
    end.

(** [parseInt(s)] with no radix: white space and a sign are skipped, [0x]
    announces hexadecimal digits, and the digits that follow are read;
    [NaN] when there is none. *)
Definition hex_digit_value (c : ascii) : option Z :=
  if is_digit c then Some (digit_value c)
  else
    let n := nat_of_ascii (lower_char c) in
    if ((97 <=? n) && (n <=? 102))%nat then Some (Z.of_nat n - 87)%Z else None.
Definition parseInt_string (s : string) : number :=
  let '(negative, l) := sign_of (trimStart_chars (chars s)) in
  let decimal :=
    match (span is_digit l).1 with
    | [] => nan
    | ds => nearest negative (digits_value ds) 1
    end in
  match l with
  | "0"%char :: x :: r =>
      if Ascii.eqb x "x" || Ascii.eqb x "X" then
        match (span (fun c => bool_decide (is_Some (hex_digit_value c))) r).1 with
        | [] => nan
        | ds =>
            nearest negative
              (fold_left (fun acc c => (16 * acc + default 0 (hex_digit_value c))%Z) ds 0%Z) 1
        end
      else decimal
  | _ => decimal
  end.

(** *** JSON text *)

(** [JSON.stringify] of a string: the string between two double quotes, with
    the double quote, the backslash and the characters below the space written
    as escapes. *)
Definition hex_char (n : nat) : ascii :=
  nth n (chars "0123456789abcdef") "0"%char.

Definition quote_char (c : ascii) : list ascii :=
  let n := nat_of_ascii c in
  if (n =? 8)%nat then chars "\b"
  else if (n =? 9)%nat then chars "\t"
  else if (n =? 10)%nat then chars "\n"
  else if (n =? 12)%nat then chars "\f"
  else if (n =? 13)%nat then chars "\r"
  else if (n =? 34)%nat then [ascii_of_nat 92; c]
  else if (n =? 92)%nat then [ascii_of_nat 92; c]
  else if (n <? 32)%nat then chars "\u00" ++ [hex_char (n / 16); hex_char (n mod 16)]
  else [c].

Definition JSON_stringify_string (s : string) : string :=
  str ([ascii_of_nat 34] ++ concat (map quote_char (chars s)) ++ [ascii_of_nat 34]).

(** [JSON.stringify] of an array of strings. *)
Definition JSON_stringify (array : list string) : string :=
  "[" +:+ join "," (map JSON_stringify_string array) +:+ "]".

End JS.

(** ** WineDataNormalizer (types/wine.ts) *)

Module WineDataNormalizer.
Import JS.

(** [source: 'vivino' | 'wine_api' | 'manual'] *)
Inductive Source := vivino | wine_api | manual.

Definition source_name (s : Source) : string :=
  match s with
  | vivino => "vivino"
  | wine_api => "wine_api"
  | manual => "manual"
  end.

(** [interface WineApiSearchResult] (services/wineApiService.ts). *)
Record WineApiSearchResult := {
  name : string;
  vineyard : string;
  region : string;
  color : string;
  grape_varieties : list string;
  vintage_year : option number;
  rating : option number;
  description : option string;
  price : option number;
  currency : option string;
  food_pairings : option (list string);
  image_url : option string;
  source : Source
}.

(** *** The tables of types/wine.ts *)

Definition REGION_MAPPING : list (string * string) :=
  [
    ("napa", "Napa Valley, California");
    ("napa valley", "Napa Valley, California");
    ("napa valley, ca", "Napa Valley, California");
    ("napa, california", "Napa Valley, California");
    ("sonoma", "Sonoma County, California");
    ("sonoma county", "Sonoma County, California");
    ("sonoma, ca", "Sonoma County, California");
    ("bordeaux", "Bordeaux, France");
    ("bordelais", "Bordeaux, France");
    ("burgundy", "Burgundy, France");
    ("bourgogne", "Burgundy, France");
    ("champagne", "Champagne, France");
    ("tuscany", "Tuscany, Italy");
    ("toscana", "Tuscany, Italy");
    ("chianti", "Chianti, Tuscany, Italy");
    ("piedmont", "Piedmont, Italy");
    ("piemonte", "Piedmont, Italy");
    ("rioja", "Rioja, Spain");
    ("la rioja", "Rioja, Spain");
    ("mosel", "Mosel, Germany");
    ("rheingau", "Rheingau, Germany");
    ("pfalz", "Pfalz, Germany");
    ("barossa", "Barossa Valley, Australia");
    ("barossa valley", "Barossa Valley, Australia");
    ("hunter valley", "Hunter Valley, Australia");
    ("clare valley", "Clare Valley, Australia");
    ("coonawarra", "Coonawarra, Australia");
    ("maipo", "Maipo Valley, Chile");
    ("maipo valley", "Maipo Valley, Chile");
    ("colchagua", "Colchagua Valley, Chile");
    ("casablanca", "Casablanca Valley, Chile");
    ("mendoza", "Mendoza, Argentina");
    ("salta", "Salta, Argentina");
    ("stellenbosch", "Stellenbosch, South Africa");
    ("paarl", "Paarl, South Africa");
    ("okanagan", "Okanagan Valley, British Columbia");
    ("okanagan valley", "Okanagan Valley, British Columbia");
    ("niagara", "Niagara Peninsula, Ontario");
    ("niagara peninsula", "Niagara Peninsula, Ontario") ].

Definition GRAPE_VARIETY_MAPPING : list (string * string) :=
  [
    ("cabernet sauvignon", "Cabernet Sauvignon");
    ("cab sauv", "Cabernet Sauvignon");
    ("cabernet", "Cabernet Sauvignon");
    ("merlot", "Merlot");
    ("pinot noir", "Pinot Noir");
    ("pinot", "Pinot Noir");
    ("syrah", "Syrah");
    ("shiraz", "Syrah");
    ("grenache", "Grenache");
    ("sangiovese", "Sangiovese");
    ("tempranillo", "Tempranillo");
    ("nebbiolo", "Nebbiolo");
    ("barbera", "Barbera");
    ("malbec", "Malbec");
    ("petit verdot", "Petit Verdot");
    ("cabernet franc", "Cabernet Franc");
    ("carmenere", "Carménère");
    ("carmenère", "Carménère");
    ("zinfandel", "Zinfandel");
    ("primitivo", "Zinfandel");
    ("gamay", "Gamay");
    ("mourvèdre", "Mourvèdre");
    ("mourvedre", "Mourvèdre");
    ("chardonnay", "Chardonnay");
    ("sauvignon blanc", "Sauvignon Blanc");
    ("sauv blanc", "Sauvignon Blanc");
    ("riesling", "Riesling");
    ("pinot grigio", "Pinot Grigio");
    ("pinot gris", "Pinot Gris");
    ("gewürztraminer", "Gewürztraminer");
    ("gewurztraminer", "Gewürztraminer");
    ("viognier", "Viognier");
    ("chenin blanc", "Chenin Blanc");
    ("semillon", "Sémillon");
    ("sémillon", "Sémillon");
    ("albariño", "Albariño");
    ("albarino", "Albariño");
    ("verdejo", "Verdejo");
    ("grüner veltliner", "Grüner Veltliner");
    ("gruner veltliner", "Grüner Veltliner");
    ("moscato", "Moscato");
    ("muscat", "Muscat");
    ("torrontés", "Torrontés");
    ("torrontes", "Torrontés") ].

Definition RED_INDICATORS : list string :=
  ["cabernet"; "merlot"; "pinot noir"; "syrah"; "shiraz"; "grenache";
    "sangiovese"; "tempranillo"; "nebbiolo"; "barbera"; "malbec";
    "zinfandel"; "primitivo"; "red wine"; "rouge"; "rosso"; "tinto" ].

Definition WHITE_INDICATORS : list string :=
  ["chardonnay"; "sauvignon blanc"; "riesling"; "pinot grigio";
    "pinot gris"; "gewürztraminer"; "viognier"; "chenin blanc"; "semillon";
    "albariño"; "white wine"; "blanc"; "bianco"; "blanco" ].

Definition SPARKLING_INDICATORS : list string :=
  ["champagne"; "prosecco"; "cava"; "crémant"; "sparkling"; "spumante";
    "sekt"; "espumoso"; "mousseux" ].

Definition ROSE_INDICATORS : list string :=
  ["rosé"; "rose"; "rosado"; "rosato"; "pink" ].

(** The value a table holds under [k], among its own entries. *)
Fixpoint table_get (t : list (string * string)) (k : string) : option string :=
  match t with
  | [] => None
  | (k', v) :: rest => if String.eqb k k' then Some v else table_get rest k
  end.

(** [for (const [key, value] of Object.entries(t))
      if (cleaned.includes(key) || key.includes(cleaned)) return value] *)
Fixpoint partial_match (t : list (string * string)) (cleaned : string) : option string :=
  match t with
  | [] => None
  | (key, value) :: rest =>
      if includes cleaned key || includes key cleaned then Some value
      else partial_match rest cleaned
  end.

(** A string in a condition: the empty string is falsy. *)
Definition nonempty (s : string) : bool := negb (String.eqb s "").

Definition dquote : ascii := ascii_of_nat 34.
Definition squote : ascii := ascii_of_nat 39.
Definition newline : ascii := ascii_of_nat 10.

(** [part.charAt(0).toUpperCase() + part.slice(1).toLowerCase()] *)
Definition capitalize (part : string) : string :=
  toUpperCase (charAt part 0) +:+ toLowerCase (slice_from part 1).

Definition normalizeRegion (region : string) : string :=
  if negb (nonempty region) then "Unknown Region"
  else
    let cleaned := trim (toLowerCase region) in
    match table_get REGION_MAPPING cleaned with
    | Some v => v
    | None =>
        match partial_match REGION_MAPPING cleaned with
        | Some v => v
        | None => join ", " (map capitalize (map trim (split "," region)))
        end
    end.

(** [array.indexOf(variety) === index]: the first occurrence of each value. *)
Fixpoint first_occurrences (seen : list string) (l : list string) : list string :=
  match l with
  | [] => []
  | x :: r =>
      if existsb (String.eqb x) seen then first_occurrences seen r
      else x :: first_occurrences (x :: seen) r
  end.

Definition normalizeGrapeVariety (variety : string) : string :=
  let cleaned := trim (toLowerCase variety) in
  match table_get GRAPE_VARIETY_MAPPING cleaned with
  | Some v => v
  | None =>
      match partial_match GRAPE_VARIETY_MAPPING cleaned with
      | Some v => v
      | None => join " " (map capitalize (split " " variety))
      end
  end.

Definition normalizeGrapeVarieties (varieties : list string) : list string :=
  match varieties with
  | [] => []
  | _ => first_occurrences [] (map normalizeGrapeVariety varieties)
  end.

Definition determineWineColor (wine : WineApiSearchResult) : string :=
  let searchText :=
    toLowerCase (name wine +:+ " " +:+ join " " (grape_varieties wine) +:+ " " +:+
                 match description wine with
                 | Some d => d
                 | None => ""
                 end) in
  if existsb (includes searchText) SPARKLING_INDICATORS then "Sparkling"
  else if existsb (includes searchText) ROSE_INDICATORS then "Rosé"
  else if existsb (includes searchText) WHITE_INDICATORS then "White"
  else if existsb (includes searchText) RED_INDICATORS then "Red"
  else if nonempty (color wine) then color wine else "Red".

Definition normalizeName (name : string) : string :=
  if negb (nonempty name) then ""
  else
    replace_class [squote; squote] squote
      (replace_class [dquote; dquote] dquote
         (collapse_spaces (trim name))).

(** [\w], and [\b] between two neighbouring positions (a missing
    neighbour counts as a non-word character). *)
Definition is_word (c : ascii) : bool :=
  is_upper c || is_lower c || is_digit c || Ascii.eqb c "_".
Definition is_word_opt (c : option ascii) : bool :=
  match c with Some c => is_word c | None => false end.
Definition word_boundary (before after : option ascii) : bool :=
  xorb (is_word_opt before) (is_word_opt after).

(** The alternatives of [/\b(winery|wines|vineyard|estate|cellars?|domaine|château|chateau)\b$/i]. *)
Definition VINEYARD_SUFFIXES : list string :=
  ["winery"; "wines"; "vineyard"; "estate"; "cellars"; "cellar"; "domaine";
   "château"; "chateau"].

(** [.replace(/\b(...)\b$/i, '')]: the leftmost position from which the rest
    of the string is one of the alternatives, between two word boundaries,
    is where the string is cut. *)
Fixpoint strip_suffix_from (before : option ascii) (l : list ascii) : list ascii :=
  if word_boundary before (head l)
     && existsb (fun w => bool_decide (map lower_char l = chars w)) VINEYARD_SUFFIXES
     && word_boundary (last l) None
  then []
  else
    match l with
    | [] => []
    | c :: r => c :: strip_suffix_from (Some c) r
    end.
Definition strip_suffix (s : string) : string :=
  str (strip_suffix_from None (chars s)).

Definition normalizeVineyard (vineyard : string) : string :=
  if negb (nonempty vineyard) then "Unknown Winery"
  else
    replace_class [squote; squote] squote
      (replace_class [dquote; dquote] dquote
         (trim (strip_suffix (collapse_spaces (trim vineyard))))).

(** [new Date().getFullYear()] is the parameter [currentYear]. *)
Definition normalizeVintage (currentYear : Z) (vintage : option number) : option number :=
  match vintage with
  | None => None
  | Some v =>
      if negb (truthy v) then None
      else if ((v <? 1800) || (of_Z currentYear <? v))%float then None
      else Some v
  end.

Definition normalizePrice (price : option number) : option number :=
  match price with
  | None => None
  | Some p =>
      if negb (truthy p) || (p <=? 0)%float then None
      else if ((p <? 1) || (10000 <? p))%float then None
      else Some (Math_round (p * 100) / 100)%float
  end.

Definition normalizeRating (rating : option number) (source : option string) : option number :=
  match rating with
  | None => None
  | Some r =>
      if negb (truthy r) then None
      else
        if bool_decide (source = Some "vivino") then
          if ge r 1%float && (r <=? 5)%float then Some (Math_round (r * 20)%float)
          else None
        else if bool_decide (source = Some "wine_api") then
          if ge r 1%float && (r <=? 100)%float then Some (Math_round r)
          else None
        else
          if ge r 1%float && (r <=? 5)%float then Some (Math_round (r * 20)%float)
          else if ge r 1%float && (r <=? 100)%float then Some (Math_round r)
          else None
  end.

(** [.replace(/\n+/g, ' ')] *)
Fixpoint collapse_newlines_from (in_run : bool) (l : list ascii) : list ascii :=
  match l with
  | [] => []
  | c :: r =>
      if Ascii.eqb c newline then
        if in_run then collapse_newlines_from true r
        else " "%char :: collapse_newlines_from true r
      else c :: collapse_newlines_from false r
  end.
Definition collapse_newlines (s : string) : string :=
  str (collapse_newlines_from false (chars s)).

Definition normalizeDescription (description : option string) : option string :=
  match description with
  | None => None
  | Some d =>
      if negb (nonempty d) then None
      else
        Some (substring0
                (replace_class [squote; squote] squote
                   (replace_class [dquote; dquote] dquote
                      (collapse_newlines (collapse_spaces (trim d)))))
                1000)
  end.

Definition normalizeWineData (currentYear : Z) (wine : WineApiSearchResult)
  : WineApiSearchResult :=
  {| name := normalizeName (name wine);
     vineyard := normalizeVineyard (vineyard wine);
     region := normalizeRegion (region wine);
     color := determineWineColor wine;
     grape_varieties := normalizeGrapeVarieties (grape_varieties wine);
     vintage_year := normalizeVintage currentYear (vintage_year wine);
     rating := normalizeRating (rating wine) (Some (source_name (source wine)));
     description := normalizeDescription (description wine);
     price := normalizePrice (price wine);
     currency := Some (match currency wine with
                       | Some c => if nonempty c then c else "USD"
                       | None => "USD"
                       end);
     food_pairings := Some (match food_pairings wine with
                            | Some l => filter (fun pairing => 0 < str_length (trim pairing)) l
                            | None => []
                            end);
     image_url := image_url wine;
     source := source wine |}.

(** *** Duplicate detection *)

(** The state of the matching loops of [stringSimilarity]:
    [s1Matches], [s2Matches] and [matches]. *)
Record MatchState := {
  s1Matches : list bool;
  s2Matches : list bool;
  matches : nat
}.

(** An array slot in a condition: an index out of range reads [undefined]. *)
Definition flag (a : list bool) (i : nat) : bool :=
  match a !! i with Some b => b | None => false end.

(** [for (let j = start; j < end; j++) {
       if (s2Matches[j] || s1[i] !== s2[j]) continue; ... break; }]
    run for [n] more rounds from [j]: the index it stops at. *)
Fixpoint find_match (c : option ascii) (s2 : list ascii) (m2 : list bool)
    (j n : nat) : option nat :=
  match n with
  | 0 => None
  | S n' =>
      if flag m2 j || negb (bool_decide (c = s2 !! j))
      then find_match c s2 m2 (S j) n'
      else Some j
  end.

(** [for (let i = 0; i < len1; i++) { ... }] (find matches), [n] rounds from
    [i]. Subtraction on [nat] stops at 0, which is [Math.max(0, i - matchWindow)]. *)
Fixpoint match_loop (s1 s2 : list ascii) (matchWindow : nat) (i n : nat)
    (st : MatchState) : MatchState :=
  match n with
  | 0 => st
  | S n' =>
      let start := Nat.max 0 (i - matchWindow) in
      let end_ := Nat.min (i + matchWindow + 1) (length s2) in
      match_loop s1 s2 matchWindow (S i) n'
        match find_match (s1 !! i) s2 (s2Matches st) start (end_ - start) with
        | Some j =>
            {| s1Matches := <[i:=true]> (s1Matches st);
               s2Matches := <[j:=true]> (s2Matches st);
               matches := S (matches st) |}
        | None => st
        end
  end.

(** [while (!s2Matches[k]) k++] over the slots from [k] on. Past the end a
    slot reads [undefined] and the loop would never be left: [None]. *)
Fixpoint next_match (from_k : list bool) (k : nat) : option nat :=
  match from_k with
  | [] => None
  | true :: _ => Some k
  | false :: rest => next_match rest (S k)
  end.

(** [for (let i = 0; i < len1; i++) { ... }] (find transpositions), [n]
    rounds from [i]; [None] when the inner [while] is never left. *)
Fixpoint transposition_loop (s1 s2 : list ascii) (m1 m2 : list bool)
    (i n k transpositions : nat) : option nat :=
  match n with
  | 0 => Some transpositions
  | S n' =>
      if negb (flag m1 i) then transposition_loop s1 s2 m1 m2 (S i) n' k transpositions
      else
        match next_match (drop k m2) k with
        | None => None
        | Some k' =>
            transposition_loop s1 s2 m1 m2 (S i) n' (S k')
              (if bool_decide (s1 !! i = s2 !! k') then transpositions
               else S transpositions)
        end
  end.

(** [for (let i = 0; i < Math.min(len1, len2, 4); i++) {
       if (s1[i] === s2[i]) prefix++; else break; }] *)
Fixpoint prefix_loop (s1 s2 : list ascii) (i n prefix : nat) : nat :=
  match n with
  | 0 => prefix
  | S n' =>
      if bool_decide (s1 !! i = s2 !! i) then prefix_loop s1 s2 (S i) n' (S prefix)
      else prefix
  end.

(** [(matches / len1 + matches / len2 + (matches - transpositions / 2) / matches) / 3],
    then [jaro + 0.1 * prefix * (1 - jaro)]. *)
Definition jaro_value (len1 len2 matches transpositions : nat) : number :=
  ((of_nat matches / of_nat len1 + of_nat matches / of_nat len2
    + (of_nat matches - of_nat transpositions / 2) / of_nat matches) / 3)%float.
Definition winkler_value (jaro : number) (prefix : nat) : number :=
  (jaro + 0.1 * of_nat prefix * (1 - jaro))%float.

(** The transposition count of the source, [None] if its [while] loop
    were never left (it always is: see [transpositions_defined]). *)
Definition transpositions_of (s1 s2 : list ascii) (st : MatchState) : option nat :=
  transposition_loop s1 s2 (s1Matches st) (s2Matches st) 0 (length s1) 0 0.

Definition stringSimilarity (str1 str2 : string) : number :=
  if negb (nonempty str1) || negb (nonempty str2) then 0%float
  else
    let s1 := trim (toLowerCase str1) in
    let s2 := trim (toLowerCase str2) in
    if String.eqb s1 s2 then 1%float
    else
      let len1 := length (chars s1) in
      let len2 := length (chars s2) in
      if (len1 =? 0)%nat || (len2 =? 0)%nat then 0%float
      else
        let matchWindow := (Z.of_nat (Nat.max len1 len2) / 2 - 1)%Z in
        if (matchWindow <? 0)%Z then 0%float
        else
          let st :=
            match_loop (chars s1) (chars s2) (Z.to_nat matchWindow) 0 len1
              {| s1Matches := replicate len1 false;
                 s2Matches := replicate len2 false;
                 matches := 0 |} in
          if (matches st =? 0)%nat then 0%float
          else
            match transpositions_of (chars s1) (chars s2) st with
            | None => nan
            | Some transpositions =>
                let jaro := jaro_value len1 len2 (matches st) transpositions in
                let prefix :=
                  prefix_loop (chars s1) (chars s2) 0 (Nat.min (Nat.min len1 len2) 4) 0 in
                winkler_value jaro prefix
            end.

(** [a === b] on two optional numbers. *)
Definition strict_equal (a b : option number) : bool :=
  match a, b with
  | Some x, Some y => (x =? y)%float
  | None, None => true
  | _, _ => false
  end.

Definition calculateSimilarity (wine1 wine2 : WineApiSearchResult) : number :=
  let score := 0%float in
  let factors := 0%float in
  let nameSimilarity := stringSimilarity (name wine1) (name wine2) in
  let score := (score + nameSimilarity * 0.4)%float in
  let factors := (factors + 0.4)%float in
  let vineyardSimilarity := stringSimilarity (vineyard wine1) (vineyard wine2) in
  let score := (score + vineyardSimilarity * 0.3)%float in
  let factors := (factors + 0.3)%float in
  let '(score, factors) :=
    if truthy_opt (vintage_year wine1) && truthy_opt (vintage_year wine2) then
      ((score + (if strict_equal (vintage_year wine1) (vintage_year wine2)
                 then 1 else 0) * 0.2)%float,
       (factors + 0.2)%float)
    else (score, factors) in
  let regionSimilarity := stringSimilarity (region wine1) (region wine2) in
  let score := (score + regionSimilarity * 0.1)%float in
  let factors := (factors + 0.1)%float in
  if gt factors 0%float then (score / factors)%float else 0%float.

Definition isDuplicate (wine1 wine2 : WineApiSearchResult) : bool :=
  let similarity := calculateSimilarity wine1 wine2 in
  gt similarity 0.8%float.

(** [for (const wine of wines) {
       const isDupe = unique.some(existing => this.isDuplicate(wine, existing));
       if (!isDupe) unique.push(wine); }] *)
Definition removeDuplicates_step (unique : list WineApiSearchResult)
    (wine : WineApiSearchResult) : list WineApiSearchResult :=
  let isDupe := existsb (fun existing => isDuplicate wine existing) unique in
  if negb isDupe then unique ++ [wine] else unique.

Definition removeDuplicates (wines : list WineApiSearchResult)
  : list WineApiSearchResult :=
  fold_left removeDuplicates_step wines [].

End WineDataNormalizer.

(** ** Jaro-Winkler similarity, as it is defined

    The definition the specification refers to, stated on its own so that
    [stringSimilarity] can be compared with it. Two characters match when
    they are equal and no further apart than the window; going through the
    first string from left to right, each character takes the first
    character of the second string that matches it and is not yet taken.
    With m the number of matches and t half the number of matched
    characters that differ when both strings' matched characters are read
    in order, the Jaro similarity is (m/|a| + m/|b| + (m - t)/m) / 3, or 0
    when m = 0, and the Jaro-Winkler similarity adds
    0.1 * l * (1 - jaro) for a common prefix of length l, at most 4. *)

Module JaroWinkler.
Import JS.

(** floor(max(|a|, |b|) / 2) - 1 *)
Definition window (a b : list ascii) : Z :=
  (Z.of_nat (Nat.max (length a) (length b)) / 2 - 1)%Z.

Definition in_window (d : Z) (i j : nat) : bool :=
  (Z.abs (Z.of_nat i - Z.of_nat j) <=? d)%Z.

Definition taken (used : list bool) (j : nat) : bool :=
  match used !! j with
  | Some u => u
  | None => false
  end.

(** The position in [b] that the character [c] at position [i] takes. *)
Definition partner (d : Z) (b : list ascii) (used : list bool) (i : nat) (c : ascii)
  : option nat :=
  find (fun j => in_window d i j && negb (taken used j) && bool_decide (b !! j = Some c))
       (seq 0 (length b)).

(** The matching of the characters [a], which start at position [i] of the
    first string: which of them matched, and which positions of [b] are
    taken in the end. *)
Fixpoint matching (d : Z) (b : list ascii) (used : list bool) (i : nat) (a : list ascii)
  : list bool * list bool :=
  match a with
  | [] => ([], used)
  | c :: a' =>
      match partner d b used i c with
      | Some j =>
          let '(flags, used') := matching d b (<[j:=true]> used) (S i) a' in
          (true :: flags, used')
      | None =>
          let '(flags, used') := matching d b used (S i) a' in
          (false :: flags, used')
      end
  end.

(** The characters of [s] that matched, in the order of [s]. *)
Fixpoint matched (s : list ascii) (flags : list bool) : list ascii :=
  match s, flags with
  | c :: s', true :: flags' => c :: matched s' flags'
  | _ :: s', false :: flags' => matched s' flags'
  | _, _ => []
  end.

(** The number of places where two sequences of matched characters differ. *)
Fixpoint differing (xs ys : list ascii) : nat :=
  match xs, ys with
  | x :: xs', y :: ys' =>
      (if bool_decide (x = y) then 0 else 1) + differing xs' ys'
  | _, _ => 0
  end.


Definition jaro (a b : list ascii) : number :=
  let '(flags_a, flags_b) := matching (window a b) b (replicate (length b) false) 0 a in
  let m := length (matched a flags_a) in
  if (m =? 0)%nat then 0%float
  else
    let t := (of_nat (differing (matched a flags_a) (matched b flags_b)) / 2)%float in
    ((of_nat m / of_nat (length a) + of_nat m / of_nat (length b)
      + (of_nat m - t) / of_nat m) / 3)%float.


End JaroWinkler.

(** ** WineApiService (services/wineApiService.ts) *)

Module WineApiService.
Import JS WineDataNormalizer.

(** [interface WineApiSearchOptions]; [limit] holds an integer, and
    [opt_region] is its field [region]. *)
Record WineApiSearchOptions := {
  query : string;
  vintage : option number;
  opt_region : option string;
  limit : option Z
}.

(** How an awaited call settles: it returns a value or throws. *)
Inductive Settled (T E : Type) :=
| Returned (v : T)
| Thrown (e : E).
Arguments Returned {T E} v.
Arguments Thrown {T E} e.

(** What [isNonRetryableError] reads of a thrown value: [error?.code],
    [error?.message] and [error?.status]. A thrown [undefined] or [null]
    reads as no field at all. *)
Record JsError := {
  code : option string;
  message : option string;
  status : option Z
}.

Definition undefined_error : JsError :=
  {| code := None; message := None; status := None |}.

(** *** The service instance: its private fields *)

Definition RATE_LIMIT_DELAY : Z := 2000.
Definition MAX_RETRIES : nat := 3.
Definition RETRY_DELAYS : list Z := [1000; 2000; 4000]%Z.

(** A browser is named by the rank of the [puppeteer.launch()] call that
    made it; [launched] counts those calls and [closed] lists the browsers
    whose [close()] was called. *)
Definition Browser := nat.

Record Service := {
  requestCount : Z;
  lastRequestTime : Z;
  browser : option Browser;
  launched : nat;
  closed : list Browser
}.

(** [new WineApiService()] *)
Definition initial : Service :=
  {| requestCount := 0; lastRequestTime := 0; browser := None;
     launched := 0; closed := [] |}.

(** *** rateLimit *)

(** The first half of [rateLimit], up to the [await]: with [now] the value
    of [Date.now()], the delay asked of [setTimeout], if any. *)
Definition rateLimit_delay (s : Service) (now : Z) : option Z :=
  let timeSinceLastRequest := (now - lastRequestTime s)%Z in
  if (timeSinceLastRequest <? RATE_LIMIT_DELAY)%Z
  then Some (RATE_LIMIT_DELAY - timeSinceLastRequest)%Z
  else None.

(** The second half: [this.lastRequestTime = Date.now(); this.requestCount++],
    with [now] the value of that second [Date.now()]. *)
Definition rateLimit_record (s : Service) (now : Z) : Service :=
  {| requestCount := requestCount s + 1;
     lastRequestTime := now;
     browser := browser s;
     launched := launched s;
     closed := closed s |}.

(** A call of [rateLimit] that nothing else interleaves with. It reads the
    clock at [now]; [late] is the time that passes, beyond the delay asked
    of [setTimeout], until the second [Date.now()]. The result is the
    service and the clock at that point. *)
Definition rateLimit (s : Service) (now late : Z) : Service * Z :=
  let resumed :=
    match rateLimit_delay s now with
    | Some delay => (now + delay + late)%Z
    | None => (now + late)%Z
    end in
  (rateLimit_record s resumed, resumed).

(** Calls of [rateLimit] one after the other, each given as the time that
    passes before it starts and its [late]; the result lists the values
    [lastRequestTime] took, in order. *)
Fixpoint rateLimit_calls (s : Service) (clock : Z) (calls : list (Z * Z))
  : Service * list Z :=
  match calls with
  | [] => (s, [])
  | (idle, late) :: rest =>
      let '(s', clock') := rateLimit s (clock + idle) late in
      let '(s'', stamps) := rateLimit_calls s' clock' rest in
      (s'', lastRequestTime s' :: stamps)
  end.

(** Calls of [rateLimit] that may overlap. A call that has to wait is
    suspended at its [await] until its timer has fired; the event loop runs
    one step at a time: a call enters, or a suspended call resumes. *)
Inductive Event :=
| Enter (id : nat) (now late : Z)
| Resume (id : nat) (now : Z).

Record Loop := {
  service : Service;
  clock : Z;
  suspended : list (nat * Z);
  stamps : list Z
}.

Fixpoint wake_time_in (suspended : list (nat * Z)) (id : nat) : option Z :=
  match suspended with
  | [] => None
  | (id', wake) :: rest => if (id' =? id)%nat then Some wake else wake_time_in rest id
  end.
Definition wake_time (l : Loop) (id : nat) : option Z :=
  wake_time_in (suspended l) id.

Definition run_event (l : Loop) (e : Event) : option Loop :=
  match e with
  | Enter id now late =>
      if bool_decide (clock l <= now)%Z && bool_decide (0 <= late)%Z
         && bool_decide (wake_time l id = None)
      then
        match rateLimit_delay (service l) now with
        | Some delay =>
            Some {| service := service l; clock := now;
                    suspended := (id, (now + delay)%Z) :: suspended l;
                    stamps := stamps l |}
        | None =>
            Some {| service := rateLimit_record (service l) (now + late);
                    clock := (now + late)%Z;
                    suspended := suspended l;
                    stamps := stamps l ++ [(now + late)%Z] |}
        end
      else None
  | Resume id now =>
      match wake_time l id with
      | Some wake =>
          if bool_decide (clock l <= now)%Z && bool_decide (wake <= now)%Z
          then Some {| service := rateLimit_record (service l) now;
                       clock := now;
                       suspended := filter (fun p => fst p ≠ id) (suspended l);
                       stamps := stamps l ++ [now] |}
          else None
      | None => None
      end
  end.

Fixpoint run_events (l : Loop) (es : list Event) : option Loop :=
  match es with
  | [] => Some l
  | e :: rest =>
      match run_event l e with
      | Some l' => run_events l' rest
      | None => None
      end
  end.

(** Two neighbours of a list of timestamps are never closer than
    [RATE_LIMIT_DELAY]. *)
Fixpoint spaced (last : Z) (stamps : list Z) : Prop :=
  match stamps with
  | [] => True
  | t :: rest => (last + RATE_LIMIT_DELAY <= t)%Z /\ spaced t rest
  end.

(** *** getBrowser, closeBrowser, cleanup *)

(** [launch] tells how [puppeteer.launch()] settles: it fulfils ([None]) or
    rejects with an error. *)
Definition getBrowser (launch : option JsError) (s : Service)
  : Settled Browser JsError * Service :=
  match browser s with
  | None =>
      match launch with
      | None =>
          let b := launched s in
          (Returned b,
           {| requestCount := requestCount s;
              lastRequestTime := lastRequestTime s;
              browser := Some b;
              launched := S (launched s);
              closed := closed s |})
      | Some error =>
          (Thrown error,
           {| requestCount := requestCount s;
              lastRequestTime := lastRequestTime s;
              browser := None;
              launched := S (launched s);
              closed := closed s |})
      end
  | Some b => (Returned b, s)
  end.

(** [close] tells how [this.browser.close()] settles; when it rejects the
    stored reference is not reset. *)
Definition closeBrowser (close : option JsError) (s : Service)
  : Settled unit JsError * Service :=
  match browser s with
  | Some b =>
      match close with
      | None =>
          (Returned tt,
           {| requestCount := requestCount s;
              lastRequestTime := lastRequestTime s;
              browser := None;
              launched := launched s;
              closed := b :: closed s |})
      | Some error =>
          (Thrown error,
           {| requestCount := requestCount s;
              lastRequestTime := lastRequestTime s;
              browser := Some b;
              launched := launched s;
              closed := b :: closed s |})
      end
  | None => (Returned tt, s)
  end.

Definition cleanup (close : option JsError) (s : Service)
  : Settled unit JsError * Service :=
  closeBrowser close s.

(** *** Retrying *)

Definition isNonRetryableError (error : JsError) : bool :=
  if bool_decide (code error = Some "ENOTFOUND")
     || bool_decide (code error = Some "ECONNREFUSED")
  then true
  else if match message error with
          | Some m => includes m "Navigation timeout"
          | None => false
          end
  then false
  else if bool_decide (status error = Some 404%Z)
          || bool_decide (status error = Some 403%Z)
  then true
  else false.

(** What a run of [retryWithExponentialBackoff] did: how it settled, how
    many times it called [operation], and the delays it slept, in order. *)
Record RetryRun (T : Type) := {
  settled : Settled T JsError;
  calls : nat;
  slept : list Z
}.
Arguments settled {T} r.
Arguments calls {T} r.
Arguments slept {T} r.

(** [for (let attempt = 0; attempt < this.MAX_RETRIES; attempt++) { ... }]
    then [throw lastError]; [n] rounds are left from [attempt]. The
    [attempt]-th call of [operation] settles as [operation attempt]. *)
Fixpoint retry_loop {T} (operation : nat -> Settled T JsError)
    (attempt n : nat) (lastError : JsError) (waits : list Z) : RetryRun T :=
  match n with
  | 0 => {| settled := Thrown lastError; calls := attempt; slept := waits |}
  | S n' =>
      match operation attempt with
      | Returned v => {| settled := Returned v; calls := S attempt; slept := waits |}
      | Thrown error =>
          if isNonRetryableError error
          then {| settled := Thrown error; calls := S attempt; slept := waits |}
          else
            let waits :=
              if (attempt <? MAX_RETRIES - 1)%nat
              then waits ++ [default 0%Z (RETRY_DELAYS !! attempt)]
              else waits in
            retry_loop operation (S attempt) n' error waits
      end
  end.

Definition retryWithExponentialBackoff {T} (operation : nat -> Settled T JsError)
  : RetryRun T :=
  retry_loop operation 0 MAX_RETRIES undefined_error [].

(** *** searchWine *)

(** [array.slice(0, end)] *)
Definition slice0 {A} (end_ : Z) (l : list A) : list A :=
  let len := Z.of_nat (length l) in
  let final := if (end_ <? 0)%Z then Z.max (len + end_) 0 else Z.min end_ len in
  take (Z.to_nat final) l.

(** [options.limit || 10] *)
Definition limit_or_10 (options : WineApiSearchOptions) : Z :=
  match limit options with
  | Some l => if (l =? 0)%Z then 10%Z else l
  | None => 10%Z
  end.

(** The mock results of [searchWineApi]. *)
Definition mockResults (options : WineApiSearchOptions) : list WineApiSearchResult :=
  [ {| name := query options +:+ " Estate";
       vineyard := "Heritage Vineyards";
       region := match opt_region options with
                 | Some r => if nonempty r then r else "Sonoma County"
                 | None => "Sonoma County"
                 end;
       color := "Red";
       grape_varieties := ["Pinot Noir"];
       vintage_year := Some (if truthy_opt (vintage options)
                             then default 2019%float (vintage options)
                             else 2019%float);
       rating := Some 92%float;
       description := Some "Elegant wine with bright acidity and cherry flavors.";
       price := Some 38.50%float;
       currency := Some "USD";
       food_pairings := Some ["Salmon"; "Duck"; "Mushroom dishes"];
       image_url := None;
       source := wine_api |} ].

(** [searchWineApi]: [rateLimit], then the mock results. *)
Definition searchWineApi (options : WineApiSearchOptions) (s : Service)
    (now late : Z) : Settled (list WineApiSearchResult) JsError * Service :=
  let '(s, _) := rateLimit s now late in
  (Returned (mockResults options), s).

(** [performVivinoSearch]: [rateLimit], then [getBrowser], then the page is
    opened, read and closed, which settles as the environment makes it
    ([scraped]). *)
Definition performVivinoSearch (options : WineApiSearchOptions) (s : Service)
    (now late : Z) (launch : option JsError)
    (scraped : Settled (list WineApiSearchResult) JsError)
  : Settled (list WineApiSearchResult) JsError * Service :=
  let '(s, _) := rateLimit s now late in
  match getBrowser launch s with
  | (Returned _, s) => (scraped, s)
  | (Thrown e, s) => (Thrown e, s)
  end.

Definition getVivinoDetails (id : string) : option WineApiSearchResult :=
  Some {| name := "Detailed Wine Name";
          vineyard := "Detailed Winery";
          region := "Detailed Region";
          color := "Red";
          grape_varieties := ["Cabernet Sauvignon"; "Merlot"];
          vintage_year := Some 2018%float;
          rating := Some 90%float;
          description := Some "Full detailed description from Vivino...";
          price := Some 55.00%float;
          currency := Some "USD";
          food_pairings := Some ["Beef"; "Lamb"; "Strong cheese"];
          image_url := None;
          source := vivino |}.

Definition getWineApiDetails (id : string) : option WineApiSearchResult :=
  Some {| name := "Another Detailed Wine";
          vineyard := "Premium Estates";
          region := "Bordeaux";
          color := "Red";
          grape_varieties := ["Cabernet Sauvignon"; "Cabernet Franc"];
          vintage_year := Some 2017%float;
          rating := Some 95%float;
          description := Some "Exceptional wine with complex flavors...";
          price := Some 85.00%float;
          currency := Some "USD";
          food_pairings := Some ["Steak"; "Game"; "Aged cheese"];
          image_url := None;
          source := wine_api |}.

(** [getWineDetails]: [rateLimit], then the mock details of the source; an
    unknown source throws inside the [try] and [null] is returned. *)
Definition getWineDetails (id source : string) (s : Service) (now late : Z)
  : option WineApiSearchResult * Service :=
  let '(s, _) := rateLimit s now late in
  (if String.eqb source "vivino" then getVivinoDetails id
   else if String.eqb source "wine_api" then getWineApiDetails id
   else None, s).

(** [suggestFoodPairings]: [rateLimit], then the pairings of the colour and
    of each grape variety, without repeats ([[...new Set(pairings)]]). *)
Definition suggestFoodPairings (wine_color : option string)
    (wine_grape_varieties : option (list string)) (s : Service) (now late : Z)
  : list string * Service :=
  let '(s, _) := rateLimit s now late in
  let pairings :=
    match wine_color with
    | Some "Red" => ["Red meat"; "Hard cheese"; "Dark chocolate"]
    | Some "White" => ["Fish"; "Poultry"; "Soft cheese"]
    | Some "Rosé" => ["Salmon"; "Light pasta"; "Fruit desserts"]
    | Some "Sparkling" => ["Appetizers"; "Seafood"; "Celebration dishes"]
    | Some "Dessert" => ["Desserts"; "Blue cheese"; "Foie gras"]
    | Some "Fortified" => ["Nuts"; "Dried fruits"; "Strong cheese"]
    | _ => []
    end in
  let pairings :=
    match wine_grape_varieties with
    | Some grapes =>
        fold_left
          (fun pairings grape =>
             match toLowerCase grape with
             | "cabernet sauvignon" => pairings ++ ["Grilled steak"; "Lamb chops"]
             | "pinot noir" => pairings ++ ["Duck"; "Mushroom risotto"]
             | "chardonnay" => pairings ++ ["Lobster"; "Cream sauces"]
             | "sauvignon blanc" => pairings ++ ["Goat cheese"; "Shellfish"]
             | _ => pairings
             end)
          grapes pairings
    | None => pairings
    end in
  (first_occurrences [] pairings, s).

(** The body of [searchWine] once both sources have settled. *)
Definition searchWine_from (currentYear : Z) (options : WineApiSearchOptions)
    (vivinoResults wineApiResults : Settled (list WineApiSearchResult) JsError)
  : list WineApiSearchResult :=
  let results := [] in
  let results :=
    match vivinoResults with
    | Returned found => results ++ found
    | Thrown _ => results
    end in
  let results :=
    match wineApiResults with
    | Returned found => results ++ found
    | Thrown _ => results
    end in
  let normalizedResults := map (normalizeWineData currentYear) results in
  let uniqueResults := removeDuplicates normalizedResults in
  slice0 (limit_or_10 options) uniqueResults.

(** [searchVivino]: [performVivinoSearch] under [retryWithExponentialBackoff].
    The page is scraped, so how the [attempt]-th call settles is given by
    the environment, as [scrapes attempt]. *)
Definition searchVivino (scrapes : nat -> Settled (list WineApiSearchResult) JsError)
  : Settled (list WineApiSearchResult) JsError :=
  settled (retryWithExponentialBackoff scrapes).

(** [searchWine]: Vivino first, then the mock wine API. *)
Definition searchWine (currentYear : Z) (options : WineApiSearchOptions)
    (scrapes : nat -> Settled (list WineApiSearchResult) JsError)
  : list WineApiSearchResult :=
  searchWine_from currentYear options (searchVivino scrapes)
    (Returned (mockResults options)).

(** *** What the scraper reads from a page *)

(** [normalizeWineName] *)
Definition normalizeWineName (name : string) : string :=
  toLowerCase (trim (collapse_spaces name)).

(** [text.match(/\b(19|20)\d{2}\b/)]: the leftmost four digits that start
    with 19 or 20 and stand between two word boundaries. *)
Fixpoint year_match (before : option ascii) (l : list ascii) : option (list ascii) :=
  match l with
  | [] => None
  | c :: r =>
      match l with
      | a :: b :: c2 :: d :: rest =>
          if word_boundary before (Some a)
             && (starts_with (chars "19") l || starts_with (chars "20") l)
             && is_digit c2 && is_digit d
             && word_boundary (Some d) (head rest)
          then Some [a; b; c2; d]
          else year_match (Some c) r
      | _ => None
      end
  end.

Definition extractYear (text : string) : option number :=
  match year_match None (chars text) with
  | Some yearMatch => Some (parseInt_string (str yearMatch))
  | None => None
  end.

(** The pattern of [parsePrice] is one of the symbols [£$€¥], if there is
    one, followed by [[\d,]+], a dot if there is one, and [\d] any number of
    times. These are the symbols, each with the currency it stands for. *)
Definition CURRENCY_SYMBOLS : list (string * string) :=
  [("£", "GBP"); ("$", "USD"); ("€", "EUR"); ("¥", "JPY")].

(** A currency symbol at the head of [l], and what follows it. *)
Definition symbol_at (l : list ascii) : option (string * list ascii) :=
  match List.filter (fun entry => starts_with (chars entry.1) l) CURRENCY_SYMBOLS with
  | (symbol, _) :: _ => Some (symbol, drop (length (chars symbol)) l)
  | [] => None
  end.

(** The second group at the head of [l]: digits and commas, a dot if there
    is one, and digits. *)
Definition amount_at (l : list ascii) : option (list ascii) :=
  let '(amount, l) := span (fun c => is_digit c || Ascii.eqb c ",") l in
  match amount with
  | [] => None
  | _ =>
      match l with
      | "."%char :: r => Some (amount ++ "."%char :: (span is_digit r).1)
      | _ => Some amount
      end
  end.

(** The leftmost match of the whole expression: the symbol, if there is one
    right before the amount, and the amount. *)
Fixpoint price_match (l : list ascii) : option (option string * list ascii) :=
  let without_symbol :=
    match amount_at l with
    | Some amount => Some (None, amount)
    | None =>
        match l with
        | [] => None
        | _ :: r => price_match r
        end
    end in
  match symbol_at l with
  | Some (symbol, r) =>
      match amount_at r with
      | Some amount => Some (Some symbol, amount)
      | None => without_symbol
      end
  | None => without_symbol
  end.

(** [parsePrice]: the price and the currency, or [null]. *)
Definition parsePrice (priceText : string) : option (number * string) :=
  match price_match (chars priceText) with
  | None => None
  | Some (symbol, amount) =>
      let price := parseFloat (str (List.filter (fun c => negb (Ascii.eqb c ",")) amount)) in
      let currency :=
        match symbol with
        | Some symbol => default "USD" (table_get CURRENCY_SYMBOLS symbol)
        | None => "USD"
        end in
      Some (price, currency)
  end.

(** What [performVivinoSearch] reads of one [.wine-card]: the texts of the
    elements it looks for (empty when there is no such element), the text
    of [.wine-price-value] when there is one, and the two attributes of the
    image. *)
Record WineCard := {
  card_name : string;
  card_winery : string;
  card_region : string;
  card_rating : string;
  card_price : option string;
  card_src : option string;
  card_data_src : option string
}.

(** [a || b] on strings. *)
Definition or_else (a b : string) : string := if nonempty a then a else b.

(** The colour the scraper infers from the name and the region. *)
Definition card_color (name region : string) : string :=
  let nameAndRegion := toLowerCase (name +:+ " " +:+ region) in
  if includes nameAndRegion "chardonnay" || includes nameAndRegion "sauvignon blanc"
     || includes nameAndRegion "riesling" || includes nameAndRegion "pinot grigio"
     || includes nameAndRegion "white"
  then "White"
  else if includes nameAndRegion "rosé" || includes nameAndRegion "rose"
  then "Rosé"
  else if includes nameAndRegion "champagne" || includes nameAndRegion "prosecco"
          || includes nameAndRegion "cava" || includes nameAndRegion "sparkling"
  then "Sparkling"
  else "Red".

(** [inferGrapes]: the grapes of its list that the text names. *)
Definition grapes : list string :=
  ["Cabernet Sauvignon"; "Merlot"; "Pinot Noir"; "Chardonnay"; "Sauvignon Blanc";
   "Riesling"; "Pinot Grigio"; "Syrah"; "Shiraz"; "Grenache"; "Sangiovese";
   "Tempranillo"; "Nebbiolo"; "Barbera"; "Chianti"].
Definition inferGrapes (text : string) : list string :=
  List.filter (fun grape => includes (toLowerCase text) (toLowerCase grape)) grapes.

(** The body of the callback of [$('.wine-card').each]: the wine of a card,
    or nothing for a card without a name. *)
Definition parse_card (options : WineApiSearchOptions) (card : WineCard)
  : option WineApiSearchResult :=
  let name := trim (card_name card) in
  if negb (nonempty name) then None
  else
    let vineyard := or_else (trim (card_winery card)) "Unknown Winery" in
    let region :=
      or_else (trim (card_region card))
        (or_else (default "" (opt_region options)) "Unknown Region") in
    let ratingText := trim (card_rating card) in
    let rating :=
      if nonempty ratingText
      then Some (Math_round (parseFloat ratingText * 20)%float)
      else None in
    let vintage_year :=
      match extractYear name with
      | Some year => if truthy year then Some year else vintage options
      | None => vintage options
      end in
    let '(price, currency) :=
      match card_price card with
      | Some text =>
          match parsePrice (trim text) with
          | Some (price, currency) => (Some price, currency)
          | None => (None, "USD")
          end
      | None => (None, "USD")
      end in
    let color := card_color name region in
    let grape_varieties :=
      match inferGrapes name with
      | [] =>
          if String.eqb color "Red" then ["Red Blend"]
          else if String.eqb color "White" then ["White Blend"]
          else ["Mixed"]
      | inferred => inferred
      end in
    let image_url :=
      match card_src card with
      | Some src => if nonempty src then Some src else card_data_src card
      | None => card_data_src card
      end in
    Some {| name := name;
            vineyard := vineyard;
            region := region;
            color := color;
            grape_varieties := grape_varieties;
            vintage_year := vintage_year;
            rating := rating;
            description := None;
            price := price;
            currency := Some currency;
            food_pairings := None;
            image_url := image_url;
            source := vivino |}.

(** [$('.wine-card').each((index, element) => ...)]: the cards are read in
    order until [index >= (options.limit || 10)]. *)
Fixpoint each_card (options : WineApiSearchOptions) (index : nat) (cards : list WineCard)
  : list WineApiSearchResult :=
  match cards with
  | [] => []
  | card :: rest =>
      if (limit_or_10 options <=? Z.of_nat index)%Z then []
      else
        match parse_card options card with
        | Some wine => wine :: each_card options (S index) rest
        | None => each_card options (S index) rest
        end
  end.

(** The [results] of [performVivinoSearch] for a page with those cards. *)
Definition scrape (options : WineApiSearchOptions) (cards : list WineCard)
  : list WineApiSearchResult :=
  each_card options 0 cards.

(** [getRequestStats]: [count] and [lastRequest], a date in milliseconds. *)
Definition getRequestStats (s : Service) : Z * Z :=
  (requestCount s, lastRequestTime s).

End WineApiService.

(** ** The cellar: models/Wine.ts, models/RackSlot.ts and routes/wines.ts *)

Module Cellar.
Import JS.

(** *** The tables *)

(** A row of [wines] (migration 001). Dates are milliseconds. *)
Record Wine := {
  id : string;
  name : string;
  vineyard : string;
  region : string;
  color : string;
  grape_varieties : list string;
  price : option number;
  currency : option string;
  vintage_year : option number;
  date_added : Z;
  rack_slot : option string;
  consumption_status : string;
  date_consumed : option Z;
  description : option string;
  personal_notes : option string;
  rating : option number;
  food_pairings : option (list string);
  created_at : Z;
  updated_at : Z
}.

(** A row of [rack_slots]. *)
Record RackSlot := {
  slot_id : string;
  wine_id : option string;
  rack_number : Z;
  row : string;
  position : Z;
  x_coordinate : Z;
  y_coordinate : Z;
  width : Z;
  height : Z;
  is_occupied : bool;
  last_updated : Z;
  slot_created_at : Z;
  slot_updated_at : Z
}.

(** Both tables, each under its primary key. *)
Record Database := {
  wines : gmap string Wine;
  rack_slots : gmap string RackSlot
}.

Inductive Settled (T : Type) :=
| Returned (v : T)
| Thrown.
Arguments Returned {T} v.
Arguments Thrown {T}.

Definition validColors : list string :=
  ["Red"; "White"; "Rosé"; "Sparkling"; "Dessert"; "Fortified"].
Definition validStatuses : list string := ["Available"; "Consumed"; "Reserved"].

(** [array.includes(x)] *)
Definition includes_str (l : list string) (x : string) : bool :=
  existsb (String.eqb x) l.

(** The CHECK constraints of [wines]: the two enumerations,
    [checkBetween([1800, year])] with the year the migration ran in
    ([schemaYear]), and [checkBetween([1, 100])]; NULL passes. *)
Definition between (lo hi : number) (v : option number) : bool :=
  match v with
  | Some x => ((lo <=? x) && (x <=? hi))%float
  | None => true
  end.
Definition wines_check (schemaYear : Z) (w : Wine) : bool :=
  includes_str validColors (color w)
  && includes_str validStatuses (consumption_status w)
  && between 1800%float (of_Z schemaYear) (vintage_year w)
  && between 1%float 100%float (rating w).

(** *** RackSlotModel *)

Module RackSlotModel.

(** [db(TABLE).where({ wine_id: wineId }).update({ wine_id: null,
      is_occupied: false, last_updated: new Date(), updated_at: new Date() })] *)
Definition clear (now : Z) (slot : RackSlot) : RackSlot :=
  {| slot_id := slot_id slot;
     wine_id := None;
     rack_number := rack_number slot;
     row := row slot;
     position := position slot;
     x_coordinate := x_coordinate slot;
     y_coordinate := y_coordinate slot;
     width := width slot;
     height := height slot;
     is_occupied := false;
     last_updated := now;
     slot_created_at := slot_created_at slot;
     slot_updated_at := now |}.

Definition clearSlotByWineId (wineId : string) (now : Z) (db : Database)
  : bool * Database :=
  let hit (slot : RackSlot) := bool_decide (wine_id slot = Some wineId) in
  let updatedRows := size (filter (fun kv => hit kv.2 = true) (rack_slots db)) in
  (bool_decide (0 < updatedRows),
   {| wines := wines db;
      rack_slots := (fun slot => if hit slot then clear now slot else slot)
                      <$> rack_slots db |}).

Definition findBySlotId (slotId : string) (db : Database) : option RackSlot :=
  rack_slots db !! slotId.

(** The columns [assignWineToSlot] writes. *)
Definition assign (wineId : string) (now : Z) (slot : RackSlot) : RackSlot :=
  {| slot_id := slot_id slot;
     wine_id := Some wineId;
     rack_number := rack_number slot;
     row := row slot;
     position := position slot;
     x_coordinate := x_coordinate slot;
     y_coordinate := y_coordinate slot;
     width := width slot;
     height := height slot;
     is_occupied := true;
     last_updated := now;
     slot_created_at := slot_created_at slot;
     slot_updated_at := now |}.

(** [assignWineToSlot]. [foreign_keys] tells whether the connection makes
    SQLite enforce REFERENCES clauses (its [foreign_keys] pragma, which the
    knexfile leaves alone): if it does, writing the id of a wine that is
    not stored fails. *)
Definition assignWineToSlot (foreign_keys : bool) (slotId wineId : string) (now : Z)
    (db : Database) : Settled (option RackSlot) * Database :=
  match rack_slots db !! slotId with
  | Some slot =>
      if foreign_keys && negb (bool_decide (is_Some (wines db !! wineId)))
      then (Thrown, db)
      else
        let db := {| wines := wines db;
                     rack_slots := <[slotId := assign wineId now slot]> (rack_slots db) |} in
        (Returned (findBySlotId slotId db), db)
  | None => (Returned (findBySlotId slotId db), db)
  end.

Definition clearSlot (slotId : string) (now : Z) (db : Database)
  : option RackSlot * Database :=
  let db :=
    match rack_slots db !! slotId with
    | Some slot => {| wines := wines db;
                      rack_slots := <[slotId := clear now slot]> (rack_slots db) |}
    | None => db
    end in
  (findBySlotId slotId db, db).

End RackSlotModel.

(** *** WineModel *)

(** [interface CreateWineRequest] *)
Record CreateWineRequest := {
  c_name : string;
  c_vineyard : string;
  c_region : string;
  c_color : string;
  c_grape_varieties : list string;
  c_price : option number;
  c_currency : option string;
  c_vintage_year : option number;
  c_rack_slot : option string;
  c_description : option string;
  c_personal_notes : option string;
  c_rating : option number;
  c_food_pairings : option (list string)
}.

(** [interface UpdateWineRequest]: every field may be missing; [rack_slot]
    may also be [null] ([Some None]), which [update] itself writes. *)
Record UpdateWineRequest := {
  u_name : option string;
  u_vineyard : option string;
  u_region : option string;
  u_color : option string;
  u_grape_varieties : option (list string);
  u_price : option number;
  u_currency : option string;
  u_vintage_year : option number;
  u_rack_slot : option (option string);
  u_consumption_status : option string;
  u_date_consumed : option Z;
  u_description : option string;
  u_personal_notes : option string;
  u_rating : option number;
  u_food_pairings : option (list string)
}.

Module WineModel.

Definition findById (id : string) (db : Database) : option Wine :=
  wines db !! id.

(** [create]: the row is inserted under the fresh [id] that [uuidv4()]
    gave, with the defaults of the table for what [wineData] leaves out. *)
Definition create (id : string) (wineData : CreateWineRequest)
    (schemaYear now : Z) (db : Database) : Settled Wine * Database :=
  let wine :=
    {| id := id;
       name := c_name wineData;
       vineyard := c_vineyard wineData;
       region := c_region wineData;
       color := c_color wineData;
       grape_varieties := c_grape_varieties wineData;
       price := c_price wineData;
       currency := Some (match c_currency wineData with
                         | Some c => if String.eqb c "" then "USD" else c
                         | None => "USD"
                         end);
       vintage_year := c_vintage_year wineData;
       date_added := now;
       rack_slot := c_rack_slot wineData;
       consumption_status := "Available";
       date_consumed := None;
       description := c_description wineData;
       personal_notes := c_personal_notes wineData;
       rating := c_rating wineData;
       food_pairings := c_food_pairings wineData;
       created_at := now;
       updated_at := now |} in
  match wines db !! id with
  | Some _ => (Thrown, db)
  | None =>
      if wines_check schemaYear wine then
        let db := {| wines := <[id := wine]> (wines db);
                     rack_slots := rack_slots db |} in
        match findById id db with
        | Some result => (Returned result, db)
        | None => (Thrown, db)
        end
      else (Thrown, db)
  end.

(** The columns [updateData] names, written over a row. *)
Definition set_columns (updateData : UpdateWineRequest) (now : Z) (w : Wine) : Wine :=
  {| id := id w;
     name := default (name w) (u_name updateData);
     vineyard := default (vineyard w) (u_vineyard updateData);
     region := default (region w) (u_region updateData);
     color := default (color w) (u_color updateData);
     grape_varieties := default (grape_varieties w) (u_grape_varieties updateData);
     price := match u_price updateData with
              | Some p => Some p
              | None => price w
              end;
     currency := match u_currency updateData with
                 | Some c => Some c
                 | None => currency w
                 end;
     vintage_year := match u_vintage_year updateData with
                     | Some y => Some y
                     | None => vintage_year w
                     end;
     date_added := date_added w;
     rack_slot := default (rack_slot w) (u_rack_slot updateData);
     consumption_status := default (consumption_status w)
                             (u_consumption_status updateData);
     date_consumed := match u_date_consumed updateData with
                      | Some d => Some d
                      | None => date_consumed w
                      end;
     description := match u_description updateData with
                    | Some d => Some d
                    | None => description w
                    end;
     personal_notes := match u_personal_notes updateData with
                       | Some d => Some d
                       | None => personal_notes w
                       end;
     rating := match u_rating updateData with
               | Some r => Some r
               | None => rating w
               end;
     food_pairings := match u_food_pairings updateData with
                      | Some f => Some f
                      | None => food_pairings w
                      end;
     created_at := created_at w;
     updated_at := now |}.

(** [db(TABLE).where({ id }).update(columns)]: the row under [id], if
    any, is rewritten, unless the new row fails a CHECK. *)
Definition update_row (id : string) (columns : Wine -> Wine) (schemaYear : Z)
    (db : Database) : Settled unit * Database :=
  match wines db !! id with
  | Some w =>
      if wines_check schemaYear (columns w)
      then (Returned tt, {| wines := <[id := columns w]> (wines db);
                            rack_slots := rack_slots db |})
      else (Thrown, db)
  | None => (Returned tt, db)
  end.

(** [updateData.rack_slot = null] *)
Definition with_rack_slot_null (u : UpdateWineRequest) : UpdateWineRequest :=
  {| u_name := u_name u;
     u_vineyard := u_vineyard u;
     u_region := u_region u;
     u_color := u_color u;
     u_grape_varieties := u_grape_varieties u;
     u_price := u_price u;
     u_currency := u_currency u;
     u_vintage_year := u_vintage_year u;
     u_rack_slot := Some None;
     u_consumption_status := u_consumption_status u;
     u_date_consumed := u_date_consumed u;
     u_description := u_description u;
     u_personal_notes := u_personal_notes u;
     u_rating := u_rating u;
     u_food_pairings := u_food_pairings u |}.

Definition update (id : string) (updates : UpdateWineRequest)
    (schemaYear now : Z) (db : Database) : Settled (option Wine) * Database :=
  let updateData := updates in
  let '(updateData, db) :=
    if bool_decide (u_consumption_status updates = Some "Consumed") then
      let '(_, db) := RackSlotModel.clearSlotByWineId id now db in
      (with_rack_slot_null updateData, db)
    else (updateData, db) in
  match update_row id (set_columns updateData now) schemaYear db with
  | (Returned _, db) => (Returned (findById id db), db)
  | (Thrown, db) => (Thrown, db)
  end.

(** The columns [markConsumed] writes. *)
Definition consumed_columns (consumedDate : option Z) (now : Z) (w : Wine) : Wine :=
  {| id := id w;
     name := name w;
     vineyard := vineyard w;
     region := region w;
     color := color w;
     grape_varieties := grape_varieties w;
     price := price w;
     currency := currency w;
     vintage_year := vintage_year w;
     date_added := date_added w;
     rack_slot := None;
     consumption_status := "Consumed";
     date_consumed := Some (default now consumedDate);
     description := description w;
     personal_notes := personal_notes w;
     rating := rating w;
     food_pairings := food_pairings w;
     created_at := created_at w;
     updated_at := now |}.

Definition markConsumed (id : string) (consumedDate : option Z)
    (schemaYear now : Z) (db : Database) : Settled (option Wine) * Database :=
  let '(_, db) := RackSlotModel.clearSlotByWineId id now db in
  match update_row id (consumed_columns consumedDate now) schemaYear db with
  | (Returned _, db) => (Returned (findById id db), db)
  | (Thrown, db) => (Thrown, db)
  end.

(** What ON DELETE SET NULL does to a slot when the wine [id] goes. *)
Definition set_null (id : string) (slot : RackSlot) : RackSlot :=
  if bool_decide (wine_id slot = Some id) then
    {| slot_id := slot_id slot;
       wine_id := None;
       rack_number := rack_number slot;
       row := row slot;
       position := position slot;
       x_coordinate := x_coordinate slot;
       y_coordinate := y_coordinate slot;
       width := width slot;
       height := height slot;
       is_occupied := is_occupied slot;
       last_updated := last_updated slot;
       slot_created_at := slot_created_at slot;
       slot_updated_at := slot_updated_at slot |}
  else slot.

(** [delete]: [db(TABLE).where({ id }).del()]; with [foreign_keys] the
    slots that name the deleted wine get [wine_id] NULL (migration of
    [rack_slots]: [onDelete('SET NULL')]). *)
Definition delete (foreign_keys : bool) (id : string) (db : Database)
  : bool * Database :=
  match wines db !! id with
  | Some _ =>
      let deletedRows := 1%Z in
      (bool_decide (0 < deletedRows)%Z,
       {| wines := base.delete id (wines db);
          rack_slots := if foreign_keys then set_null id <$> rack_slots db
                        else rack_slots db |})
  | None =>
      let deletedRows := 0%Z in
      (bool_decide (0 < deletedRows)%Z, db)
  end.

(** *** getStatistics *)

(** [count('* as count')] of the rows that satisfy [p]. *)
Definition count_where (p : Wine -> bool) (table : gmap string Wine) : Z :=
  Z.of_nat (size (filter (fun kv => p kv.2 = true) table)).

(** The rows of [select(column).count('* as count').groupBy(column)]: each
    value that the column takes, with the number of rows that have it. SQL
    leaves their order open; here it is that of the map. *)
Definition groupBy (column : Wine -> string) (table : gmap string Wine)
  : list (string * Z) :=
  (fun value => (value, count_where (fun w => String.eqb (column w) value) table))
    <$> remove_dups (column <$> (map_to_list table).*2).

(** The ten first of the rows, by decreasing count
    ([orderBy('count', 'desc').limit(10)]); rows of equal count stay in the
    order they had. *)
Definition count_desc (a b : string * Z) : Prop := (b.2 <= a.2)%Z.

#[global] Instance count_desc_dec (a b : string * Z) : Decision (count_desc a b) :=
  Z_le_dec b.2 a.2.

Definition top_ten (rows : list (string * Z)) : list (string * Z) :=
  take 10 (merge_sort count_desc rows).

(** [stats]; [colors] and [regions] are objects used as maps. *)
Record Statistics := {
  total : Z;
  available : Z;
  consumed : Z;
  reserved : Z;
  colors : gmap string Z;
  regions : gmap string Z
}.

(** [if (statusKey in stats && typeof stats[statusKey] === 'number')
      stats[statusKey] = Number(count)]: the four numbers of [stats] are
    the properties that can be written. *)
Definition set_status (stats : Statistics) (row : string * Z) : Statistics :=
  let statusKey := toLowerCase row.1 in
  if String.eqb statusKey "total" then
    {| total := row.2; available := available stats; consumed := consumed stats;
       reserved := reserved stats; colors := colors stats; regions := regions stats |}
  else if String.eqb statusKey "available" then
    {| total := total stats; available := row.2; consumed := consumed stats;
       reserved := reserved stats; colors := colors stats; regions := regions stats |}
  else if String.eqb statusKey "consumed" then
    {| total := total stats; available := available stats; consumed := row.2;
       reserved := reserved stats; colors := colors stats; regions := regions stats |}
  else if String.eqb statusKey "reserved" then
    {| total := total stats; available := available stats; consumed := consumed stats;
       reserved := row.2; colors := colors stats; regions := regions stats |}
  else stats.

(** [rows.forEach(({ key, count }) => { object[key] = Number(count) })]:
    every key becomes a property of the object except ['__proto__'], where
    the assignment of a number does nothing. *)
Definition set_counts (rows : list (string * Z)) : gmap string Z :=
  fold_left
    (fun object row =>
       if String.eqb row.1 "__proto__" then object else <[row.1 := row.2]> object)
    rows ∅.

Definition getStatistics (db : Database) : Statistics :=
  let totalResult := Z.of_nat (size (wines db)) in
  let statusCounts := groupBy consumption_status (wines db) in
  let colorCounts := groupBy color (wines db) in
  let regionCounts := top_ten (groupBy region (wines db)) in
  let stats :=
    {| total := totalResult; available := 0; consumed := 0; reserved := 0;
       colors := ∅; regions := ∅ |} in
  let stats := fold_left set_status statusCounts stats in
  {| total := total stats; available := available stats;
     consumed := consumed stats; reserved := reserved stats;
     colors := set_counts colorCounts;
     regions := set_counts regionCounts |}.

End WineModel.

(** *** routes/wines.ts *)

(** A JSON request body that is well typed for [CreateWineRequest] /
    [UpdateWineRequest]: a field is missing or holds a value of its type. *)
Record Body := {
  b_name : option string;
  b_vineyard : option string;
  b_region : option string;
  b_color : option string;
  b_grape_varieties : option (list string);
  b_price : option number;
  b_currency : option string;
  b_vintage_year : option number;
  b_rack_slot : option string;
  b_consumption_status : option string;
  b_date_consumed : option Z;
  b_description : option string;
  b_personal_notes : option string;
  b_rating : option number;
  b_food_pairings : option (list string);
  b_consumed_date : option Z
}.

Inductive Payload :=
| Error (message : string)
| WineJson (wine : option Wine).

Record Response := {
  status : Z;
  payload : Payload
}.

(** A string field in a condition: missing or empty is falsy. *)
Definition present (s : option string) : bool :=
  match s with
  | Some v => negb (String.eqb v "")
  | None => false
  end.

(** [parseInt(x)] for a number [x] with 1e-6 <= |x| < 1e21, which is
    written without exponent: its integer part. Both calls below come
    after the range checks, which leave such numbers only. *)
Definition parseInt (x : number) : number :=
  if (x <? 0)%float then (- Math_floor (- x))%float else Math_floor x.

(** [req.body.vintage_year && (req.body.vintage_year < 1800 ||
      req.body.vintage_year > new Date().getFullYear())] *)
Definition invalid_vintage_year (currentYear : Z) (body : Body) : bool :=
  match b_vintage_year body with
  | Some v => truthy v && ((v <? 1800) || (of_Z currentYear <? v))%float
  | None => false
  end.

(** [req.body.rating && (req.body.rating < 1 || req.body.rating > 100)] *)
Definition invalid_rating (body : Body) : bool :=
  match b_rating body with
  | Some r => truthy r && ((r <? 1) || (100 <? r))%float
  | None => false
  end.

(** [router.post('/')]; [uuid] is what [uuidv4()] gives. *)
Definition post_wine (body : Body) (uuid : string) (currentYear schemaYear now : Z)
    (db : Database) : Response * Database :=
  if negb (present (b_name body)) || negb (present (b_vineyard body))
     || negb (present (b_region body)) || negb (present (b_color body))
     || negb (bool_decide (is_Some (b_grape_varieties body)))
  then ({| status := 400;
           payload := Error "Missing required fields: name, vineyard, region, color, grape_varieties" |},
        db)
  else if negb (includes_str validColors (default "" (b_color body)))
  then ({| status := 400;
           payload := Error ("Invalid color. Must be one of: " +:+ join ", " validColors) |},
        db)
  else if invalid_vintage_year currentYear body
  then ({| status := 400;
           payload := Error "Invalid vintage year. Must be between 1800 and current year" |},
        db)
  else if invalid_rating body
  then ({| status := 400;
           payload := Error "Invalid rating. Must be between 1 and 100" |},
        db)
  else
    let wineData :=
      {| c_name := trim (default "" (b_name body));
         c_vineyard := trim (default "" (b_vineyard body));
         c_region := trim (default "" (b_region body));
         c_color := default "" (b_color body);
         c_grape_varieties := map trim (default [] (b_grape_varieties body));
         c_price := if truthy_opt (b_price body) then b_price body else None;
         c_currency := Some (if present (b_currency body)
                             then default "" (b_currency body) else "USD");
         c_vintage_year := if truthy_opt (b_vintage_year body)
                           then parseInt <$> b_vintage_year body else None;
         c_rack_slot := trim <$> b_rack_slot body;
         c_description := trim <$> b_description body;
         c_personal_notes := trim <$> b_personal_notes body;
         c_rating := if truthy_opt (b_rating body)
                     then parseInt <$> b_rating body else None;
         c_food_pairings := map trim <$> b_food_pairings body |} in
    match WineModel.create uuid wineData schemaYear now db with
    | (Returned wine, db) => ({| status := 201; payload := WineJson (Some wine) |}, db)
    | (Thrown, db) => ({| status := 500; payload := Error "Failed to create wine" |}, db)
    end.

(** [router.put('/:id')] *)
Definition put_wine (id : string) (body : Body) (currentYear schemaYear now : Z)
    (db : Database) : Response * Database :=
  match WineModel.findById id db with
  | None => ({| status := 404; payload := Error "Wine not found" |}, db)
  | Some existingWine =>
      if present (b_color body)
         && negb (includes_str validColors (default "" (b_color body)))
      then ({| status := 400;
               payload := Error ("Invalid color. Must be one of: " +:+ join ", " validColors) |},
            db)
      else if invalid_vintage_year currentYear body
      then ({| status := 400;
               payload := Error "Invalid vintage year. Must be between 1800 and current year" |},
            db)
      else if invalid_rating body
      then ({| status := 400;
               payload := Error "Invalid rating. Must be between 1 and 100" |},
            db)
      else if present (b_consumption_status body)
              && negb (includes_str validStatuses (default "" (b_consumption_status body)))
      then ({| status := 400;
               payload := Error ("Invalid consumption status. Must be one of: "
                                 +:+ join ", " validStatuses) |},
            db)
      else
        let updateData :=
          {| u_name := trim <$> b_name body;
             u_vineyard := trim <$> b_vineyard body;
             u_region := trim <$> b_region body;
             u_color := trim <$> b_color body;
             u_grape_varieties := map trim <$> b_grape_varieties body;
             u_price := b_price body;
             u_currency := trim <$> b_currency body;
             u_vintage_year := b_vintage_year body;
             u_rack_slot := (fun slot => Some (trim slot)) <$> b_rack_slot body;
             u_consumption_status := trim <$> b_consumption_status body;
             u_date_consumed := b_date_consumed body;
             u_description := trim <$> b_description body;
             u_personal_notes := trim <$> b_personal_notes body;
             u_rating := b_rating body;
             u_food_pairings := map trim <$> b_food_pairings body |} in
        match WineModel.update id updateData schemaYear now db with
        | (Returned updatedWine, db) =>
            ({| status := 200; payload := WineJson updatedWine |}, db)
        | (Thrown, db) =>
            ({| status := 500; payload := Error "Failed to update wine" |}, db)
        end
  end.

(** [router.post('/:id/consume')] *)
Definition post_consume (id : string) (body : Body) (schemaYear now : Z)
    (db : Database) : Response * Database :=
  match WineModel.findById id db with
  | None => ({| status := 404; payload := Error "Wine not found" |}, db)
  | Some wine =>
      if String.eqb (consumption_status wine) "Consumed"
      then ({| status := 400; payload := Error "Wine is already marked as consumed" |}, db)
      else
        let consumedDate := default now (b_consumed_date body) in
        match WineModel.markConsumed id (Some consumedDate) schemaYear now db with
        | (Returned updatedWine, db) =>
            ({| status := 200; payload := WineJson updatedWine |}, db)
        | (Thrown, db) =>
            ({| status := 500; payload := Error "Failed to mark wine as consumed" |}, db)
        end
  end.

(** What the other routes send: a JSON body with a status, an error with a
    status, or a status alone. *)
Inductive Reply (T : Type) :=
| Json (status : Z) (body : T)
| Failure (status : Z) (error : string)
| Empty (status : Z).
Arguments Json {T} status body.
Arguments Failure {T} status error.
Arguments Empty {T} status.

(** [router.get('/:id')] *)
Definition get_wine (id : string) (db : Database) : Reply Wine :=
  match WineModel.findById id db with
  | None => Failure 404 "Wine not found"
  | Some wine => Json 200 wine
  end.

(** [router.delete('/:id')] *)
Definition delete_wine (foreign_keys : bool) (id : string) (db : Database)
  : Reply unit * Database :=
  match WineModel.findById id db with
  | None => (Failure 404 "Wine not found", db)
  | Some wine =>
      let '(deleted, db) := WineModel.delete foreign_keys id db in
      if deleted then (Empty 204, db)
      else (Failure 500 "Failed to delete wine", db)
  end.

(** [{ wine_id, wine_name, suggestions }] *)
Inductive Suggestions :=
| SuggestionsFor (wine_id wine_name : string) (suggestions : list string).

(** [router.get('/:id/food-pairings')] *)
Definition get_food_pairings (id : string) (db : Database)
    (s : WineApiService.Service) (now late : Z)
  : Reply Suggestions * WineApiService.Service :=
  match WineModel.findById id db with
  | None => (Failure 404 "Wine not found", s)
  | Some wine =>
      let '(suggestions, s) :=
        WineApiService.suggestFoodPairings (Some (color wine))
          (Some (grape_varieties wine)) s now late in
      (Json 200 (SuggestionsFor (Cellar.id wine) (name wine) suggestions), s)
  end.

(** The two bodies of [router.post('/:id/auto-populate')]:
    [{ message, populated: false }] and
    [{ message, populated: true, updated_fields, wine, source }]. *)
Inductive AutoPopulate :=
| NotPopulated (message : string)
| Populated (message : string) (updated_fields : list string)
    (wine : option Wine) (source : WineDataNormalizer.Source).

(** [const updateData: UpdateWineRequest = {}] *)
Definition no_update : UpdateWineRequest :=
  {| u_name := None; u_vineyard := None; u_region := None; u_color := None;
     u_grape_varieties := None; u_price := None; u_currency := None;
     u_vintage_year := None; u_rack_slot := None; u_consumption_status := None;
     u_date_consumed := None; u_description := None; u_personal_notes := None;
     u_rating := None; u_food_pairings := None |}.

(** The fields the route takes from [externalData]: those that are empty in
    [wine] and not in [externalData]. *)
Definition populate (wine : Wine) (externalData : WineDataNormalizer.WineApiSearchResult)
  : UpdateWineRequest :=
  let fills_price :=
    negb (truthy_opt (price wine))
    && truthy_opt (WineDataNormalizer.price externalData) in
  {| u_name := None; u_vineyard := None; u_region := None; u_color := None;
     u_grape_varieties := None;
     u_price := if fills_price then WineDataNormalizer.price externalData else None;
     u_currency :=
       if fills_price
       then Some (match WineDataNormalizer.currency externalData with
                  | Some c => if String.eqb c "" then "USD" else c
                  | None => "USD"
                  end)
       else None;
     u_vintage_year := None; u_rack_slot := None; u_consumption_status := None;
     u_date_consumed := None;
     u_description :=
       if negb (present (description wine))
          && present (WineDataNormalizer.description externalData)
       then WineDataNormalizer.description externalData else None;
     u_personal_notes := None;
     u_rating :=
       if negb (truthy_opt (rating wine))
          && truthy_opt (WineDataNormalizer.rating externalData)
       then WineDataNormalizer.rating externalData else None;
     u_food_pairings :=
       match food_pairings wine, WineDataNormalizer.food_pairings externalData with
       | (None | Some []), Some (pairing :: pairings) => Some (pairing :: pairings)
       | _, _ => None
       end |}.

(** [Object.keys(updateData)], for an [updateData] that [populate] made. *)
Definition updated_keys (updateData : UpdateWineRequest) : list string :=
  (if bool_decide (is_Some (u_description updateData)) then ["description"] else [])
  ++ (if bool_decide (is_Some (u_rating updateData)) then ["rating"] else [])
  ++ (if bool_decide (is_Some (u_food_pairings updateData)) then ["food_pairings"] else [])
  ++ (if bool_decide (is_Some (u_price updateData)) then ["price"; "currency"] else []).

(** [router.post('/:id/auto-populate')]. [toString] is how the template
    literal renders a number, [scrapes] how the attempts of the Vivino
    search settle. *)
Definition auto_populate (id : string) (toString : number -> string)
    (scrapes : nat -> WineApiService.Settled
                        (list WineDataNormalizer.WineApiSearchResult)
                        WineApiService.JsError)
    (currentYear schemaYear now : Z) (db : Database)
  : Reply AutoPopulate * Database :=
  match WineModel.findById id db with
  | None => (Failure 404 "Wine not found", db)
  | Some wine =>
      let searchQuery :=
        trim (name wine +:+ " " +:+ vineyard wine +:+ " " +:+
              match vintage_year wine with
              | Some year => if truthy year then toString year else ""
              | None => ""
              end) in
      let results :=
        WineApiService.searchWine currentYear
          {| WineApiService.query := searchQuery;
             WineApiService.vintage := vintage_year wine;
             WineApiService.opt_region := Some (region wine);
             WineApiService.limit := Some 1%Z |}
          scrapes in
      match results with
      | [] => (Json 200 (NotPopulated "No external data found for this wine"), db)
      | externalData :: _ =>
          let updateData := populate wine externalData in
          match updated_keys updateData with
          | [] => (Json 200 (NotPopulated "Wine already has complete information"), db)
          | updated_fields =>
              match WineModel.update id updateData schemaYear now db with
              | (Returned updatedWine, db) =>
                  (Json 200 (Populated "Wine details updated from external sources"
                               updated_fields updatedWine
                               (WineDataNormalizer.source externalData)),
                   db)
              | (Thrown, db) => (Failure 500 "Failed to auto-populate wine details", db)
              end
          end
      end
  end.

(** ** routes/foodPairings.ts *)

(** A row of [food_pairings]. *)
Record FoodPairing := {
  pairing_id : string;
  pairing_wine_id : string;
  food_item : string;
  category : string;
  pairing_description : option string;
  user_rating : option Z;
  is_suggested : bool;
  pairing_source : option string;
  pairing_created_at : Z;
  pairing_updated_at : Z
}.

(** [knex('wines').where('id', wineId).first()] gives the row as the table
    has it: [grape_varieties] is the JSON text that [WineModel.create] and
    [WineModel.update] wrote, not the array that [transformFromDb] makes of
    it. *)
Definition row_grape_varieties (wine : Wine) : string :=
  JSON_stringify (grape_varieties wine).

(** [suggestFoodPairings] on such a row. A text that is not empty passes
    [if (wine.grape_varieties)] and has no [forEach]: the call throws a
    TypeError, after [rateLimit]. *)
Definition suggestFoodPairings_of_row (wine_color : option string)
    (wine_grape_varieties : string) (s : WineApiService.Service) (now late : Z)
  : Settled (list string) * WineApiService.Service :=
  if negb (String.eqb wine_grape_varieties "")
  then (Thrown, (WineApiService.rateLimit s now late).1)
  else
    let '(pairings, s) :=
      WineApiService.suggestFoodPairings wine_color None s now late in
    (Returned pairings, s).

(** [knex('food_pairings').insert(pairingData)]: one statement, which writes
    every row or none. A row is refused when its [id] is taken (PRIMARY KEY),
    when its wine has the food already (UNIQUE(wine_id, food_item)) or when
    its category is not one of the five (CHECK). *)
Definition validCategories : list string :=
  ["Appetizer"; "Main Course"; "Dessert"; "Cheese"; "Other"].

Definition pairing_refused (table : gmap string FoodPairing) (row : FoodPairing) : bool :=
  bool_decide (is_Some (table !! pairing_id row))
  || existsb
       (fun p => String.eqb (pairing_wine_id p) (pairing_wine_id row)
                 && String.eqb (food_item p) (food_item row))
       (map_to_list table).*2
  || negb (existsb (String.eqb (category row)) validCategories).

Fixpoint insert_pairings (rows : list FoodPairing) (table : gmap string FoodPairing)
  : option (gmap string FoodPairing) :=
  match rows with
  | [] => Some table
  | row :: rest =>
      if pairing_refused table row then None
      else insert_pairings rest (<[pairing_id row := row]> table)
  end.

(** The two bodies that [router.post('/bulk-suggestions/:wine_id')] answers
    with: [{ message, created: 0 }] and [{ message, created, suggestions }]. *)
Inductive BulkSuggestions :=
| NoneCreated (message : string) (created : nat)
| Created (message : string) (created : nat) (suggestions : list FoodPairing).

(** [router.post('/bulk-suggestions/:wine_id')]. [uuids] are the values of
    [uuidv4()], one for each suggestion, and [now'] is the clock when the rows
    are made. *)
Definition post_bulk_suggestions (wineId : string) (uuids : nat -> string)
    (db : Database) (food_pairings : gmap string FoodPairing)
    (s : WineApiService.Service) (now late now' : Z)
  : Reply BulkSuggestions * gmap string FoodPairing * WineApiService.Service :=
  match wines db !! wineId with
  | None => (Failure 404 "Wine not found", food_pairings, s)
  | Some wine =>
      match suggestFoodPairings_of_row (Some (color wine)) (row_grape_varieties wine)
              s now late with
      | (Thrown, s) =>
          (Failure 500 "Failed to create food pairing suggestions", food_pairings, s)
      | (Returned suggestions, s) =>
          if (length suggestions =? 0)%nat then
            (Json 200 (NoneCreated "No food pairing suggestions found for this wine" 0),
             food_pairings, s)
          else
            let pairingData :=
              imap (fun index suggestion =>
                      {| pairing_id := uuids index;
                         pairing_wine_id := wineId;
                         food_item := suggestion;
                         category := "Other";
                         pairing_description := None;
                         user_rating := None;
                         is_suggested := true;
                         pairing_source := Some "wine_api_service";
                         pairing_created_at := now';
                         pairing_updated_at := now' |})
                   suggestions in
            match insert_pairings pairingData food_pairings with
            | None =>
                (Failure 500 "Failed to create food pairing suggestions",
                 food_pairings, s)
            | Some food_pairings =>
                (Json 201
                   (Created ("Created " +:+ pretty (length pairingData)
                             +:+ " food pairing suggestions")
                      (length pairingData) pairingData),
                 food_pairings, s)
            end
      end
  end.

End Cellar.

(** * Properties *)

(** ** Numbers in conditions *)

Section Numbers.
Import JS.

Lemma SFcompare_finite_refl s m e :
  SFcompare (S754_finite s m e) (S754_finite s m e) = Some Eq.
Proof.
  simpl. destruct s; rewrite Z.compare_refl; fold (Pos.compare m m);
    by rewrite Pos.compare_refl.
Qed.

(** A number is truthy unless it is a zero or [NaN]. *)
Lemma truthy_spec r :
  truthy r = match Prim2SF r with
             | S754_zero _ | S754_nan => false
             | _ => true
             end.
Proof.
  unfold truthy, is_nan. rewrite !FloatAxioms.eqb_spec.
  change (Prim2SF 0) with (S754_zero false).
  destruct (Prim2SF r) as [[]|[]| |s m e]; try reflexivity.
  unfold SFeqb. rewrite SFcompare_finite_refl. by destruct s.
Qed.

(** A number that is at least a positive number is truthy. *)
Lemma leb_positive_truthy c r :
  match Prim2SF c with
  | S754_finite false _ _ => True
  | _ => False
  end ->
  (c <=? r)%float = true -> truthy r = true.
Proof.
  rewrite truthy_spec, FloatAxioms.leb_spec. unfold SFleb.
  destruct (Prim2SF c) as [ | | |[] mc ec]; try done.
  intros _. by destruct (Prim2SF r) as [[]|[]| |s m e].
Qed.

Lemma ge_1_truthy r : ge r 1%float = true -> truthy r = true.
Proof. apply leb_positive_truthy. exact I. Qed.

(** Comparing the other way round gives the opposite answer. *)
Lemma SFcompare_antisym x y :
  SFcompare y x = CompOpp <$> SFcompare x y.
Proof.
  destruct x as [[]|[]| |[] m1 e1], y as [[]|[]| |[] m2 e2]; try reflexivity; simpl;
    rewrite (Z.compare_antisym e2 e1); destruct (e2 ?= e1)%Z; simpl; try reflexivity;
    rewrite <- (Pos.compare_cont_antisym m2 m1 Eq : CompOpp _ = Pos.compare_cont Eq m1 m2);
    by destruct (Pos.compare_cont Eq m2 m1).
Qed.

(** [x <= y] excludes [y < x]. *)
Lemma leb_not_ltb x y : (x <=? y)%float = true -> (y <? x)%float = false.
Proof.
  rewrite FloatAxioms.leb_spec, FloatAxioms.ltb_spec. unfold SFleb, SFltb.
  rewrite (SFcompare_antisym (Prim2SF x) (Prim2SF y)).
  by destruct (SFcompare (Prim2SF x) (Prim2SF y)) as [[]|].
Qed.

End Numbers.

(** ** Rating scales *)

Section Ratings.
Import JS WineDataNormalizer.

(** A rating of 150 with no source is dropped, not rounded. *)
Lemma normalizeRating_150_undefined :
  normalizeRating (Some 150%float) None = None
  /\ normalizeRating (Some 150%float) None <> Some (Math_round 150%float).
Proof. by vm_compute. Qed.

(** C3, as the code has it. With no recognized source a rating in [1,5] is
    multiplied by 20 and rounded, a rating in (5,100] is rounded, and any
    other rating (below 1, above 100, 0 or [NaN]) gives [undefined]. For
    'vivino' a rating in [1,5] is multiplied by 20 and rounded, for
    'wine_api' a rating in [1,100] is rounded; both give [undefined]
    otherwise. *)
Theorem normalizeRating_scale (r : number) (source : option string) :
  (source <> Some "vivino" -> source <> Some "wine_api" ->
   normalizeRating (Some r) source =
     if ge r 1%float && (r <=? 5)%float then Some (Math_round (r * 20)%float)
     else if ge r 1%float && (r <=? 100)%float then Some (Math_round r)
     else None)
  /\ normalizeRating (Some r) (Some "vivino") =
       (if ge r 1%float && (r <=? 5)%float then Some (Math_round (r * 20)%float)
        else None)
  /\ normalizeRating (Some r) (Some "wine_api") =
       (if ge r 1%float && (r <=? 100)%float then Some (Math_round r)
        else None)
  /\ normalizeRating None source = None.
Proof.
  assert (truthy r = false -> ge r 1%float = false) as Hfalsy.
  { intros Hr. destruct (ge r 1%float) eqn:Hge; [|done].
    apply ge_1_truthy in Hge. congruence. }
  unfold normalizeRating.
  destruct (truthy r) eqn:Hr; simpl.
  - repeat split.
    intros Hv Ha. by rewrite !bool_decide_eq_false_2.
  - rewrite (Hfalsy eq_refl). simpl. repeat split.
Qed.

(** A rating of 4.2 from a manual entry is on the 5-point scale, and a
    rating of 92.4 on the 100-point scale. *)
Lemma normalizeRating_scale_witness :
  normalizeRating (Some 4.2%float) (Some "manual") = Some 84%float
  /\ normalizeRating (Some 92.4%float) None = Some 92%float.
Proof.
  destruct (normalizeRating_scale 4.2%float (Some "manual")) as (Hfive & _).
  destruct (normalizeRating_scale 92.4%float None) as (Hhundred & _).
  split.
  - etrans; [by apply Hfive|]. by vm_compute.
  - etrans; [by apply Hhundred|]. by vm_compute.
Defined.

(** Ratings on each scale, and outside both. *)
Example normalizeRating_examples :
  normalizeRating (Some 4.2%float) None = Some 84%float
  /\ normalizeRating (Some 4.225%float) (Some "manual") = Some 85%float
  /\ normalizeRating (Some 92.4%float) None = Some 92%float
  /\ normalizeRating (Some 0.5%float) None = None
  /\ normalizeRating (Some 4.5%float) (Some "vivino") = Some 90%float
  /\ normalizeRating (Some 84%float) (Some "vivino") = None
  /\ normalizeRating (Some 87.5%float) (Some "wine_api") = Some 88%float.
Proof. by vm_compute. Qed.

End Ratings.

(** ** Duplicate removal *)

Section RemoveDuplicates.
Import JS WineDataNormalizer.

Implicit Types (wine kept : WineApiSearchResult) (wines unique : list WineApiSearchResult).

(** The loop body appends the wine or leaves [unique] alone. *)
Lemma removeDuplicates_step_spec unique wine :
  removeDuplicates_step unique wine =
    if existsb (isDuplicate wine) unique then unique else unique ++ [wine].
Proof.
  unfold removeDuplicates_step. by destruct (existsb _ unique).
Qed.

(** One more round of the loop. *)
Lemma removeDuplicates_snoc wines wine :
  removeDuplicates (wines ++ [wine]) =
    removeDuplicates_step (removeDuplicates wines) wine.
Proof. unfold removeDuplicates. by rewrite fold_left_app. Qed.

(** The loop only ever appends, and what it appends is picked from its
    input in order. *)
Lemma fold_step_extends wines unique :
  exists added,
    fold_left removeDuplicates_step wines unique = unique ++ added
    /\ added `sublist_of` wines.
Proof.
  revert unique. induction wines as [|wine wines IH]; intros unique; simpl.
  - exists []. by rewrite app_nil_r.
  - rewrite removeDuplicates_step_spec.
    destruct (existsb (isDuplicate wine) unique).
    + destruct (IH unique) as (added & -> & Hsub).
      exists added. split; [done|]. by apply sublist_cons.
    + destruct (IH (unique ++ [wine])) as (added & -> & Hsub).
      exists (wine :: added). split; [by rewrite <- app_assoc|].
      by apply sublist_skip.
Qed.

Lemma removeDuplicates_sublist wines :
  removeDuplicates wines `sublist_of` wines.
Proof.
  destruct (fold_step_extends wines []) as (added & Heq & Hsub).
  unfold removeDuplicates. by rewrite Heq.
Qed.

Lemma removeDuplicates_head wines :
  head (removeDuplicates wines) = head wines.
Proof.
  destruct wines as [|wine wines]; [done|].
  unfold removeDuplicates. simpl.
  destruct (fold_step_extends wines [wine]) as (added & Heq & _).
  change (removeDuplicates_step [] wine) with [wine]. by rewrite Heq.
Qed.

(** What was kept after a prefix of the input stays in front. *)
Lemma removeDuplicates_prefix pre post :
  removeDuplicates pre `prefix_of` removeDuplicates (pre ++ post).
Proof.
  unfold removeDuplicates. rewrite fold_left_app.
  destruct (fold_step_extends post (fold_left removeDuplicates_step pre []))
    as (added & -> & _).
  by exists added.
Qed.

(** [Distinct l]: no element of [l] is a duplicate of one before it. *)
Inductive Distinct : list WineApiSearchResult -> Prop :=
| Distinct_nil : Distinct []
| Distinct_snoc unique wine :
    Distinct unique ->
    existsb (isDuplicate wine) unique = false ->
    Distinct (unique ++ [wine]).

Lemma removeDuplicates_Distinct wines : Distinct (removeDuplicates wines).
Proof.
  induction wines as [|wine wines IH] using rev_ind.
  - constructor.
  - rewrite removeDuplicates_snoc, removeDuplicates_step_spec.
    destruct (existsb _ _) eqn:Hdup; [done|]. by constructor.
Qed.

Lemma removeDuplicates_fixes_Distinct unique :
  Distinct unique -> removeDuplicates unique = unique.
Proof.
  induction 1 as [|unique wine _ IH Hnew]; [done|].
  by rewrite removeDuplicates_snoc, IH, removeDuplicates_step_spec, Hnew.
Qed.

Lemma existsb_false_elem {A} (f : A -> bool) (l : list A) x :
  existsb f l = false -> x ∈ l -> f x = false.
Proof.
  intros Hnone Hx. destruct (f x) eqn:Hfx; [|done].
  assert (existsb f l = true) as Hsome; [|congruence].
  apply existsb_exists. exists x. split; [|done]. by apply list_elem_of_In.
Qed.

Lemma Distinct_lookup unique :
  Distinct unique ->
  forall i j earlier later,
    unique !! i = Some earlier -> unique !! j = Some later -> i < j ->
    isDuplicate later earlier = false.
Proof.
  induction 1 as [|unique wine _ IH Hnew]; intros i j earlier later Hi Hj Hlt.
  - by rewrite lookup_nil in Hi.
  - destruct (decide (j < length unique)) as [Hj'|Hj'].
    + rewrite lookup_app_l in Hi, Hj by lia. eauto.
    + assert (j = length unique) as ->.
      { apply lookup_lt_Some in Hj. rewrite length_app in Hj. simpl in Hj. lia. }
      rewrite lookup_app_l in Hi by lia.
      rewrite list_lookup_middle in Hj by done. injection Hj as <-.
      apply (existsb_false_elem _ unique); [done|].
      by apply list_elem_of_lookup_2 in Hi.
Qed.

(** What the loop does with the wine that follows [pre]. *)
Lemma removeDuplicates_next pre wine :
  (existsb (isDuplicate wine) (removeDuplicates pre) = false
   /\ removeDuplicates (pre ++ [wine]) = removeDuplicates pre ++ [wine])
  \/ (exists kept, kept ∈ removeDuplicates pre /\ isDuplicate wine kept = true
                  /\ removeDuplicates (pre ++ [wine]) = removeDuplicates pre).
Proof.
  rewrite removeDuplicates_snoc, removeDuplicates_step_spec.
  destruct (existsb _ _) eqn:Hdup; [right|left; done].
  apply existsb_exists in Hdup as (kept & Hin & Hdup).
  exists kept. by rewrite list_elem_of_In.
Qed.

(** C10. [removeDuplicates] returns an order-preserving sublist of its
    input, which starts with the first wine of the input. The wines kept
    after a prefix of the input stay in front; the wine that follows the
    prefix is dropped exactly when it is a duplicate of one of them, so of
    each group of wines dropped for the same kept wine the kept wine is the
    earliest, and no kept wine is a duplicate of a wine kept before it.
    Applying [removeDuplicates] to its own output returns that output. *)
Theorem removeDuplicates_sublist_first_idempotent wines :
  removeDuplicates wines `sublist_of` wines
  /\ head (removeDuplicates wines) = head wines
  /\ (forall pre wine post, wines = pre ++ wine :: post ->
        removeDuplicates pre `prefix_of` removeDuplicates wines
        /\ ((existsb (isDuplicate wine) (removeDuplicates pre) = false
             /\ removeDuplicates (pre ++ [wine]) = removeDuplicates pre ++ [wine])
            \/ (exists kept, kept ∈ removeDuplicates pre
                            /\ isDuplicate wine kept = true
                            /\ removeDuplicates (pre ++ [wine]) = removeDuplicates pre)))
  /\ (forall i j earlier later,
        removeDuplicates wines !! i = Some earlier ->
        removeDuplicates wines !! j = Some later ->
        i < j -> isDuplicate later earlier = false)
  /\ removeDuplicates (removeDuplicates wines) = removeDuplicates wines.
Proof.
  split; [apply removeDuplicates_sublist|].
  split; [apply removeDuplicates_head|].
  split.
  { intros pre wine post ->. split; [apply removeDuplicates_prefix|].
    apply removeDuplicates_next. }
  split.
  { apply Distinct_lookup, removeDuplicates_Distinct. }
  apply removeDuplicates_fixes_Distinct, removeDuplicates_Distinct.
Qed.

(** A wine listed twice and another wine: the second listing is dropped. *)
Lemma removeDuplicates_sublist_first_idempotent_witness :
  let wine (n : string) :=
    {| name := n; vineyard := "Heritage Vineyards"; region := "Napa"; color := "Red";
       grape_varieties := []; vintage_year := None; rating := None;
       description := None; price := None; currency := None; food_pairings := None;
       image_url := None; source := manual |} in
  let wines := [wine "Merlot Estate"; wine "merlot estate"; wine "Zinfandel"] in
  removeDuplicates wines = [wine "Merlot Estate"; wine "Zinfandel"]
  /\ removeDuplicates wines `sublist_of` wines
  /\ removeDuplicates (removeDuplicates wines) = removeDuplicates wines.
Proof.
  intros wine wines. split; [by vm_compute|].
  destruct (removeDuplicates_sublist_first_idempotent wines) as (Hsub & _ & _ & _ & Hidem).
  by split.
Defined.

End RemoveDuplicates.

(** ** Retrying *)

Section Retry.
Import JS WineApiService.

Context {T : Type}.
Implicit Types (operation : nat -> Settled T JsError) (error : JsError).

(** [error?.message?.includes('Navigation timeout')] *)
Definition navigation_timeout error : bool :=
  match message error with
  | Some m => includes m "Navigation timeout"
  | None => false
  end.

(** The first [i] calls of [operation] threw errors that are retried. *)
Definition retried_before operation (i : nat) : Prop :=
  forall j, j < i ->
    exists error, operation j = Thrown error /\ isNonRetryableError error = false.

Lemma isNonRetryableError_spec error :
  isNonRetryableError error = true <->
    (code error = Some "ENOTFOUND" \/ code error = Some "ECONNREFUSED")
    \/ (navigation_timeout error = false
        /\ (status error = Some 404%Z \/ status error = Some 403%Z)).
Proof.
  unfold isNonRetryableError, navigation_timeout.
  destruct (match message error with Some _ => _ | None => _ end);
    repeat case_bool_decide; simpl; intuition congruence.
Qed.

(** One round of the loop on an error that is retried. *)
Lemma retry_loop_retried operation attempt n error lastError waits :
  operation attempt = Thrown error ->
  isNonRetryableError error = false ->
  retry_loop operation attempt (S n) lastError waits =
    retry_loop operation (S attempt) n error
      (if (attempt <? MAX_RETRIES - 1)%nat
       then waits ++ [default 0%Z (RETRY_DELAYS !! attempt)] else waits).
Proof. intros Hop Hretry. simpl. by rewrite Hop, Hretry. Qed.

(** Unfolds the loop along the errors that [retried_before] provides. *)
Ltac retried_rounds Hbefore :=
  repeat match goal with
  | |- context [retry_loop ?op ?a (S ?n) ?e ?w] =>
      let e' := fresh "error" in
      let Hop := fresh "Hop" in
      let Hre := fresh "Hretried" in
      destruct (Hbefore a) as (e' & Hop & Hre); [lia|];
      rewrite (retry_loop_retried op a n e' e w Hop Hre)
  end.

(** An error with status 404 whose message tells of a navigation timeout
    is retried: the first call throws it, the second call is made and its
    result returned. *)
Lemma navigation_timeout_404_is_retried :
  let error := {| code := None;
                  message := Some "Navigation timeout of 45000 ms exceeded";
                  status := Some 404%Z |} in
  let operation := fun attempt : nat =>
    if (attempt =? 0)%nat then Thrown error else Returned ["Merlot"] in
  status error = Some 404%Z
  /\ operation 0 = Thrown error
  /\ retryWithExponentialBackoff operation =
       {| settled := Returned ["Merlot"]; calls := 2; slept := [1000%Z] |}
  /\ settled (retryWithExponentialBackoff operation) <> Thrown error.
Proof. by vm_compute. Qed.

(** C2, as the code has it. An error is not retried when its code is
    ENOTFOUND or ECONNREFUSED, or when its status is 403 or 404 and its
    message does not tell of a navigation timeout. When an attempt throws
    such an error it is thrown at once and no further attempt is made. Any
    other error is retried: the operation is called at most [MAX_RETRIES] = 3
    times, the delays slept before the second and third call are the first
    two of the schedule 1s/2s/4s, a value returned by an attempt is returned,
    and after the third failed attempt its error is thrown. *)
Theorem retryWithExponentialBackoff_attempts operation :
  (forall error,
     isNonRetryableError error = true <->
       (code error = Some "ENOTFOUND" \/ code error = Some "ECONNREFUSED")
       \/ (navigation_timeout error = false
           /\ (status error = Some 404%Z \/ status error = Some 403%Z)))
  /\ (forall i error,
        i < MAX_RETRIES -> retried_before operation i ->
        operation i = Thrown error -> isNonRetryableError error = true ->
        retryWithExponentialBackoff operation =
          {| settled := Thrown error; calls := S i; slept := take i RETRY_DELAYS |})
  /\ (forall i v,
        i < MAX_RETRIES -> retried_before operation i ->
        operation i = Returned v ->
        retryWithExponentialBackoff operation =
          {| settled := Returned v; calls := S i; slept := take i RETRY_DELAYS |})
  /\ (forall error,
        retried_before operation MAX_RETRIES ->
        operation (MAX_RETRIES - 1) = Thrown error ->
        retryWithExponentialBackoff operation =
          {| settled := Thrown error; calls := MAX_RETRIES;
             slept := [1000; 2000]%Z |}).
Proof.
  split; [apply isNonRetryableError_spec|].
  unfold retryWithExponentialBackoff, MAX_RETRIES.
  split; [|split].
  - intros i error Hi Hbefore Hop Hnon.
    destruct i as [|[|[|i]]]; try lia; retried_rounds Hbefore;
      simpl; rewrite Hop; simpl; by rewrite Hnon.
  - intros i v Hi Hbefore Hop.
    destruct i as [|[|[|i]]]; try lia; retried_rounds Hbefore;
      simpl; by rewrite Hop.
  - intros error Hbefore Hop. simpl in Hop.
    retried_rounds Hbefore. simpl. congruence.
Qed.

(** A run on each path: a terminal error on the second attempt, a value on
    the third, and three errors that are retried. *)
Example retryWithExponentialBackoff_runs :
  let refused := {| code := Some "ECONNREFUSED"; message := None; status := None |} in
  let busy := {| code := None; message := Some "busy"; status := Some 503%Z |} in
  retryWithExponentialBackoff
    (fun attempt => if (attempt =? 0)%nat then Thrown busy else Thrown (T:=list string) refused)
  = {| settled := Thrown refused; calls := 2; slept := [1000%Z] |}
  /\ retryWithExponentialBackoff
       (fun attempt => if (attempt <? 2)%nat then Thrown busy else Returned ["Merlot"])
     = {| settled := Returned ["Merlot"]; calls := 3; slept := [1000; 2000]%Z |}
  /\ retryWithExponentialBackoff (fun _ => Thrown (T:=list string) busy)
     = {| settled := Thrown busy; calls := 3; slept := [1000; 2000]%Z |}.
Proof. by vm_compute. Qed.

End Retry.

Section RetryWitness.
Import JS WineApiService.

(** A connection refused on the second attempt ends the run there. *)
Lemma retryWithExponentialBackoff_attempts_witness :
  let refused := {| code := Some "ECONNREFUSED"; message := None; status := None |} in
  let busy := {| code := None; message := Some "busy"; status := Some 503%Z |} in
  let operation := fun attempt : nat =>
    if (attempt =? 0)%nat then Thrown busy else Thrown (T:=list string) refused in
  retryWithExponentialBackoff operation
  = {| settled := Thrown refused; calls := 2; slept := [1000%Z] |}.
Proof.
  intros refused busy operation.
  apply (proj1 (proj2 (retryWithExponentialBackoff_attempts operation)) 1 refused).
  - unfold MAX_RETRIES. lia.
  - intros j Hj. exists busy. replace j with 0 by lia. by split.
  - reflexivity.
  - reflexivity.
Defined.

End RetryWitness.

(** ** Searching *)

Section Search.
Import JS WineDataNormalizer WineApiService.

Implicit Types (options : WineApiSearchOptions) (wines : list WineApiSearchResult).

(** What a source contributes: its results, or nothing when it threw. *)
Definition found (r : Settled (list WineApiSearchResult) JsError)
  : list WineApiSearchResult :=
  match r with
  | Returned results => results
  | Thrown _ => []
  end.

Lemma slice0_nonneg {A} (n : Z) (l : list A) :
  (0 <= n)%Z -> slice0 n l = take (Z.to_nat n) l.
Proof.
  intros Hn. unfold slice0.
  destruct (n <? 0)%Z eqn:Hneg; [lia|].
  destruct (decide (n <= Z.of_nat (length l))%Z).
  - by rewrite Z.min_l by lia.
  - rewrite Z.min_r, Nat2Z.id by lia. by rewrite !firstn_all2 by lia.
Qed.





(** A search whose Vivino source threw, with a limit of 1, one whose
    sources both returned the same wine, and one with a limit of -1. *)
Example searchWine_examples :
  let options l := {| query := "Merlot"; vintage := None; opt_region := Some "napa";
                      limit := l |} in
  map region (searchWine 2025 (options (Some 1%Z)) (fun _ => Thrown undefined_error))
    = ["Napa Valley, California"]
  /\ map name (searchWine 2025 (options None)
                 (fun _ => Returned (mockResults (options None))))
    = ["Merlot Estate"]
  /\ searchWine 2025 (options (Some (-1)%Z)) (fun _ => Thrown undefined_error) = [].
Proof. by vm_compute. Qed.

(** The cleaning routine of [searchWine]: every result normalized, then
    the duplicates removed. *)
Definition cleaned (currentYear : Z) wines : list WineApiSearchResult :=
  removeDuplicates (map (normalizeWineData currentYear) wines).

(** A wine of vintage 2025 keeps its vintage when cleaned in 2025 and loses
    it when cleaned in 2024. *)
Lemma cleaned_depends_on_current_year :
  let wine := {| name := "Merlot Estate"; vineyard := "Heritage Vineyards";
                 region := "Sonoma County"; color := "Red";
                 grape_varieties := ["Merlot"]; vintage_year := Some 2025%float;
                 rating := None; description := None; price := None;
                 currency := None; food_pairings := None; image_url := None;
                 source := wine_api |} in
  map vintage_year (cleaned 2025 [wine]) = [Some 2025%float]
  /\ map vintage_year (cleaned 2024 [wine]) = [None]
  /\ cleaned 2024 [wine] <> cleaned 2025 [wine].
Proof. by vm_compute. Qed.

(** The year only reaches [normalizeWineData] through [normalizeVintage]. *)
Lemma normalizeWineData_year (year1 year2 : Z) (wine : WineApiSearchResult) :
  normalizeVintage year1 (vintage_year wine) = normalizeVintage year2 (vintage_year wine) ->
  normalizeWineData year1 wine = normalizeWineData year2 wine.
Proof. intros Hv. unfold normalizeWineData. by rewrite Hv. Qed.

Lemma normalizeVintage_year (year1 year2 : Z) (v : option number) :
  (forall y, v = Some y -> (of_Z year1 <? y)%float = (of_Z year2 <? y)%float) ->
  normalizeVintage year1 v = normalizeVintage year2 v.
Proof.
  intros Hy. destruct v as [y|]; [|done]. simpl. by rewrite (Hy y).
Qed.

(** C8, as the code has it. The cleaning routine reads one piece of ambient
    state, the current year of the clock, in [normalizeVintage]. Two
    evaluations on the same input list give equal outputs when they see the
    same year, and more generally when no vintage year of the input is after
    one of the two years and not after the other. *)
Theorem cleaned_deterministic_for_a_year (year1 year2 : Z) wines :
  (forall wine y, wine ∈ wines -> vintage_year wine = Some y ->
     (of_Z year1 <? y)%float = (of_Z year2 <? y)%float) ->
  cleaned year1 wines = cleaned year2 wines.
Proof.
  intros Hyears. unfold cleaned. f_equal.
  apply map_ext_in. intros wine Hin%list_elem_of_In.
  apply normalizeWineData_year, normalizeVintage_year. eauto.
Qed.

(** The same list cleaned twice in 2025, and once more in 2026. *)
Lemma cleaned_deterministic_for_a_year_witness :
  let wine := {| name := "Merlot Estate"; vineyard := "Heritage Vineyards";
                 region := "Sonoma County"; color := "Red";
                 grape_varieties := ["Merlot"]; vintage_year := Some 2019%float;
                 rating := None; description := None; price := None;
                 currency := None; food_pairings := None; image_url := None;
                 source := wine_api |} in
  cleaned 2025 [wine; wine] = cleaned 2025 [wine; wine]
  /\ cleaned 2025 [wine; wine] = cleaned 2026 [wine; wine].
Proof.
  intros wine. split.
  - apply (cleaned_deterministic_for_a_year 2025 2025). reflexivity.
  - apply (cleaned_deterministic_for_a_year 2025 2026).
    intros w y Hin Hy.
    assert (w = wine) as ->.
    { apply list_elem_of_In in Hin. simpl in Hin. intuition. }
    injection Hy as <-. reflexivity.
Defined.

End Search.

(** ** The service instance: rate limit and browser *)

Section ServiceState.
Import JS WineDataNormalizer WineApiService.

Implicit Types (s : Service) (now late : Z).

(** The events of one call that nothing interleaves with. *)
Definition call_events (id : nat) s now late : list Event :=
  match rateLimit_delay s now with
  | Some delay => [Enter id now late; Resume id (now + delay + late)]
  | None => [Enter id now late]
  end.

Lemma rateLimit_delay_positive s now delay :
  rateLimit_delay s now = Some delay -> (0 < delay)%Z.
Proof.
  unfold rateLimit_delay.
  destruct (_ <? _)%Z eqn:Hlt; [|done]. intros [= <-]. lia.
Qed.

(** A call of [rateLimit] with no other call in flight is a run of the
    event loop. *)
Lemma rateLimit_as_events (l : Loop) (id : nat) now late :
  suspended l = [] -> (clock l <= now)%Z -> (0 <= late)%Z ->
  run_events l (call_events id (service l) now late) =
    Some {| service := (rateLimit (service l) now late).1;
            clock := (rateLimit (service l) now late).2;
            suspended := [];
            stamps := stamps l ++ [(rateLimit (service l) now late).2] |}.
Proof.
  intros Hnone Hclock Hlate.
  unfold call_events, rateLimit.
  destruct (rateLimit_delay (service l) now) as [delay|] eqn:Hdelay; simpl;
    unfold wake_time; rewrite Hnone; simpl;
    rewrite !bool_decide_eq_true_2 by done; simpl; rewrite Hdelay; simpl.
  - rewrite Nat.eqb_refl.
    apply rateLimit_delay_positive in Hdelay.
    rewrite !bool_decide_eq_true_2 by lia. simpl.
    rewrite filter_cons_False; [done|]. simpl. by intros [].
  - done.
Qed.

(** Two calls that overlap: both read the time of the last request before
    either records its own, both wait until the same moment, and the two
    requests are recorded 0 ms apart. *)
Lemma overlapping_calls_not_spaced :
  let s := {| requestCount := 5; lastRequestTime := 1000; browser := None;
              launched := 0; closed := [] |} in
  let l := {| service := s; clock := 1500; suspended := []; stamps := [] |} in
  exists l',
    run_events l [Enter 1 1500 0; Enter 2 1600 0; Resume 1 3000; Resume 2 3000]
      = Some l'
    /\ stamps l' = [3000; 3000]%Z
    /\ requestCount (service l') = 7%Z
    /\ ~ spaced (lastRequestTime s) (stamps l').
Proof.
  eexists. split; [by vm_compute|]. simpl.
  split; [done|]. split; [done|]. unfold RATE_LIMIT_DELAY. lia.
Qed.

Lemma rateLimit_spec s now late :
  (0 <= late)%Z ->
  (lastRequestTime s + RATE_LIMIT_DELAY <= lastRequestTime (rateLimit s now late).1)%Z
  /\ lastRequestTime (rateLimit s now late).1 = (rateLimit s now late).2
  /\ requestCount (rateLimit s now late).1 = (requestCount s + 1)%Z.
Proof.
  intros Hlate. unfold rateLimit, rateLimit_delay. simpl.
  destruct (_ <? _)%Z eqn:Hlt; simpl; lia.
Qed.

Lemma rateLimit_calls_cons s (clock idle late : Z) (rest : list (Z * Z)) :
  rateLimit_calls s clock ((idle, late) :: rest) =
    ((rateLimit_calls (rateLimit s (clock + idle) late).1
        (rateLimit s (clock + idle) late).2 rest).1,
     lastRequestTime (rateLimit s (clock + idle) late).1
       :: (rateLimit_calls (rateLimit s (clock + idle) late).1
             (rateLimit s (clock + idle) late).2 rest).2).
Proof.
  cbn [rateLimit_calls].
  destruct (rateLimit s (clock + idle) late) as [s' clock']. cbn [fst snd].
  by destruct (rateLimit_calls s' clock' rest).
Qed.

Lemma rateLimit_calls_spaced (calls : list (Z * Z)) s (clock : Z) :
  Forall (fun call => 0 <= call.2)%Z calls ->
  spaced (lastRequestTime s) (rateLimit_calls s clock calls).2.
Proof.
  intros Hcalls. revert s clock.
  induction Hcalls as [|[idle late] calls Hlate _ IH]; intros s clock; [done|].
  rewrite rateLimit_calls_cons. cbn [snd spaced]. split; [|apply IH].
  by apply rateLimit_spec.
Qed.

Lemma rateLimit_calls_count (calls : list (Z * Z)) s (clock : Z) :
  requestCount (rateLimit_calls s clock calls).1
  = (requestCount s + Z.of_nat (length calls))%Z.
Proof.
  revert s clock. induction calls as [|[idle late] calls IH]; intros s clock.
  - simpl. lia.
  - rewrite rateLimit_calls_cons. cbn [fst]. rewrite IH.
    cbn [length]. unfold rateLimit. simpl. lia.
Qed.

(** What a request leaves in the service when it starts with [rateLimit]. *)
Definition rate_limited s now late (s' : Service) : Prop :=
  lastRequestTime s' = (rateLimit s now late).2
  /\ requestCount s' = (requestCount s + 1)%Z.

(** C7, as the code has it. Each of the four request operations starts with
    [rateLimit]. A call of [rateLimit] that no other call overlaps with
    records a time at least [RATE_LIMIT_DELAY] = 2000 ms after the time
    recorded before it, provided the clock does not run backwards and no
    timer fires early; the delay it waits is computed from the stored time
    of the last request and the clock only; and it adds exactly one to
    [requestCount]. So the times recorded by calls made one after the other
    are 2000 ms apart at least, and the count grows by the number of calls. *)
Theorem rateLimit_spaces_sequential_requests s now late :
  (0 <= late)%Z ->
  ((lastRequestTime s + RATE_LIMIT_DELAY <= lastRequestTime (rateLimit s now late).1)%Z
   /\ lastRequestTime (rateLimit s now late).1 = (rateLimit s now late).2
   /\ requestCount (rateLimit s now late).1 = (requestCount s + 1)%Z)
  /\ (forall s2, lastRequestTime s2 = lastRequestTime s ->
        rateLimit_delay s2 now = rateLimit_delay s now)
  /\ (forall options launch scraped,
        rate_limited s now late (performVivinoSearch options s now late launch scraped).2)
  /\ (forall options, rate_limited s now late (searchWineApi options s now late).2)
  /\ (forall id source, rate_limited s now late (getWineDetails id source s now late).2)
  /\ (forall color grapes, rate_limited s now late (suggestFoodPairings color grapes s now late).2)
  /\ (forall clock calls,
        Forall (fun call => 0 <= call.2)%Z calls ->
        spaced (lastRequestTime s) (rateLimit_calls s clock calls).2
        /\ requestCount (rateLimit_calls s clock calls).1
           = (requestCount s + Z.of_nat (length calls))%Z).
Proof.
  intros Hlate. split; [by apply rateLimit_spec|].
  split. { intros s2 Hsame. unfold rateLimit_delay. by rewrite Hsame. }
  split.
  { intros options launch scraped.
    unfold rate_limited, performVivinoSearch, rateLimit, getBrowser.
    simpl. destruct (browser s), launch; simpl; done. }
  split. { intros options. by unfold rate_limited, searchWineApi, rateLimit. }
  split. { intros id source. by unfold rate_limited, getWineDetails, rateLimit. }
  split. { intros color grapes. by unfold rate_limited, suggestFoodPairings, rateLimit. }
  intros clock calls Hcalls. split.
  - by apply rateLimit_calls_spaced.
  - apply rateLimit_calls_count.
Qed.

(** A request 500 ms after the last one waits 1500 ms and is recorded at
    3000; one made 5 s after is recorded as it comes. *)
Lemma rateLimit_spaces_sequential_requests_witness :
  let s := {| requestCount := 5; lastRequestTime := 1000; browser := None;
              launched := 0; closed := [] |} in
  rateLimit_delay s 1500 = Some 1500%Z
  /\ (lastRequestTime s + RATE_LIMIT_DELAY <= lastRequestTime (rateLimit s 1500 0).1)%Z
  /\ (rateLimit_calls s 1500 [(0, 0); (100, 3); (5000, 0)]%Z).2 = [3000; 5003; 10003]%Z.
Proof.
  intros s. split; [reflexivity|]. split; [|reflexivity].
  apply (rateLimit_spaces_sequential_requests s 1500 0). lia.
Defined.

(** The stored browser, if any, is one that was launched. *)
Definition browser_launched s : Prop :=
  match browser s with
  | Some b => b < launched s
  | None => True
  end.

Lemma browser_launched_initial : browser_launched initial.
Proof. exact I. Qed.

Lemma browser_launched_getBrowser launch s :
  browser_launched s -> browser_launched (getBrowser launch s).2.
Proof.
  unfold browser_launched, getBrowser.
  destruct (browser s) as [b|] eqn:Hb; simpl; [by rewrite Hb|].
  destruct launch; simpl; lia.
Qed.

Lemma browser_launched_closeBrowser close s :
  browser_launched s -> browser_launched (closeBrowser close s).2.
Proof.
  unfold browser_launched, closeBrowser.
  destruct (browser s) as [b|] eqn:Hb; simpl; [|by rewrite Hb].
  by destruct close.
Qed.

Lemma browser_launched_rateLimit s now late :
  browser_launched s -> browser_launched (rateLimit s now late).1.
Proof. done. Qed.



End ServiceState.

(** ** The cellar *)

Section CellarFacts.
Import JS Cellar.

Implicit Types (db : Database) (id : string) (now schemaYear : Z).





Lemma clearSlotByWineId_wines id now db :
  wines (RackSlotModel.clearSlotByWineId id now db).2 = wines db.
Proof. done. Qed.


(** A cleared row has [wine_id] null and [is_occupied] false. *)
Lemma clear_spec now slot :
  wine_id (RackSlotModel.clear now slot) = None
  /\ is_occupied (RackSlotModel.clear now slot) = false
  /\ slot_id (RackSlotModel.clear now slot) = slot_id slot.
Proof. done. Qed.

Lemma update_row_rack_slots id columns schemaYear db :
  rack_slots (WineModel.update_row id columns schemaYear db).2 = rack_slots db.
Proof.
  unfold WineModel.update_row. destruct (wines db !! id); [|done].
  by destruct (wines_check _ _).
Qed.

(** When [update_row] returns, the row under [id] is the rewritten one. *)
Lemma update_row_returned id columns schemaYear db r db' :
  WineModel.update_row id columns schemaYear db = (Returned r, db') ->
  wines db' !! id = columns <$> wines db !! id
  /\ (forall other, other <> id -> wines db' !! other = wines db !! other).
Proof.
  unfold WineModel.update_row. destruct (wines db !! id) as [w|] eqn:Hw.
  - destruct (wines_check _ _); [|done]. intros [= _ <-]. simpl. split.
    + by rewrite lookup_insert_eq.
    + intros other Hother. by rewrite lookup_insert_ne.
  - intros [= _ <-]. by rewrite Hw.
Qed.

(** When [update_row] throws, nothing was written. *)
Lemma update_row_thrown id columns schemaYear db db' :
  WineModel.update_row id columns schemaYear db = (Thrown, db') -> db' = db.
Proof.
  unfold WineModel.update_row. destruct (wines db !! id) as [w|]; [|done].
  destruct (wines_check _ _); [done|]. by intros [= <-].
Qed.





(** A cellar with one wine in slot A1. *)
Definition one_wine_cellar : Database :=
  {| wines :=
       {[ "w1" := {| id := "w1"; name := "Merlot"; vineyard := "Heritage Vineyards";
                     region := "Napa"; color := "Red"; grape_varieties := ["Merlot"];
                     price := None; currency := Some "USD";
                     vintage_year := Some 2019%float; date_added := 0;
                     rack_slot := Some "A1"; consumption_status := "Available";
                     date_consumed := None; description := None;
                     personal_notes := None; rating := Some 92%float;
                     food_pairings := None; created_at := 0; updated_at := 0 |} ]};
     rack_slots :=
       {[ "A1" := {| slot_id := "A1"; wine_id := Some "w1"; rack_number := 1;
                     row := "A"; position := 1; x_coordinate := 10;
                     y_coordinate := 10; width := 20; height := 80;
                     is_occupied := true; last_updated := 0;
                     slot_created_at := 0; slot_updated_at := 0 |} ]} |}.


End CellarFacts.

(** ** Validation of the wine routes *)

Section Validation.
Import JS Cellar.

Implicit Types (body : Body) (db : Database) (id uuid : string)
  (currentYear schemaYear now : Z).

(** A number within [lo, hi]. *)
Definition within (lo hi v : number) : bool := ((lo <=? v) && (v <=? hi))%float.

Lemma invalid_vintage_year_spec currentYear body :
  invalid_vintage_year currentYear body = true <->
    exists v, b_vintage_year body = Some v /\ truthy v = true
              /\ ((v <? 1800)%float = true \/ (of_Z currentYear <? v)%float = true).
Proof.
  unfold invalid_vintage_year. destruct (b_vintage_year body) as [v|].
  - rewrite andb_true_iff, orb_true_iff. split.
    + intros [? ?]. by exists v.
    + by intros (? & [= <-] & ? & ?).
  - split; [done|]. by intros (? & ? & _).
Qed.

Lemma invalid_rating_spec body :
  invalid_rating body = true <->
    exists r, b_rating body = Some r /\ truthy r = true
              /\ ((r <? 1)%float = true \/ (100 <? r)%float = true).
Proof.
  unfold invalid_rating. destruct (b_rating body) as [r|].
  - rewrite andb_true_iff, orb_true_iff. split.
    + intros [? ?]. by exists r.
    + by intros (? & [= <-] & ? & ?).
  - split; [done|]. by intros (? & ? & _).
Qed.

(** A year within [1800, current year] passes the check of the year, and
    a rating within [1, 100] that of the rating. *)
Lemma within_not_invalid currentYear body :
  (forall v, b_vintage_year body = Some v ->
     within 1800%float (of_Z currentYear) v = true ->
     invalid_vintage_year currentYear body = false)
  /\ (forall r, b_rating body = Some r ->
        within 1%float 100%float r = true ->
        invalid_rating body = false).
Proof.
  unfold within, invalid_vintage_year, invalid_rating. split.
  - intros v -> [Hlo Hhi]%andb_prop.
    by rewrite (leb_not_ltb _ _ Hlo), (leb_not_ltb _ _ Hhi), andb_false_r.
  - intros r -> [Hlo Hhi]%andb_prop.
    by rewrite (leb_not_ltb _ _ Hlo), (leb_not_ltb _ _ Hhi), andb_false_r.
Qed.

(** The requests that POST /api/wines turns down before it reaches the table. *)
Definition post_missing_fields body : bool :=
  negb (present (b_name body)) || negb (present (b_vineyard body))
  || negb (present (b_region body)) || negb (present (b_color body))
  || negb (bool_decide (is_Some (b_grape_varieties body))).

Definition post_invalid_color body : bool :=
  negb (includes_str validColors (default "" (b_color body))).

Lemma post_wine_400 body uuid currentYear schemaYear now db :
  status (post_wine body uuid currentYear schemaYear now db).1 = 400%Z <->
    post_missing_fields body = true \/ post_invalid_color body = true
    \/ invalid_vintage_year currentYear body = true \/ invalid_rating body = true.
Proof.
  unfold post_wine, post_missing_fields, post_invalid_color.
  destruct (_ || negb (bool_decide _)) eqn:Hmissing; [simpl; tauto|].
  destruct (negb (includes_str _ _)) eqn:Hcolor; [simpl; tauto|].
  destruct (invalid_vintage_year _ _) eqn:Hyear; [simpl; tauto|].
  destruct (invalid_rating _) eqn:Hrating; [simpl; tauto|].
  destruct (WineModel.create _ _ _ _ _) as [[w|] db']; simpl;
    (split; [done|]); by intros [|[|[|]]].
Qed.

Lemma post_wine_rejected body uuid currentYear schemaYear now db :
  status (post_wine body uuid currentYear schemaYear now db).1 = 400%Z ->
  (post_wine body uuid currentYear schemaYear now db).2 = db.
Proof.
  unfold post_wine.
  repeat (match goal with |- context [if ?c then _ else _] => destruct c end; [done|]).
  by destruct (WineModel.create _ _ _ _ _) as [[w|] db'].
Qed.

Lemma put_wine_invalid id body currentYear schemaYear now db :
  is_Some (wines db !! id) ->
  invalid_vintage_year currentYear body = true \/ invalid_rating body = true ->
  status (put_wine id body currentYear schemaYear now db).1 = 400%Z
  /\ (put_wine id body currentYear schemaYear now db).2 = db.
Proof.
  intros [w Hw] Hinvalid. unfold put_wine, WineModel.findById. rewrite Hw.
  destruct (present (b_color body) && _); [done|].
  destruct (invalid_vintage_year _ _); [done|].
  destruct (invalid_rating _); [done|]. by destruct Hinvalid.
Qed.

Lemma put_wine_unknown id body currentYear schemaYear now db :
  wines db !! id = None ->
  status (put_wine id body currentYear schemaYear now db).1 = 404%Z
  /\ (put_wine id body currentYear schemaYear now db).2 = db.
Proof. intros Hnone. unfold put_wine, WineModel.findById. by rewrite Hnone. Qed.

(** A request to create a wine with the year 0, and one to update a wine
    that is not stored with the year 1700. *)
Definition merlot (year : option number) : Body :=
  {| b_name := Some "Merlot"; b_vineyard := Some "Heritage Vineyards";
     b_region := Some "Napa"; b_color := Some "Red";
     b_grape_varieties := Some ["Merlot"]; b_price := None; b_currency := None;
     b_vintage_year := year; b_rack_slot := None; b_consumption_status := None;
     b_date_consumed := None; b_description := None; b_personal_notes := None;
     b_rating := None; b_food_pairings := None; b_consumed_date := None |}.

Definition empty_cellar : Database := {| wines := ∅; rack_slots := ∅ |}.

(** The year 0 is outside [1800, 2025], yet the POST answers 201 and stores
    the wine; the year 1700 sent for a wine that is not stored is answered
    with 404, not 400. *)
Lemma year_0_created_and_unknown_wine_404 :
  within 1800%float (of_Z 2025) 0%float = false
  /\ status (post_wine (merlot (Some 0%float)) "w1" 2025 2025 0 empty_cellar).1 = 201%Z
  /\ is_Some (wines (post_wine (merlot (Some 0%float)) "w1" 2025 2025 0 empty_cellar).2 !! "w1")
  /\ (post_wine (merlot (Some 0%float)) "w1" 2025 2025 0 empty_cellar).2 <> empty_cellar
  /\ within 1800%float (of_Z 2025) 1700%float = false
  /\ status (put_wine "w1" (merlot (Some 1700%float)) 2025 2025 0 empty_cellar).1 = 404%Z.
Proof.
  split; [by vm_compute|]. split; [by vm_compute|].
  assert (is_Some (wines (post_wine (merlot (Some 0%float)) "w1" 2025 2025 0 empty_cellar).2
                     !! "w1")) as Hstored.
  { vm_compute. eauto. }
  split; [done|]. split; [|by vm_compute].
  intros Heq. rewrite Heq in Hstored. by destruct Hstored.
Qed.

(** C5, as the code has it. POST /api/wines answers 400 and leaves the tables
    as they are whenever the body holds a year that is not 0 and is below
    1800 or above the current year, or a rating that is not 0 and is below 1
    or above 100; so does PUT /api/wines/:id when the wine is stored (it
    answers 404 when it is not). A year within [1800, current year] and a
    rating within [1, 100] pass both checks: the POST then answers 400 only
    for a missing field or an unknown colour. *)
Theorem invalid_year_or_rating_rejected body currentYear schemaYear now db :
  (invalid_vintage_year currentYear body = true <->
     exists v, b_vintage_year body = Some v /\ truthy v = true
               /\ ((v <? 1800)%float = true \/ (of_Z currentYear <? v)%float = true))
  /\ (invalid_rating body = true <->
        exists r, b_rating body = Some r /\ truthy r = true
                  /\ ((r <? 1)%float = true \/ (100 <? r)%float = true))
  /\ (forall uuid,
        invalid_vintage_year currentYear body = true \/ invalid_rating body = true ->
        status (post_wine body uuid currentYear schemaYear now db).1 = 400%Z
        /\ (post_wine body uuid currentYear schemaYear now db).2 = db)
  /\ (forall id,
        is_Some (wines db !! id) ->
        invalid_vintage_year currentYear body = true \/ invalid_rating body = true ->
        status (put_wine id body currentYear schemaYear now db).1 = 400%Z
        /\ (put_wine id body currentYear schemaYear now db).2 = db)
  /\ (forall id,
        wines db !! id = None ->
        status (put_wine id body currentYear schemaYear now db).1 = 404%Z
        /\ (put_wine id body currentYear schemaYear now db).2 = db)
  /\ (forall v, b_vintage_year body = Some v ->
        within 1800%float (of_Z currentYear) v = true ->
        invalid_vintage_year currentYear body = false)
  /\ (forall r, b_rating body = Some r ->
        within 1%float 100%float r = true ->
        invalid_rating body = false)
  /\ (forall uuid,
        invalid_vintage_year currentYear body = false ->
        invalid_rating body = false ->
        status (post_wine body uuid currentYear schemaYear now db).1 = 400%Z ->
        post_missing_fields body = true \/ post_invalid_color body = true).
Proof.
  split; [apply invalid_vintage_year_spec|].
  split; [apply invalid_rating_spec|].
  split.
  { intros uuid Hinvalid.
    assert (status (post_wine body uuid currentYear schemaYear now db).1 = 400%Z) as H400.
    { apply post_wine_400. tauto. }
    split; [done|]. by apply post_wine_rejected. }
  split; [intros id; apply put_wine_invalid|].
  split; [intros id; apply put_wine_unknown|].
  split; [apply within_not_invalid|].
  split; [apply (within_not_invalid currentYear)|].
  intros uuid Hyear Hrating H400%post_wine_400.
  destruct H400 as [|[|[|]]]; [by left|by right|congruence|congruence].
Qed.

(** The year 1700 and the rating 101 are turned down, by the POST and by the
    PUT of a stored wine; the year 2019 with the rating 92 is stored. *)
Lemma invalid_year_or_rating_rejected_witness :
  let stored := (post_wine (merlot (Some 2019%float)) "w1" 2025 2025 0 empty_cellar).2 in
  status (post_wine (merlot (Some 1700%float)) "w2" 2025 2025 1 stored).1 = 400%Z
  /\ (post_wine (merlot (Some 1700%float)) "w2" 2025 2025 1 stored).2 = stored
  /\ status (put_wine "w1" (merlot (Some 2031%float)) 2025 2025 1 stored).1 = 400%Z
  /\ (put_wine "w1" (merlot (Some 2031%float)) 2025 2025 1 stored).2 = stored
  /\ invalid_vintage_year 2025 (merlot (Some 2019%float)) = false.
Proof.
  intros stored.
  destruct (invalid_year_or_rating_rejected (merlot (Some 1700%float)) 2025 2025 1 stored)
    as (_ & _ & Hpost & _).
  destruct (invalid_year_or_rating_rejected (merlot (Some 2031%float)) 2025 2025 1 stored)
    as (_ & _ & _ & Hput & _).
  destruct (invalid_year_or_rating_rejected (merlot (Some 2019%float)) 2025 2025 1 stored)
    as (_ & _ & _ & _ & _ & Hin & _).
  destruct (Hpost "w2") as [? ?]; [left; by vm_compute|].
  destruct (Hput "w1") as [? ?]; [vm_compute; eauto|left; by vm_compute|].
  do 4 (split; [done|]).
  apply (Hin 2019%float); by vm_compute.
Defined.

End Validation.

(** ** [stringSimilarity] is Jaro-Winkler similarity *)

Section JaroWinklerRefinement.
Import JS WineDataNormalizer JaroWinkler.

Implicit Types (rest : list ascii) (used flags : list bool).

(** The first element of [seq a n] that meets [P]. *)
Lemma find_seq_Some (P : nat -> bool) (a n j : nat) :
  find P (seq a n) = Some j <->
    a <= j < a + n /\ P j = true /\ forall k, a <= k < j -> P k = false.
Proof.
  revert a. induction n as [|n IH]; intros a; simpl.
  - split; [done|]. lia.
  - destruct (P a) eqn:Ha.
    + split.
      * intros [= <-]. split; [lia|]. split; [done|]. intros k Hk. lia.
      * intros (Hj & HP & Hleast). destruct (decide (a = j)) as [->|Hne]; [done|].
        rewrite Hleast in Ha by lia. done.
    + rewrite IH. split.
      * intros (Hj & HP & Hleast). split; [lia|]. split; [done|].
        intros k Hk. destruct (decide (k = a)) as [->|]; [done|]. apply Hleast. lia.
      * intros (Hj & HP & Hleast).
        assert (a <> j) by congruence.
        split; [lia|]. split; [done|]. intros k Hk. apply Hleast. lia.
Qed.

Lemma find_seq_None (P : nat -> bool) (a n : nat) :
  find P (seq a n) = None <-> forall k, a <= k < a + n -> P k = false.
Proof.
  revert a. induction n as [|n IH]; intros a; simpl.
  - split; [lia|done].
  - destruct (P a) eqn:Ha.
    + split; [done|]. intros Hall. rewrite Hall in Ha by lia. done.
    + rewrite IH. split.
      * intros Hall k Hk. destruct (decide (k = a)) as [->|]; [done|]. apply Hall. lia.
      * intros Hall k Hk. apply Hall. lia.
Qed.

(** Two searches of the least index that meets a predicate agree when the
    predicates agree where both look and fail where only one looks. *)
Lemma find_seq_window (P Q : nat -> bool) (a n len : nat) :
  a + n <= len ->
  (forall k, a <= k < a + n -> P k = Q k) ->
  (forall k, k < len -> ~ (a <= k < a + n) -> Q k = false) ->
  find P (seq a n) = find Q (seq 0 len).
Proof.
  intros Hlen Hin Hout.
  destruct (find P (seq a n)) as [j|] eqn:HP; symmetry.
  - apply find_seq_Some in HP as (Hj & HPj & Hleast).
    apply find_seq_Some. split; [lia|]. split.
    + by rewrite <- Hin.
    + intros k Hk. destruct (decide (a <= k)).
      * rewrite <- Hin by lia. apply Hleast. lia.
      * apply Hout; lia.
  - apply find_seq_None. intros k Hk.
    destruct (decide (a <= k < a + n)).
    + rewrite <- Hin by done. eapply find_seq_None in HP; [done|lia].
    + apply Hout; lia.
Qed.

(** The inner loop is a search of the least index of its range that is
    free and holds the character. *)
Lemma find_match_find c (s2 : list ascii) used j n :
  find_match c s2 used j n =
    find (fun j => negb (flag used j || negb (bool_decide (c = s2 !! j)))) (seq j n).
Proof.
  revert j. induction n as [|n IH]; intros j; simpl; [done|].
  rewrite IH. by destruct (flag used j || _).
Qed.

(** With the bounds of the outer loop, that is the partner of the definition. *)
Lemma find_match_partner (w i : nat) (c : ascii) (s2 : list ascii) used :
  find_match (Some c) s2 used (Nat.max 0 (i - w))
    (Nat.min (i + w + 1) (length s2) - Nat.max 0 (i - w))
  = partner (Z.of_nat w) s2 used i c.
Proof.
  rewrite find_match_find. unfold partner.
  destruct (decide (Nat.max 0 (i - w) <= Nat.min (i + w + 1) (length s2))) as [Hle|Hgt].
  - apply find_seq_window.
    + lia.
    + intros k Hk. unfold in_window.
      replace (Z.abs (Z.of_nat i - Z.of_nat k) <=? Z.of_nat w)%Z with true
        by (symmetry; apply Z.leb_le; lia).
      simpl. change (taken used k) with (flag used k).
      destruct (flag used k); simpl; [done|].
      rewrite negb_involutive. apply bool_decide_ext. split; congruence.
    + intros k Hk Hout. unfold in_window.
      replace (Z.abs (Z.of_nat i - Z.of_nat k) <=? Z.of_nat w)%Z with false; [done|].
      symmetry. apply Z.leb_gt. lia.
  - replace (Nat.min (i + w + 1) (length s2) - Nat.max 0 (i - w)) with 0 by lia.
    simpl. symmetry. apply find_seq_None. intros k Hk. unfold in_window.
    replace (Z.abs (Z.of_nat i - Z.of_nat k) <=? Z.of_nat w)%Z with false; [done|].
    symmetry. apply Z.leb_gt. lia.
Qed.

Fixpoint count_true flags : nat :=
  match flags with
  | [] => 0
  | true :: flags' => S (count_true flags')
  | false :: flags' => count_true flags'
  end.

Lemma matched_length (s : list ascii) flags :
  length s = length flags -> length (matched s flags) = count_true flags.
Proof.
  revert flags. induction s as [|c s IH]; intros [|[] flags] Hlen; simpl in *;
    try done; rewrite IH; auto.
Qed.

Lemma count_true_insert used j :
  used !! j = Some false -> count_true (<[j:=true]> used) = S (count_true used).
Proof.
  revert j. induction used as [|u used IH]; intros [|j] Hj; simpl in *; try done.
  - by injection Hj as ->.
  - rewrite (IH j Hj). by destruct u.
Qed.

Lemma count_true_replicate n : count_true (replicate n false) = 0.
Proof. induction n; simpl; auto. Qed.

Lemma partner_Some d (b : list ascii) used i c j :
  partner d b used i c = Some j ->
  j < length b /\ taken used j = false /\ b !! j = Some c.
Proof.
  unfold partner. intros (Hj & HP & _)%find_seq_Some.
  apply andb_prop in HP as [[_ Hfree]%andb_prop Hc%bool_decide_eq_true].
  split; [lia|]. split; [by apply negb_true_iff|done].
Qed.

Lemma matching_cons d (b : list ascii) used i c rest :
  matching d b used i (c :: rest) =
    match partner d b used i c with
    | Some j => (true :: (matching d b (<[j:=true]> used) (S i) rest).1,
                 (matching d b (<[j:=true]> used) (S i) rest).2)
    | None => (false :: (matching d b used (S i) rest).1,
               (matching d b used (S i) rest).2)
    end.
Proof.
  simpl. destruct (partner d b used i c) as [j|].
  - by destruct (matching d b (<[j:=true]> used) (S i) rest).
  - by destruct (matching d b used (S i) rest).
Qed.

Lemma matching_lengths d (b : list ascii) used i rest :
  length (matching d b used i rest).1 = length rest
  /\ length (matching d b used i rest).2 = length used.
Proof.
  revert used i. induction rest as [|c rest IH]; intros used i; [done|].
  rewrite matching_cons. destruct (partner d b used i c) as [j|]; simpl.
  - destruct (IH (<[j:=true]> used) (S i)) as [-> ->]. by rewrite length_insert.
  - by destruct (IH used (S i)) as [-> ->].
Qed.

(** Every match takes one more position of [b]. *)
Lemma matching_count d (b : list ascii) used i rest :
  length used = length b ->
  count_true (matching d b used i rest).2
  = count_true used + count_true (matching d b used i rest).1.
Proof.
  revert used i. induction rest as [|c rest IH]; intros used i Hlen; [simpl; lia|].
  rewrite matching_cons. destruct (partner d b used i c) as [j|] eqn:Hj; simpl.
  - apply partner_Some in Hj as (Hlt & Hfree & _).
    rewrite IH by (by rewrite length_insert).
    rewrite count_true_insert; [lia|].
    unfold taken in Hfree. destruct (used !! j) as [u|] eqn:Hu.
    + by subst.
    + apply lookup_ge_None in Hu. lia.
  - by apply IH.
Qed.


(** The first loop of [stringSimilarity] computes the matching. *)
Lemma match_loop_matching (s1 s2 : list ascii) (w : nat) rest i done used cnt :
  length done = i -> drop i s1 = rest ->
  match_loop s1 s2 w i (length rest)
    {| s1Matches := done ++ replicate (length rest) false;
       s2Matches := used; matches := cnt |}
  = {| s1Matches := done ++ (matching (Z.of_nat w) s2 used i rest).1;
       s2Matches := (matching (Z.of_nat w) s2 used i rest).2;
       matches := cnt + count_true (matching (Z.of_nat w) s2 used i rest).1 |}.
Proof.
  revert i done used cnt.
  induction rest as [|c rest IH]; intros i done used cnt Hdone Hdrop.
  - simpl. by rewrite Nat.add_0_r.
  - assert (s1 !! i = Some c) as Hc.
    { rewrite <- (Nat.add_0_r i), <- lookup_drop, Hdrop. done. }
    assert (drop (S i) s1 = rest) as Hrest.
    { replace (S i) with (i + 1) by lia. by rewrite <- drop_drop, Hdrop. }
    cbn [match_loop length replicate s2Matches s1Matches matches].
    rewrite Hc, find_match_partner, matching_cons.
    destruct (partner (Z.of_nat w) s2 used i c) as [j|]; cbn [fst snd count_true].
    + rewrite insert_app_r_alt by lia.
      replace (i - length done) with 0 by lia.
      replace (done ++ <[0:=true]> (false :: replicate (length rest) false))
        with ((done ++ [true]) ++ replicate (length rest) false)
        by (by rewrite <- app_assoc).
      rewrite IH by (rewrite ?length_app; simpl; lia || done).
      rewrite <- app_assoc. f_equal. lia.
    + replace (done ++ false :: replicate (length rest) false)
        with ((done ++ [false]) ++ replicate (length rest) false)
        by (by rewrite <- app_assoc).
      rewrite IH by (rewrite ?length_app; simpl; lia || done).
      by rewrite <- app_assoc.
Qed.

(** Where the [while] loop stops: at the next matched character of the
    second string, which exists as long as one is left. *)
Lemma next_match_matched (r : list ascii) f k :
  length r = length f -> matched r f <> [] ->
  exists p y,
    next_match f k = Some (k + p) /\ r !! p = Some y
    /\ matched r f = y :: matched (drop (S p) r) (drop (S p) f).
Proof.
  revert r k. induction f as [|[] f IH]; intros [|x r] k Hlen Hsome; simpl in *; try done.
  - exists 0, x. by rewrite Nat.add_0_r.
  - destruct (IH r (S k)) as (p & y & Hnext & Hy & Hmatched); [lia|done|].
    exists (S p), y. rewrite Hnext. split; [f_equal; lia|done].
Qed.

(** The second loop of [stringSimilarity] counts the matched characters that
    differ, and its [while] loop is always left. *)
Lemma transposition_loop_differing (s1 s2 : list ascii) (m1 m2 : list bool) n i k t :
  length s1 = length m1 -> length s2 = length m2 ->
  n = length s1 - i ->
  length (matched (drop i s1) (drop i m1)) <= length (matched (drop k s2) (drop k m2)) ->
  transposition_loop s1 s2 m1 m2 i n k t =
    Some (t + differing (matched (drop i s1) (drop i m1))
                        (matched (drop k s2) (drop k m2))).
Proof.
  intros Hlen1 Hlen2. revert i k t.
  induction n as [|n IH]; intros i k t Hn Hle.
  - rewrite (drop_ge s1) by lia. simpl. by rewrite Nat.add_0_r.
  - destruct (lookup_lt_is_Some_2 s1 i) as [c Hc]; [lia|].
    destruct (lookup_lt_is_Some_2 m1 i) as [f Hf]; [lia|].
    rewrite (drop_S s1 c i Hc), (drop_S m1 f i Hf) in Hle |- *.
    cbn [transposition_loop]. unfold flag at 1. rewrite Hf.
    destruct f; cbn [negb matched] in Hle |- *.
    + destruct (next_match_matched (drop k s2) (drop k m2) k) as (p & y & Hnext & Hy & Hmatched).
      { by rewrite !length_drop, Hlen2. }
      { intros Hnil. rewrite Hnil in Hle. simpl in Hle. lia. }
      rewrite Hnext, Hmatched in *. rewrite !drop_drop in *.
      rewrite lookup_drop in Hy.
      replace (k + S p) with (S (k + p)) in * by lia.
      rewrite IH; [|lia|simpl in Hle; lia].
      rewrite Hc, Hy. cbn [differing]. f_equal.
      repeat case_bool_decide; simplify_eq; lia.
    + by apply IH; [lia|].
Qed.



(** The [while] loop of [stringSimilarity] is always left: after the first
    loop as many characters are marked in the second string as in the first. *)
Lemma transpositions_defined (a b : list ascii) (w : nat) :
  is_Some
    (transpositions_of a b
       (match_loop a b w 0 (length a)
          {| s1Matches := replicate (length a) false;
             s2Matches := replicate (length b) false;
             matches := 0 |})).
Proof.
  pose proof (match_loop_matching a b w a 0 [] (replicate (length b) false) 0
                eq_refl eq_refl) as Hloop.
  cbn [app Nat.add] in Hloop. rewrite Hloop. unfold transpositions_of.
  cbn [s1Matches s2Matches].
  pose proof (matching_lengths (Z.of_nat w) b (replicate (length b) false) 0 a)
    as [Hlen_a Hlen_b].
  pose proof (matching_count (Z.of_nat w) b (replicate (length b) false) 0 a) as Hcount.
  rewrite length_replicate in Hlen_b.
  rewrite length_replicate, count_true_replicate in Hcount.
  specialize (Hcount eq_refl).
  rewrite (transposition_loop_differing a b _ _ (length a) 0 0 0); [done|done|done|lia|].
  rewrite !drop_0, !matched_length by done. lia.
Qed.






(** The same wine from two sources, then with another vintage year: with
    everything else equal the score is exactly 0.8 and does not exceed it. *)
Example calculateSimilarity_examples :
  let wine (n v r : string) (y : option number) :=
    {| name := n; vineyard := v; region := r; color := "Red"; grape_varieties := [];
       vintage_year := y; rating := None; description := None; price := None;
       currency := None; food_pairings := None; image_url := None; source := manual |} in
  calculateSimilarity (wine "Opus One" "Opus One Winery" "Napa" (Some 2019%float))
                      (wine "opus one " "Opus One Winery" "Napa" (Some 2019%float)) = 1%float
  /\ isDuplicate (wine "Opus One" "Opus One" "Napa" (Some 2019%float))
                 (wine "Opus One" "Opus One" "Napa" (Some 2018%float)) = false
  /\ isDuplicate (wine "Opus One" "Opus One" "Napa" None)
                 (wine "Opus Onee" "Opus One" "Napa" (Some 2018%float)) = true
  /\ stringSimilarity "MARTHA" "marhta" = 0.96111111111111114%float
  /\ stringSimilarity "Dixon" "Dicksonx" = 0.81333333333333324%float.
Proof. by vm_compute. Qed.

End JaroWinklerRefinement.

(** * Further properties *)

(** ** Strings *)

Section Strings.
Import JS.

Implicit Types (s : string) (l : list ascii) (c : ascii).

Lemma chars_str l : chars (str l) = l.
Proof. apply list_ascii_of_string_of_list_ascii. Qed.

Lemma str_chars s : str (chars s) = s.
Proof. apply string_of_list_ascii_of_string. Qed.

Lemma chars_nil s : chars s = [] -> s = "".
Proof. intros H. by rewrite <- (str_chars s), H. Qed.

Lemma chars_app s t : chars (s +:+ t) = chars s ++ chars t.
Proof. induction s as [|c s IH]; simpl; [done|]. by rewrite <- IH. Qed.


Lemma nonempty_chars s : WineDataNormalizer.nonempty s = true <-> chars s <> [].
Proof.
  unfold WineDataNormalizer.nonempty. destruct s; simpl; split; try done.
Qed.

(** *** trim *)

Lemma trimStart_head l :
  match trimStart_chars l with
  | c :: _ => is_space c = false
  | [] => True
  end.
Proof.
  induction l as [|c l IH]; simpl; [done|].
  destruct (is_space c) eqn:Hc; [done|]. by rewrite Hc.
Qed.

Lemma trimStart_fixed l :
  match l with c :: _ => is_space c = false | [] => True end ->
  trimStart_chars l = l.
Proof. destruct l as [|c l]; simpl; [done|]. by intros ->. Qed.

Lemma trimStart_idem l : trimStart_chars (trimStart_chars l) = trimStart_chars l.
Proof. apply trimStart_fixed, trimStart_head. Qed.

Lemma trimEnd_idem l : trimEnd_chars (trimEnd_chars l) = trimEnd_chars l.
Proof. unfold trimEnd_chars. by rewrite rev_involutive, trimStart_idem. Qed.

(** Trimming the end keeps the head. *)
Lemma trimStart_snoc l c :
  is_space c = false -> trimStart_chars (l ++ [c]) = trimStart_chars l ++ [c].
Proof.
  intros Hc. induction l as [|c' l IH]; simpl; [by rewrite Hc|].
  by destruct (is_space c').
Qed.


Lemma trimStart_cases l :
  (trimStart_chars l = [] /\ forallb is_space l = true)
  \/ (exists c r pre, trimStart_chars l = c :: r /\ is_space c = false
                      /\ l = pre ++ c :: r /\ forallb is_space pre = true).
Proof.
  induction l as [|c l IH]; simpl; [by left|].
  destruct (is_space c) eqn:Hc.
  - destruct IH as [[-> Hl]|(c' & r & pre & -> & Hc' & -> & Hpre)]; [by left|].
    right. exists c', r, (c :: pre). simpl. by rewrite Hc, Hpre.
  - right. by exists c, l, [].
Qed.

Lemma trimEnd_cons c l :
  is_space c = false -> trimEnd_chars (c :: l) = c :: trimEnd_chars l.
Proof.
  intros Hc. unfold trimEnd_chars. simpl.
  by rewrite trimStart_snoc, rev_app_distr.
Qed.

(** After [trim] no white space is left at either end. *)
Lemma trimEnd_trimStart_head l :
  match trimEnd_chars (trimStart_chars l) with
  | c :: _ => is_space c = false
  | [] => True
  end.
Proof.
  pose proof (trimStart_head l) as H.
  destruct (trimStart_chars l) as [|c r]; [done|].
  by rewrite trimEnd_cons.
Qed.

Lemma trimEnd_last l :
  match last (trimEnd_chars l) with
  | Some c => is_space c = false
  | None => True
  end.
Proof.
  unfold trimEnd_chars. pose proof (trimStart_head (rev l)) as H.
  destruct (trimStart_chars (rev l)) as [|c r]; simpl; [done|].
  by rewrite last_snoc.
Qed.

Lemma trimEnd_fixed l :
  match last l with Some c => is_space c = false | None => True end ->
  trimEnd_chars l = l.
Proof.
  intros H. unfold trimEnd_chars.
  rewrite trimStart_fixed; [apply rev_involutive|].
  destruct l as [|c l] using rev_ind; [done|].
  rewrite last_snoc in H. by rewrite rev_app_distr.
Qed.

Definition tidy_ends l : Prop :=
  match l with c :: _ => is_space c = false | [] => True end
  /\ match last l with Some c => is_space c = false | None => True end.

Lemma trim_tidy_ends l : tidy_ends (trimEnd_chars (trimStart_chars l)).
Proof. split; [apply trimEnd_trimStart_head|apply trimEnd_last]. Qed.

Lemma tidy_ends_trim l :
  tidy_ends l -> trimEnd_chars (trimStart_chars l) = l.
Proof. intros [Hhead Hlast]. by rewrite trimStart_fixed, trimEnd_fixed. Qed.

Lemma trim_idem s : trim (trim s) = trim s.
Proof.
  unfold trim. rewrite chars_str. f_equal. apply tidy_ends_trim, trim_tidy_ends.
Qed.

(** *** Runs of white space *)





(** Collapsing keeps the ends tidy. *)
Lemma collapse_spaces_from_snoc b l c :
  is_space c = false ->
  collapse_spaces_from b (l ++ [c]) = collapse_spaces_from b l ++ [c].
Proof.
  intros Hc. revert b. induction l as [|c' l IH]; intros b; simpl.
  - by rewrite Hc.
  - destruct (is_space c'); [destruct b|]; simpl; by rewrite IH.
Qed.



(** Replacing a character by itself. *)
Lemma replace_class_same c s : replace_class [c; c] c s = s.
Proof.
  unfold replace_class. rewrite <- (str_chars s) at 2. f_equal.
  rewrite <- (map_id (chars s)) at 2. apply map_ext. intros a. simpl.
  destruct (Ascii.eqb_spec a c) as [->|]; by simpl.
Qed.

End Strings.

Section NormalizerFacts.
Import JS WineDataNormalizer.



(** Two numbers of which none is [NaN] compare one way or the other. *)
Lemma leb_false_ltb x y :
  is_nan x = false -> is_nan y = false ->
  (x <=? y)%float = false -> (y <? x)%float = true.
Proof.
  unfold is_nan.
  rewrite !negb_false_iff, !FloatAxioms.eqb_spec, FloatAxioms.leb_spec, FloatAxioms.ltb_spec.
  unfold SFeqb, SFleb, SFltb.
  rewrite (SFcompare_antisym (Prim2SF x) (Prim2SF y)).
  destruct (Prim2SF x) as [[]|[]| |[] m1 e1], (Prim2SF y) as [[]|[]| |[] m2 e2];
    simpl; try done;
    destruct (e1 ?= e2)%Z; simpl; try done;
    by destruct (Pos.compare_cont Eq m1 m2).
Qed.

Lemma truthy_not_nan r : truthy r = true -> is_nan r = false.
Proof. unfold truthy. by intros [_ ?%negb_true_iff]%andb_true_iff. Qed.

(** A number that is at least 1 is not at most 0. *)
Lemma ge_1_not_leb_0 r : (1 <=? r)%float = true -> (r <=? 0)%float = false.
Proof.
  rewrite !FloatAxioms.leb_spec. unfold SFleb.
  change (Prim2SF 1) with (S754_finite false 4503599627370496 (-52)).
  change (Prim2SF 0) with (S754_zero false).
  by destruct (Prim2SF r) as [[]|[]| |[] m e].
Qed.

(** X4. [normalizePrice] keeps a price exactly when it lies between 1 and
    10000, and then rounds it to cents; a missing price, [NaN] and every
    price outside that range give [undefined]. The test [price <= 0] never
    decides. *)
Theorem normalizePrice_range (p : number) :
  normalizePrice (Some p) =
    (if (1 <=? p)%float && (p <=? 10000)%float
     then Some (Math_round (p * 100) / 100)%float
     else None)
  /\ normalizePrice None = None.
Proof.
  split; [|done]. unfold normalizePrice.
  destruct (1 <=? p)%float eqn:Hlo; simpl.
  - rewrite (ge_1_truthy p Hlo), (ge_1_not_leb_0 p Hlo), (leb_not_ltb _ _ Hlo). simpl.
    destruct (p <=? 10000)%float eqn:Hhi.
    + by rewrite (leb_not_ltb _ _ Hhi).
    + rewrite (leb_false_ltb p 10000%float); try done.
      by apply truthy_not_nan, ge_1_truthy.
  - destruct (truthy p) eqn:Hp; simpl; [|done].
    destruct (p <=? 0)%float; [done|].
    rewrite (leb_false_ltb 1%float p); try done. by apply truthy_not_nan.
Qed.

(** *** Grape varieties *)

Lemma existsb_eqb_elem (x : string) (l : list string) :
  existsb (String.eqb x) l = true <-> x ∈ l.
Proof.
  rewrite existsb_exists. split.
  - intros (y & Hy & ->%String.eqb_eq). by apply list_elem_of_In.
  - intros Hx. exists x. rewrite String.eqb_refl. split; [|done]. by apply list_elem_of_In.
Qed.

Lemma first_occurrences_elem seen l x :
  x ∈ first_occurrences seen l <-> x ∈ l /\ x ∉ seen.
Proof.
  revert seen. induction l as [|y l IH]; intros seen; simpl.
  - rewrite !elem_of_nil. tauto.
  - destruct (existsb (String.eqb y) seen) eqn:Hy.
    + apply existsb_eqb_elem in Hy. rewrite IH, elem_of_cons.
      split; [tauto|]. intros [[->|?] ?]; tauto.
    + assert (y ∉ seen) as Hy'.
      { intros Hin%existsb_eqb_elem. congruence. }
      rewrite !elem_of_cons, IH, elem_of_cons.
      split.
      * intros [->|[? ?]]; [tauto|]. split; [tauto|]. tauto.
      * intros [[->|?] ?]; [tauto|].
        destruct (decide (x = y)) as [->|]; [tauto|]. right. tauto.
Qed.

Lemma first_occurrences_NoDup seen l : NoDup (first_occurrences seen l).
Proof.
  revert seen. induction l as [|y l IH]; intros seen; simpl; [constructor|].
  destruct (existsb (String.eqb y) seen); [apply IH|].
  constructor; [|apply IH].
  rewrite first_occurrences_elem, elem_of_cons. tauto.
Qed.

Lemma first_occurrences_sublist seen l : first_occurrences seen l `sublist_of` l.
Proof.
  revert seen. induction l as [|y l IH]; intros seen; simpl; [done|].
  destruct (existsb (String.eqb y) seen).
  - by apply sublist_cons.
  - by apply sublist_skip.
Qed.

(** X5. [normalizeGrapeVarieties] gives the standard name of each variety once:
    the result has no repeats, names exactly the normalized varieties, and
    lists them in the order in which they first come. *)
Theorem normalizeGrapeVarieties_distinct (varieties : list string) :
  NoDup (normalizeGrapeVarieties varieties)
  /\ (forall variety, variety ∈ normalizeGrapeVarieties varieties
                      <-> variety ∈ map normalizeGrapeVariety varieties)
  /\ normalizeGrapeVarieties varieties `sublist_of` map normalizeGrapeVariety varieties.
Proof.
  assert (normalizeGrapeVarieties varieties
          = first_occurrences [] (map normalizeGrapeVariety varieties)) as ->.
  { by destruct varieties. }
  split; [apply first_occurrences_NoDup|].
  split; [|apply first_occurrences_sublist].
  intros variety. rewrite first_occurrences_elem, elem_of_nil. tauto.
Qed.

(** Shiraz is Syrah, however it is written. *)
Example normalizeGrapeVarieties_examples :
  normalizeGrapeVarieties ["Shiraz"; " syrah"; "Merlot"; "SYRAH "; "old vine zin"]
  = ["Syrah"; "Merlot"; "Old Vine Zin"].
Proof. by vm_compute. Qed.

(** *** Blank text *)






(** *** The keys of the tables *)





(** What is no key is matched with the first key that it holds or that
    holds it: a value of the table need not be normalized to itself. *)
Example normalizeRegion_examples :
  map normalizeRegion ["Chianti, Tuscany, Italy"; "Napa Valley AVA"; "val"; "Unknown Region";
                       "douro valley,  portugal"]
  = ["Tuscany, Italy"; "Napa Valley, California"; "Napa Valley, California";
     "Unknown region"; "Douro valley, Portugal"].
Proof. by vm_compute. Qed.

(** *** Colour *)






(** *** Description *)



Lemma length_collapse_spaces_from b l :
  length (collapse_spaces_from b l) <= length l.
Proof.
  revert b. induction l as [|c l IH]; intros b; simpl; [done|].
  pose proof (IH true). pose proof (IH false).
  destruct (is_space c); [destruct b|]; simpl; lia.
Qed.



(** *** Vineyard *)

Lemma trim_fixed_tidy_ends s : trim s = s -> tidy_ends (chars s).
Proof. intros <-. unfold trim. rewrite chars_str. apply trim_tidy_ends. Qed.

Lemma collapse_spaces_from_app b l r :
  match last l with Some c => is_space c = false | None => False end ->
  collapse_spaces_from b (l ++ r) = collapse_spaces_from b l ++ collapse_spaces_from false r.
Proof.
  destruct l as [|c l _] using rev_ind; [done|].
  rewrite last_snoc. intros Hc. rewrite collapse_spaces_from_snoc by done.
  rewrite <- !app_assoc. simpl.
  revert b. induction l as [|c' l IH]; intros b; simpl.
  - by rewrite Hc.
  - destruct (is_space c'); [destruct b|]; simpl; by rewrite IH.
Qed.

Lemma collapse_spaces_from_no_space b l :
  Forall (fun c => is_space c = false) l -> collapse_spaces_from b l = l.
Proof.
  intros Hl. revert b. induction Hl as [|c l Hc _ IH]; intros b; simpl; [done|].
  by rewrite Hc, IH.
Qed.

Lemma is_word_lower_char c : is_word (lower_char c) = is_word c.
Proof. destruct c as [[] [] [] [] [] [] [] []]; by vm_compute. Qed.

Lemma is_space_lower_char c : is_space (lower_char c) = is_space c.
Proof. destruct c as [[] [] [] [] [] [] [] []]; by vm_compute. Qed.

(** A word that is one of the suffixes but for its letter case. *)
Lemma suffix_word_shape word :
  toLowerCase word ∈ VINEYARD_SUFFIXES ->
  existsb (fun w => bool_decide (map lower_char (chars word) = chars w)) VINEYARD_SUFFIXES
    = true
  /\ Forall (fun c => is_space c = false) (chars word)
  /\ is_word_opt (head (chars word)) = true
  /\ is_word_opt (last (chars word)) = true.
Proof.
  intros Hword. unfold toLowerCase in Hword.
  assert (exists w, w ∈ VINEYARD_SUFFIXES /\ map lower_char (chars word) = chars w)
    as (w & Hw & Hmap).
  { eexists. split; [done|]. by rewrite chars_str. }
  split.
  { apply existsb_exists. exists w. split; [by apply list_elem_of_In|].
    by apply bool_decide_eq_true. }
  assert (Forall (fun c => is_space c = false) (chars w)
          /\ is_word_opt (head (chars w)) = true
          /\ is_word_opt (last (chars w)) = true) as (Hspace & Hhead & Hlast).
  { unfold VINEYARD_SUFFIXES in Hw.
    repeat (apply elem_of_cons in Hw as [->|Hw];
            [by vm_compute; repeat constructor|]).
    by apply elem_of_nil in Hw. }
  rewrite <- Hmap in Hspace, Hhead, Hlast. clear Hmap Hw Hword.
  split; [|split].
  - apply Forall_forall. intros c Hc. rewrite Forall_forall in Hspace.
    rewrite <- is_space_lower_char. apply Hspace.
    apply list_elem_of_In, in_map, list_elem_of_In, Hc.
  - destruct (chars word) as [|c l]; [done|]. simpl in *. by rewrite <- is_word_lower_char.
  - destruct (chars word) as [|c l _] using rev_ind; [done|].
    rewrite map_app in Hlast. cbn [map] in Hlast.
    rewrite last_snoc in Hlast. rewrite last_snoc. simpl in *.
    by rewrite <- is_word_lower_char.
Qed.

(** Nothing is cut before the last word, since what follows holds a space. *)
Lemma strip_suffix_from_word before pre word :
  toLowerCase word ∈ VINEYARD_SUFFIXES ->
  strip_suffix_from before (pre ++ " "%char :: chars word) = pre ++ [" "%char].
Proof.
  intros Hword. destruct (suffix_word_shape word Hword) as (Hsome & Hspace & Hhead & Hlast).
  assert (forall l, " "%char ∈ l ->
            existsb (fun w => bool_decide (map lower_char l = chars w)) VINEYARD_SUFFIXES
              = false) as Hnone.
  { intros l Hl. apply not_true_is_false. intros (w & Hw & Heq)%existsb_exists.
    apply bool_decide_eq_true in Heq.
    apply list_elem_of_In, (in_map lower_char) in Hl. rewrite Heq in Hl.
    change (lower_char " ") with " "%char in Hl.
    unfold VINEYARD_SUFFIXES in Hw. simpl in Hw.
    repeat (destruct Hw as [<-|Hw];
            [simpl in Hl; repeat (destruct Hl as [Hl|Hl]; [discriminate Hl|]); done|]).
    done. }
  assert (strip_suffix_from (Some " "%char) (chars word) = []) as Hcut.
  { destruct (chars word) as [|c l] eqn:Hchars; [done|].
    unfold strip_suffix_from; fold strip_suffix_from.
    unfold word_boundary at 1. rewrite Hhead.
    unfold word_boundary. rewrite Hlast. by rewrite Hsome. }
  revert before. induction pre as [|c pre IH]; intros before.
  - simpl app. unfold strip_suffix_from; fold strip_suffix_from.
    rewrite Hnone by (by left). rewrite andb_false_r. simpl. by rewrite Hcut.
  - change ((c :: pre) ++ " "%char :: chars word)
      with (c :: (pre ++ " "%char :: chars word)).
    unfold strip_suffix_from; fold strip_suffix_from.
    rewrite Hnone, andb_false_r; [simpl; by rewrite IH|].
    right. apply elem_of_app. right. by left.
Qed.

(** X2. [normalizeVineyard] drops a last word 'Winery', 'Wines', 'Vineyard',
    'Estate', 'Cellars', 'Cellar', 'Domaine', 'Château' or 'Chateau', in any
    ASCII letter case, and the space before it: what comes before, if it is
    tidy ASCII text already, is the result. Only that last word goes. *)
Theorem normalizeVineyard_drops_last_word (base word : string)
    (Hascii : Forall (fun c => nat_of_ascii c < 128) (chars base))
    (Hsome : base <> "")
    (Htrimmed : trim base = base)
    (Hsingle : collapse_spaces base = base)
    (Hword : toLowerCase word ∈ VINEYARD_SUFFIXES) :
  normalizeVineyard (base +:+ " " +:+ word) = base.
Proof.
  destruct (suffix_word_shape word Hword) as (_ & Hspace & _ & Hlast).
  destruct (trim_fixed_tidy_ends base Htrimmed) as [Hhead Hend].
  assert (chars base <> []) as Hchars.
  { intros H. by apply chars_nil in H. }
  assert (match last (chars base) with Some c => is_space c = false | None => False end)
    as Hend'.
  { destruct (chars base) as [|c l _] using rev_ind; [done|].
    by rewrite last_snoc in *. }
  set (vineyard := base +:+ " " +:+ word).
  assert (chars vineyard = chars base ++ " "%char :: chars word) as Hv.
  { unfold vineyard. by rewrite !chars_app. }
  assert (trim vineyard = vineyard) as Htrim.
  { unfold trim. rewrite <- (str_chars vineyard) at 2. f_equal.
    apply tidy_ends_trim. rewrite Hv. split.
    - destruct (chars base); done.
    - destruct (chars word) as [|c l _] using rev_ind.
      + simpl in Hword. by vm_compute in Hlast.
      + rewrite app_comm_cons, app_assoc, last_snoc.
        rewrite Forall_app, Forall_singleton in Hspace. tauto. }
  assert (collapse_spaces vineyard = vineyard) as Hcollapse.
  { unfold collapse_spaces. rewrite <- (str_chars vineyard) at 2. f_equal.
    rewrite Hv, collapse_spaces_from_app by done.
    f_equal.
    - apply (f_equal chars) in Hsingle. unfold collapse_spaces in Hsingle.
      by rewrite chars_str in Hsingle.
    - simpl. f_equal. by apply collapse_spaces_from_no_space. }
  unfold normalizeVineyard.
  assert (nonempty vineyard = true) as ->.
  { apply nonempty_chars. rewrite Hv. by destruct (chars base). }
  simpl. rewrite !replace_class_same, Htrim, Hcollapse.
  unfold strip_suffix. rewrite Hv, strip_suffix_from_word by done.
  unfold trim. rewrite chars_str.
  rewrite <- (str_chars base) at 2. f_equal.
  rewrite trimStart_fixed by (by destruct (chars base)).
  unfold trimEnd_chars. rewrite rev_app_distr. simpl.
  rewrite <- (rev_involutive (chars base)) at 2. f_equal.
  apply trimStart_fixed.
  destruct (chars base) as [|c l _] using rev_ind; [done|].
  rewrite last_snoc in Hend'. by rewrite rev_app_distr.
Qed.

Lemma normalizeVineyard_drops_last_word_witness :
  normalizeVineyard "Heritage Estate WINERY" = "Heritage Estate"
  /\ normalizeVineyard "Heritage Estate" = "Heritage".
Proof.
  split.
  - apply (normalizeVineyard_drops_last_word "Heritage Estate" "WINERY");
      try done; vm_compute; repeat constructor; lia.
  - apply (normalizeVineyard_drops_last_word "Heritage" "Estate");
      try done; vm_compute; repeat constructor; lia.
Defined.

(** What is left may be empty, and an empty name becomes 'Unknown Winery'. *)
Example normalizeVineyard_examples :
  normalizeVineyard "  Smith   Family  Cellars " = "Smith Family"
  /\ normalizeVineyard "Winery" = ""
  /\ normalizeVineyard "" = "Unknown Winery"
  /\ normalizeVineyard "Winery Smith" = "Winery Smith"
  /\ normalizeVineyard "Smithwinery" = "Smithwinery".
Proof. by vm_compute. Qed.


(** *** Duplicates of oneself *)

Lemma stringSimilarity_same s :
  stringSimilarity s s = if nonempty s then 1%float else 0%float.
Proof.
  unfold stringSimilarity. destruct (nonempty s); simpl; [|done].
  by rewrite String.eqb_refl.
Qed.

Lemma truthy_eqb_refl r : truthy r = true -> (r =? r)%float = true.
Proof.
  intros Hr%truthy_not_nan. unfold is_nan in Hr. by apply negb_false_iff in Hr.
Qed.

Lemma isDuplicate_same (wine : WineApiSearchResult) :
  isDuplicate wine wine = nonempty (name wine) && nonempty (vineyard wine).
Proof.
  unfold isDuplicate, calculateSimilarity.
  rewrite !stringSimilarity_same.
  destruct (truthy_opt (vintage_year wine)) eqn:Hyear; simpl.
  - destruct (vintage_year wine) as [year|]; [|done]. simpl in Hyear.
    cbn [strict_equal]. rewrite (truthy_eqb_refl year Hyear).
    by destruct (nonempty (name wine)), (nonempty (vineyard wine)), (nonempty (region wine)).
  - by destruct (nonempty (name wine)), (nonempty (vineyard wine)), (nonempty (region wine)).
Qed.

Lemma nonempty_spec s : nonempty s = true <-> s <> "".
Proof. unfold nonempty. rewrite negb_true_iff. apply String.eqb_neq. Qed.


(** X10. [removeDuplicates] never keeps a wine twice, as long as the wines have
    a name and a vineyard. *)
Theorem removeDuplicates_NoDup (wines : list WineApiSearchResult)
    (Hnamed : Forall (fun wine => name wine <> "" /\ vineyard wine <> "") wines) :
  NoDup (removeDuplicates wines).
Proof.
  apply NoDup_alt. intros i j wine Hi Hj.
  assert (isDuplicate wine wine = true) as Hself.
  { rewrite isDuplicate_same, andb_true_iff, !nonempty_spec.
    rewrite Forall_forall in Hnamed. apply Hnamed.
    apply (elem_of_sublist (removeDuplicates wines)); [|apply removeDuplicates_sublist].
    by apply list_elem_of_lookup_2 in Hi. }
  destruct (Nat.lt_trichotomy i j) as [Hlt|[->|Hlt]]; [|done|].
  - pose proof (Distinct_lookup _ (removeDuplicates_Distinct wines) i j wine wine Hi Hj Hlt).
    congruence.
  - pose proof (Distinct_lookup _ (removeDuplicates_Distinct wines) j i wine wine Hj Hi Hlt).
    congruence.
Qed.


Lemma removeDuplicates_NoDup_witness :
  let wine (n w : string) :=
    {| name := n; vineyard := w; region := "Napa"; color := "Red";
       grape_varieties := []; vintage_year := None; rating := None;
       description := None; price := None; currency := None; food_pairings := None;
       image_url := None; source := manual |} in
  NoDup (removeDuplicates [wine "Merlot" "Heritage"; wine "Merlot" "Heritage";
                           wine "Zinfandel" "Heritage"]).
Proof.
  intros wine. apply removeDuplicates_NoDup. by repeat constructor.
Defined.

(** A wine without a vineyard is kept as often as it is listed. *)
Example removeDuplicates_keeps_unnamed :
  let wine :=
    {| name := "Merlot"; vineyard := ""; region := "Napa"; color := "Red";
       grape_varieties := []; vintage_year := Some 2019%float; rating := None;
       description := None; price := None; currency := None; food_pairings := None;
       image_url := None; source := manual |} in
  removeDuplicates [wine; wine] = [wine; wine].
Proof. by vm_compute. Qed.

End NormalizerFacts.

(** ** The Vivino page *)

Section ScraperFacts.
Import JS WineDataNormalizer WineApiService.

(** The four characters of a year that [extractYear] looks for. *)
Definition year_digits (ds : list ascii) : Prop :=
  exists c d, (ds = ["1"; "9"; c; d]%char \/ ds = ["2"; "0"; c; d]%char)
              /\ is_digit c = true /\ is_digit d = true.

Lemma starts_with_2 (x y a b : ascii) l :
  starts_with [x; y] (a :: b :: l) = true -> a = x /\ b = y.
Proof.
  simpl. rewrite andb_true_r.
  by intros [->%Ascii.eqb_eq ->%Ascii.eqb_eq]%andb_true_iff.
Qed.

Lemma year_match_sound before l ds :
  year_match before l = Some ds ->
  exists pre post,
    l = pre ++ ds ++ post
    /\ year_digits ds
    /\ is_word_opt (match last pre with Some c => Some c | None => before end) = false
    /\ is_word_opt (head post) = false.
Proof.
  revert before. induction l as [|c0 l IH]; intros before; [done|].
  unfold year_match; fold year_match.
  destruct l as [|b [|c [|d rest]]]; try done.
  destruct (word_boundary before (Some c0) && _ && is_digit c && is_digit d
            && word_boundary (Some d) (head rest)) eqn:Hhere.
  - intros [= <-].
    apply andb_true_iff in Hhere as [Hhere Hafter].
    apply andb_true_iff in Hhere as [Hhere Hd].
    apply andb_true_iff in Hhere as [Hhere Hc].
    apply andb_true_iff in Hhere as [Hbefore Hcentury].
    assert (is_word c0 = true /\ year_digits [c0; b; c; d]) as [Hw Hyear].
    { apply orb_true_iff in Hcentury as [H|H]; apply starts_with_2 in H as [-> ->];
        (split; [done|]); exists c, d; auto. }
    exists [], rest. split; [done|]. split; [done|].
    unfold word_boundary in Hbefore, Hafter. simpl in Hbefore, Hafter.
    rewrite Hw in Hbefore.
    assert (is_word d = true) as Hwd.
    { unfold is_word. by rewrite Hd, !orb_true_r. }
    rewrite Hwd in Hafter. simpl.
    split; [by destruct (is_word_opt before)|by destruct (is_word_opt (head rest))].
  - intros Hrest. apply IH in Hrest as (pre & post & Hl & Hyear & Hpre & Hpost).
    exists (c0 :: pre), post. split; [by rewrite Hl|]. split; [done|]. split; [|done].
    destruct pre as [|c' pre]; [by simpl in *|]. rewrite last_cons_cons.
    destruct (last (c' :: pre)) eqn:Hlast; [done|]. by apply last_None in Hlast.
Qed.

Lemma year_match_complete before pre ds post :
  year_digits ds ->
  is_word_opt (match last pre with Some c => Some c | None => before end) = false ->
  is_word_opt (head post) = false ->
  year_match before (pre ++ ds ++ post) <> None.
Proof.
  intros (c & d & Hds & Hc & Hd) Hpre Hpost. revert before Hpre.
  assert (is_word d = true) as Hwd.
  { unfold is_word. by rewrite Hd, !orb_true_r. }
  induction pre as [|c0 pre IH]; intros before Hpre.
  - simpl in Hpre. unfold word_boundary.
    destruct Hds as [-> | ->]; simpl; unfold word_boundary; simpl;
      rewrite Hpre, Hc, Hd, Hwd, Hpost; done.
  - assert (exists a b c2 d2 rest, pre ++ ds ++ post = a :: b :: c2 :: d2 :: rest)
      as (a & b & c2 & d2 & rest & Hshape).
    { destruct pre as [|p1 [|p2 [|p3 [|p4 pre]]]]; destruct Hds as [-> | ->];
        simpl; eauto 10. }
    assert (year_match (Some c0) (pre ++ ds ++ post) <> None) as Hrest.
    { apply IH. destruct pre as [|c' pre]; [done|].
      rewrite last_cons_cons in Hpre.
      by destruct (last (c' :: pre)) eqn:Hlast; [|apply last_None in Hlast]. }
    change ((c0 :: pre) ++ ds ++ post) with (c0 :: (pre ++ ds ++ post)).
    rewrite Hshape in *. unfold year_match; fold year_match.
    destruct rest as [|e rest].
    + by destruct (_ && _).
    + by destruct (_ && _).
Qed.

Lemma is_digit_cases c :
  is_digit c = true ->
  c ∈ ["0"; "1"; "2"; "3"; "4"; "5"; "6"; "7"; "8"; "9"]%char.
Proof.
  destruct c as [[] [] [] [] [] [] [] []]; intros H; try (by vm_compute in H);
    repeat (first [by left|right]).
Qed.

Lemma year_digits_value ds :
  year_digits ds ->
  (1900 <= digits_value ds <= 2099)%Z
  /\ parseInt_string (str ds) = of_Z (digits_value ds)
  /\ truthy (of_Z (digits_value ds)) = true.
Proof.
  intros (c & d & Hds & Hc%is_digit_cases & Hd%is_digit_cases).
  repeat (apply elem_of_cons in Hc as [->|Hc]); try (by apply elem_of_nil in Hc);
    repeat (apply elem_of_cons in Hd as [->|Hd]); try (by apply elem_of_nil in Hd);
    destruct Hds as [-> | ->]; by vm_compute.
Qed.

(** X11. [extractYear] gives a whole number from 1900 to 2099, or nothing: the
    number is written in the text with four digits, with no letter, digit
    or underscore right before or right after them. It gives nothing only
    when the text has no year written so. *)
Theorem extractYear_standalone (text : string) :
  match extractYear text with
  | Some year =>
      exists pre ds post,
        chars text = pre ++ ds ++ post
        /\ length ds = 4
        /\ year = of_Z (digits_value ds)
        /\ (1900 <= digits_value ds <= 2099)%Z
        /\ truthy year = true
        /\ is_word_opt (last pre) = false
        /\ is_word_opt (head post) = false
  | None =>
      forall pre ds post,
        chars text = pre ++ ds ++ post ->
        year_digits ds ->
        is_word_opt (last pre) = false ->
        is_word_opt (head post) = false ->
        False
  end.
Proof.
  unfold extractYear.
  destruct (year_match None (chars text)) as [ds|] eqn:Hmatch.
  - apply year_match_sound in Hmatch as (pre & post & Htext & Hyear & Hpre & Hpost).
    destruct (year_digits_value ds Hyear) as (Hrange & -> & Htruthy).
    exists pre, ds, post. repeat split; try done; try lia.
    + destruct Hyear as (c & d & [-> | ->] & _); done.
    + by destruct (last pre).
  - intros pre ds post Htext Hyear Hpre Hpost.
    apply (year_match_complete None pre ds post); [done| |done|by rewrite <- Htext].
    by destruct (last pre).
Qed.

Example extractYear_examples :
  map extractYear ["Reserve 2019"; "Cuvee 1999-2005"; "Lot 20195"; "MMXIX"; "Bin2019";
                   "Port 1899"; "(2020)"]
  = [Some 2019%float; Some 1999%float; None; None; None; None; Some 2020%float].
Proof. by vm_compute. Qed.


(** *** Cards *)

(** What every wine read from a card has. *)
Definition scraped_wine (wine : WineApiSearchResult) : Prop :=
  name wine <> "" /\ trim (name wine) = name wine
  /\ vineyard wine <> "" /\ region wine <> ""
  /\ color wine ∈ ["Red"; "White"; "Rosé"; "Sparkling"]
  /\ grape_varieties wine <> []
  /\ (exists c, currency wine = Some c /\ c ∈ ["USD"; "GBP"; "EUR"; "JPY"])
  /\ description wine = None /\ food_pairings wine = None
  /\ source wine = vivino.

Lemma or_else_nonempty a b : b <> "" -> or_else a b <> "".
Proof.
  intros Hb. unfold or_else, nonempty.
  destruct (String.eqb_spec a ""); simpl; done.
Qed.

Lemma card_color_cases n r :
  card_color n r ∈ ["Red"; "White"; "Rosé"; "Sparkling"].
Proof.
  unfold card_color.
  repeat match goal with |- context [if ?b then _ else _] => destruct b end;
    repeat (first [by left|right]).
Qed.

Lemma symbol_at_cases l symbol r :
  symbol_at l = Some (symbol, r) ->
  exists currency, table_get CURRENCY_SYMBOLS symbol = Some currency
                   /\ currency ∈ ["USD"; "GBP"; "EUR"; "JPY"].
Proof.
  unfold symbol_at, CURRENCY_SYMBOLS. cbn [List.filter fst].
  repeat match goal with
         | |- context [if ?b then _ else _] => destruct b
         end; intros [= <- _]; eexists; (split; [by vm_compute|]);
    repeat (first [by left|right]).
Qed.

Lemma price_match_symbol l symbol amount :
  price_match l = Some (Some symbol, amount) ->
  exists currency, table_get CURRENCY_SYMBOLS symbol = Some currency
                   /\ currency ∈ ["USD"; "GBP"; "EUR"; "JPY"].
Proof.
  induction l as [|c l IH].
  - unfold price_match. destruct (symbol_at []) as [[s r]|] eqn:Hs.
    + destruct (amount_at r); [|by destruct (amount_at [])].
      intros [= <- _]. by eapply symbol_at_cases.
    + by destruct (amount_at []).
  - unfold price_match; fold price_match.
    destruct (symbol_at (c :: l)) as [[s r]|] eqn:Hs.
    + destruct (amount_at r).
      * intros [= <- _]. by eapply symbol_at_cases.
      * destruct (amount_at (c :: l)); [done|]. apply IH.
    + destruct (amount_at (c :: l)); [done|]. apply IH.
Qed.

Lemma parsePrice_currency text p c :
  parsePrice text = Some (p, c) -> c ∈ ["USD"; "GBP"; "EUR"; "JPY"].
Proof.
  unfold parsePrice.
  destruct (price_match (chars text)) as [[[symbol|] amount]|] eqn:Hmatch; [| |done].
  - apply price_match_symbol in Hmatch as (currency & -> & Hin). by intros [= _ <-].
  - intros [= _ <-]. by left.
Qed.

Lemma parse_card_scraped options card wine :
  parse_card options card = Some wine -> scraped_wine wine.
Proof.
  unfold parse_card.
  set (card_name' := trim (card_name card)).
  destruct (nonempty card_name') eqn:Hname; [|done]. cbn [negb].
  set (priced := match card_price card with Some _ => _ | None => _ end).
  assert (exists c, priced.2 = c /\ c ∈ ["USD"; "GBP"; "EUR"; "JPY"])
    as (c & Hc & Hcurrency).
  { eexists. split; [done|]. unfold priced.
    destruct (card_price card) as [text|]; [|by left].
    destruct (parsePrice (trim text)) as [[p c]|] eqn:Hparse; [|by left].
    by eapply parsePrice_currency. }
  destruct priced as [amount cur]. simpl in Hc. subst c.
  set (region' := or_else _ _). set (vineyard' := or_else _ _).
  set (color' := card_color _ _).
  set (grapes' := match inferGrapes _ with [] => _ | _ => _ end).
  set (rating' := if nonempty _ then _ else _).
  set (year' := match extractYear _ with Some _ => _ | None => _ end).
  set (image' := match card_src card with Some _ => _ | None => _ end).
  intros [= <-]. unfold scraped_wine.
  cbn [name vineyard region color grape_varieties currency description food_pairings source].
  split. { intros H. by rewrite H in Hname. }
  split; [apply trim_idem|].
  split; [by apply or_else_nonempty|].
  split; [by apply or_else_nonempty, or_else_nonempty|].
  split; [apply card_color_cases|].
  split.
  { unfold grapes'. destruct (inferGrapes _); [|done].
    destruct (String.eqb color' "Red"); [done|].
    by destruct (String.eqb color' "White"). }
  split; [|done].
  by exists cur.
Qed.

Lemma parse_card_rating options card wine :
  parse_card options card = Some wine ->
  rating wine =
    if nonempty (trim (card_rating card))
    then Some (Math_round (parseFloat (trim (card_rating card)) * 20)%float)
    else None.
Proof.
  unfold parse_card.
  destruct (nonempty (trim (card_name card))); [|done]. cbn [negb].
  destruct (match card_price card with Some _ => _ | None => _ end) as [amount cur].
  set (region' := or_else _ _). set (vineyard' := or_else _ _).
  set (color' := card_color _ _).
  set (grapes' := match inferGrapes _ with [] => _ | _ => _ end).
  set (rating' := if nonempty _ then _ else _).
  set (year' := match extractYear _ with Some _ => _ | None => _ end).
  set (image' := match card_src card with Some _ => _ | None => _ end).
  by intros [= <-].
Qed.

Lemma each_card_spec options cards index :
  Forall scraped_wine (each_card options index cards)
  /\ length (each_card options index cards) <= length cards
  /\ (Z.of_nat (length (each_card options index cards))
      <= Z.max 0 (limit_or_10 options - Z.of_nat index))%Z
  /\ (forall wine, wine ∈ each_card options index cards ->
        exists card, card ∈ cards /\ parse_card options card = Some wine).
Proof.
  revert index. induction cards as [|card cards IH]; intros index; simpl.
  { split; [constructor|]. split; [done|]. split; [lia|].
    intros wine Hin. by apply elem_of_nil in Hin. }
  destruct (limit_or_10 options <=? Z.of_nat index)%Z eqn:Hlimit.
  { split; [constructor|]. split; [simpl; lia|]. split; [simpl; lia|].
    intros wine Hin. by apply elem_of_nil in Hin. }
  apply Z.leb_gt in Hlimit.
  destruct (IH (S index)) as (Hall & Hlen & Hmax & Hfrom).
  destruct (parse_card options card) as [wine|] eqn:Hcard.
  - split; [constructor; [by eapply parse_card_scraped|done]|].
    split; [simpl; lia|]. split; [simpl length; lia|].
    intros wine' [->|Hin]%elem_of_cons.
    + exists card. split; [by left|done].
    + destruct (Hfrom wine' Hin) as (card' & Hin' & Hcard').
      exists card'. split; [by right|done].
  - split; [done|]. split; [lia|]. split; [lia|].
    intros wine' Hin. destruct (Hfrom wine' Hin) as (card' & Hin' & Hcard').
    exists card'. split; [by right|done].
Qed.


(** *** Ratings *)

Lemma normalizeRating_vivino r :
  normalizeRating (Some r) (Some "vivino") =
    if ge r 1%float && (r <=? 5)%float then Some (Math_round (r * 20)%float) else None.
Proof.
  unfold normalizeRating. destruct (truthy r) eqn:Hr; [done|]. cbn [negb].
  destruct (ge r 1%float) eqn:Hge; [|done].
  apply ge_1_truthy in Hge. congruence.
Qed.

(** X14. The scraper has put the rating of a card on the 100-point scale
    already, and [normalizeWineData] takes the rating of a 'vivino' wine to
    be on the 5-point scale: the rating of a scraped wine is lost when it is
    above 5, and multiplied by 20 once more when it lies in [1,5]. *)
Theorem vivino_rating_scaled_twice (options : WineApiSearchOptions)
    (cards : list WineCard) (wine : WineApiSearchResult) (currentYear : Z)
    (Hwine : wine ∈ scrape options cards) :
  (exists card, card ∈ cards
     /\ rating wine =
          if nonempty (trim (card_rating card))
          then Some (Math_round (parseFloat (trim (card_rating card)) * 20)%float)
          else None)
  /\ rating (normalizeWineData currentYear wine) =
       match rating wine with
       | Some r =>
           if ge r 1%float && (r <=? 5)%float
           then Some (Math_round (r * 20)%float) else None
       | None => None
       end
  /\ (forall r, rating wine = Some r -> (5 <? r)%float = true ->
        rating (normalizeWineData currentYear wine) = None).
Proof.
  destruct (each_card_spec options cards 0) as (Hall & _ & _ & Hfrom).
  destruct (Hfrom wine Hwine) as (card & Hcard & Hparse).
  assert (source wine = vivino) as Hsource.
  { rewrite Forall_forall in Hall. by apply Hall in Hwine as (_&_&_&_&_&_&_&_&_&?). }
  assert (rating (normalizeWineData currentYear wine) =
            match rating wine with
            | Some r =>
                if ge r 1%float && (r <=? 5)%float
                then Some (Math_round (r * 20)%float) else None
            | None => None
            end) as Hrating.
  { unfold normalizeWineData. cbn [rating]. rewrite Hsource. cbn [source_name].
    destruct (rating wine) as [r|]; [apply normalizeRating_vivino|done]. }
  split; [|split; [done|]].
  - exists card. split; [done|]. by apply (parse_card_rating options).
  - intros r Hr Habove. rewrite Hrating, Hr.
    destruct (r <=? 5)%float eqn:Hle; [|by rewrite andb_false_r].
    apply leb_not_ltb in Hle. congruence.
Qed.

Lemma vivino_rating_scaled_twice_witness :
  let options := {| query := "Merlot"; vintage := None; opt_region := None;
                    limit := None |} in
  let card text := {| card_name := "Merlot Reserve 2019"; card_winery := "Heritage";
                      card_region := "Napa"; card_rating := text; card_price := None;
                      card_src := None; card_data_src := None |} in
  map rating (scrape options [card "4.2"; card "0.2"])
    = [Some 84%float; Some 4%float]
  /\ map rating (map (normalizeWineData 2025) (scrape options [card "4.2"; card "0.2"]))
    = [None; Some 80%float]
  /\ forall wine, wine ∈ scrape options [card "4.2"] ->
       rating (normalizeWineData 2025 wine) = None.
Proof.
  intros options card. split; [by vm_compute|]. split; [by vm_compute|].
  intros wine Hwine.
  destruct (vivino_rating_scaled_twice options [card "4.2"] wine 2025 Hwine)
    as (_ & _ & Hlost).
  apply (Hlost 84%float); [|by vm_compute].
  vm_compute in Hwine. apply list_elem_of_singleton in Hwine. by rewrite Hwine.
Defined.

(** *** Prices *)

Definition amount_char (c : ascii) : bool := is_digit c || Ascii.eqb c ",".

Lemma amount_at_None l :
  amount_at l = None <-> match l with c :: _ => amount_char c = false | [] => True end.
Proof.
  unfold amount_at. destruct l as [|c l]; simpl; [done|].
  fold (amount_char c). destruct (amount_char c); [|done].
  destruct (span _ l) as [a b]. split; [|done].
  destruct b as [|[[] [] [] [] [] [] [] []] b]; done.
Qed.

Lemma price_match_None l :
  price_match l = None <-> Forall (fun c => amount_char c = false) l.
Proof.
  induction l as [|c l IH].
  - unfold price_match. split; [constructor|]. intros _.
    destruct (symbol_at []) as [[s r]|] eqn:Hs; [|done].
    unfold symbol_at in Hs. done.
  - unfold price_match; fold price_match. split.
    + intros H.
      assert (amount_at (c :: l) = None /\ price_match l = None) as [Hhere Hrest].
      { destruct (symbol_at (c :: l)) as [[s r]|]; [destruct (amount_at r); [done|]|];
          by destruct (amount_at (c :: l)). }
      constructor; [by apply amount_at_None in Hhere|by apply IH].
    + intros Hall. inversion Hall as [|? ? Hc Hl]; subst.
      assert (amount_at (c :: l) = None) as -> by by apply amount_at_None.
      apply IH in Hl as ->.
      destruct (symbol_at (c :: l)) as [[s r]|] eqn:Hs; [|done].
      assert (amount_at r = None) as ->; [|done].
      apply amount_at_None. unfold symbol_at in Hs.
      destruct (List.filter _ _) as [|[symbol currency] ?]; [done|].
      injection Hs as _ <-.
      destruct (drop _ (c :: l)) as [|c' r'] eqn:Hdrop; [done|].
      rewrite Forall_forall in Hall. apply Hall.
      rewrite <- (take_drop (length (chars symbol)) (c :: l)), Hdrop.
      apply elem_of_app. right. by left.
Qed.

(** X12. [parsePrice] gives [null] exactly when the text has no digit and no
    comma; otherwise the currency it gives is one of USD, GBP, EUR and JPY. *)
Theorem parsePrice_null_without_digits (priceText : string) :
  (parsePrice priceText = None
   <-> Forall (fun c => is_digit c = false /\ c <> ","%char) (chars priceText))
  /\ (forall price currency, parsePrice priceText = Some (price, currency) ->
        currency ∈ ["USD"; "GBP"; "EUR"; "JPY"]).
Proof.
  split; [|apply parsePrice_currency].
  assert (Forall (fun c => is_digit c = false /\ c <> ","%char) (chars priceText)
          <-> Forall (fun c => amount_char c = false) (chars priceText)) as ->.
  { apply Forall_proper; [|done]. intros c. unfold amount_char.
    rewrite orb_false_iff, Ascii.eqb_neq. done. }
  rewrite <- price_match_None. unfold parsePrice.
  destruct (price_match (chars priceText)) as [[symbol amount]|]; done.
Qed.

(** A symbol counts when it stands right before the amount; a comma alone
    is an amount, and no number. *)
Example parsePrice_examples :
  map parsePrice ["$1,234.50"; "£38.5"; "12 €"; "from ¥100"; "-5"; "free"]
  = [Some (1234.5%float, "USD"); Some (38.5%float, "GBP"); Some (12%float, "USD");
     Some (100%float, "JPY"); Some (5%float, "USD"); None]
  /\ (exists price, parsePrice "," = Some (price, "USD") /\ is_nan price = true).
Proof. split; [by vm_compute|]. eexists. split; by vm_compute. Qed.

End ScraperFacts.

(** ** The service: browser, details, request count *)

Section ServiceFacts.
Import JS WineDataNormalizer WineApiService.

Implicit Types (s : Service) (error : JsError) (now late : Z).

(** X15. When [close()] rejects, [cleanup] rejects with the same error and the
    browser stays stored: [getBrowser] goes on returning it and launches
    nothing, and a later [cleanup] calls [close()] on it again. *)
Theorem failed_close_keeps_browser s (b : Browser) error
    (Hstored : browser s = Some b) :
  let after := (cleanup (Some error) s).2 in
  (cleanup (Some error) s).1 = Thrown error
  /\ browser after = Some b
  /\ launched after = launched s
  /\ (forall launch, getBrowser launch after = (Returned b, after))
  /\ (cleanup None after).1 = Returned tt
  /\ browser (cleanup None after).2 = None.
Proof.
  unfold cleanup, closeBrowser. rewrite Hstored. simpl.
  repeat split.
Qed.

Lemma failed_close_keeps_browser_witness :
  let error := {| code := None; message := Some "Protocol error"; status := None |} in
  let s := (getBrowser None initial).2 in
  (cleanup (Some error) s).1 = Thrown error
  /\ getBrowser None (cleanup (Some error) s).2
     = (Returned 0, (cleanup (Some error) s).2).
Proof.
  intros error s.
  destruct (failed_close_keeps_browser s 0 error eq_refl) as (Hthrown & _ & _ & Hsame & _).
  split; [done|]. apply Hsame.
Defined.

(** X16. [getWineDetails] gives [null] for every source but 'vivino' and
    'wine_api', and counts the request all the same; what it gives for
    those two does not depend on the id. *)
Theorem getWineDetails_unknown_source (id source : string) s now late
    (Hvivino : source <> "vivino") (Hwine_api : source <> "wine_api") :
  getWineDetails id source s now late = (None, (rateLimit s now late).1)
  /\ requestCount (getWineDetails id source s now late).2 = (requestCount s + 1)%Z
  /\ (forall other known, known = "vivino" \/ known = "wine_api" ->
        is_Some (getWineDetails id known s now late).1
        /\ getWineDetails other known s now late = getWineDetails id known s now late).
Proof.
  unfold getWineDetails, rateLimit. cbn [fst snd].
  apply String.eqb_neq in Hvivino, Hwine_api. rewrite Hvivino, Hwine_api.
  split; [done|]. split; [done|].
  intros other known [-> | ->]; by split.
Qed.

Lemma getWineDetails_unknown_source_witness :
  (getWineDetails "42" "Vivino" initial 5000 0).1 = None
  /\ requestCount (getWineDetails "42" "Vivino" initial 5000 0).2 = 1%Z.
Proof.
  destruct (getWineDetails_unknown_source "42" "Vivino" initial 5000 0)
    as (Hnull & Hcount & _); [done|done|].
  split; [by rewrite Hnull|done].
Defined.

(** X17. Every operation that goes out counts as one request in
    [getRequestStats], whether it succeeds or not, and records the time at
    which its [rateLimit] let it go; [getBrowser] and [cleanup] count
    nothing. *)
Theorem every_operation_counts_once s now late :
  let counted (s' : Service) :=
    getRequestStats s' = ((requestCount s + 1)%Z, (rateLimit s now late).2) in
  (forall options, counted (searchWineApi options s now late).2)
  /\ (forall options launch scraped,
        counted (performVivinoSearch options s now late launch scraped).2)
  /\ (forall id source, counted (getWineDetails id source s now late).2)
  /\ (forall wine_color wine_grape_varieties,
        counted (suggestFoodPairings wine_color wine_grape_varieties s now late).2)
  /\ (forall launch, getRequestStats (getBrowser launch s).2 = getRequestStats s)
  /\ (forall close, getRequestStats (cleanup close s).2 = getRequestStats s).
Proof.
  unfold getRequestStats, searchWineApi, performVivinoSearch, getWineDetails,
    suggestFoodPairings, rateLimit, cleanup, closeBrowser.
  cbn [fst snd]. repeat split.
  - intros options launch scraped. unfold getBrowser. simpl.
    destruct (browser s); [done|]. by destruct launch.
  - intros launch. unfold getBrowser.
    destruct (browser s); [done|]. by destruct launch.
  - intros close. destruct (browser s); [|done]. by destruct close.
Qed.

End ServiceFacts.

(** ** Rack slots *)

Section RackFacts.
Import JS Cellar.

Implicit Types (db : Database) (id slotId wineId : string) (now : Z) (slot : RackSlot).

(** A slot is marked occupied exactly when it names a wine, and the wine
    it names is stored. *)
Definition rack_consistent db : Prop :=
  forall k slot, rack_slots db !! k = Some slot ->
    (is_occupied slot = true <-> is_Some (wine_id slot))
    /\ (forall wineId, wine_id slot = Some wineId -> is_Some (wines db !! wineId)).

(** X18. [assignWineToSlot] writes the wine into the slot, whatever the slot
    held before, and marks it occupied; the other slots and the table of
    wines stay as they are, so that the [rack_slot] of the wine is not
    written. [clearSlot] and [clearSlotByWineId] then free the slot again.
    For a slot that does not exist, [assignWineToSlot] returns [null] and
    writes nothing. *)
Theorem assignWineToSlot_then_clear (foreign_keys : bool) slotId wineId now db
    (Hwine : is_Some (wines db !! wineId)) :
  let out := RackSlotModel.assignWineToSlot foreign_keys slotId wineId now db in
  wines out.2 = wines db
  /\ (forall other, other <> slotId -> rack_slots out.2 !! other = rack_slots db !! other)
  /\ match rack_slots db !! slotId with
     | None => out = (Returned None, db)
     | Some slot =>
         out.1 = Returned (Some (RackSlotModel.assign wineId now slot))
         /\ RackSlotModel.findBySlotId slotId out.2
            = Some (RackSlotModel.assign wineId now slot)
         /\ wine_id (RackSlotModel.assign wineId now slot) = Some wineId
         /\ is_occupied (RackSlotModel.assign wineId now slot) = true
         /\ (forall later,
               (RackSlotModel.clearSlot slotId later out.2).1
               = Some (RackSlotModel.clear later (RackSlotModel.assign wineId now slot)))
         /\ (forall later,
               (RackSlotModel.clearSlotByWineId wineId later out.2).1 = true
               /\ rack_slots (RackSlotModel.clearSlotByWineId wineId later out.2).2 !! slotId
                  = Some (RackSlotModel.clear later (RackSlotModel.assign wineId now slot)))
     end.
Proof.
  unfold RackSlotModel.assignWineToSlot.
  destruct (rack_slots db !! slotId) as [slot|] eqn:Hslot.
  - rewrite bool_decide_eq_true_2, andb_false_r by done. cbn [fst snd wines rack_slots].
    split; [done|]. split; [by intros other Hother; rewrite lookup_insert_ne|].
    unfold RackSlotModel.findBySlotId. cbn [rack_slots]. rewrite lookup_insert_eq.
    repeat split.
    + intros later. unfold RackSlotModel.clearSlot. cbn [rack_slots].
      rewrite lookup_insert_eq.
      unfold RackSlotModel.findBySlotId. cbn [fst rack_slots]. by rewrite lookup_insert_eq.
    + unfold RackSlotModel.clearSlotByWineId. cbn [fst rack_slots].
      apply bool_decide_eq_true.
      assert (size (filter (fun kv => bool_decide (wine_id kv.2 = Some wineId) = true)
                      (<[slotId := RackSlotModel.assign wineId now slot]> (rack_slots db)))
              <> 0); [|lia].
      apply (map_size_ne_0_lookup_2 _ slotId).
      exists (RackSlotModel.assign wineId now slot).
      apply map_lookup_filter_Some. rewrite lookup_insert_eq. split; [done|].
      cbn. by rewrite bool_decide_eq_true_2.
    + unfold RackSlotModel.clearSlotByWineId. cbn [snd rack_slots].
      rewrite lookup_fmap, lookup_insert_eq. cbn. by rewrite bool_decide_eq_true_2.
  - cbn [fst snd]. split; [done|]. split; [done|].
    unfold RackSlotModel.findBySlotId. by rewrite Hslot.
Qed.


Lemma assignWineToSlot_then_clear_witness :
  let out := RackSlotModel.assignWineToSlot false "A1" "w1" 1000 one_wine_cellar in
  wines out.2 = wines one_wine_cellar
  /\ (wine_id <$> RackSlotModel.findBySlotId "A1" out.2) = Some (Some "w1")
  /\ RackSlotModel.assignWineToSlot false "B7" "w1" 1000 one_wine_cellar
     = (Returned None, one_wine_cellar).
Proof.
  intros out.
  assert (is_Some (wines one_wine_cellar !! "w1")) as Hwine.
  { vm_compute. by eexists. }
  split; [|split].
  - by destruct (assignWineToSlot_then_clear false "A1" "w1" 1000 one_wine_cellar Hwine)
      as (Hwines & _).
  - destruct (assignWineToSlot_then_clear false "A1" "w1" 1000 one_wine_cellar Hwine)
      as (_ & _ & Hslot).
    change (rack_slots one_wine_cellar !! "A1") with (Some
      {| slot_id := "A1"; wine_id := Some "w1"; rack_number := 1;
         row := "A"; position := 1; x_coordinate := 10;
         y_coordinate := 10; width := 20; height := 80;
         is_occupied := true; last_updated := 0;
         slot_created_at := 0; slot_updated_at := 0 |}) in Hslot.
    destruct Hslot as (_ & Hfound & _). fold out in Hfound. by rewrite Hfound.
  - by destruct (assignWineToSlot_then_clear false "B7" "w1" 1000 one_wine_cellar Hwine)
      as (_ & _ & Hslot).
Defined.

(** *** The state of the rack *)

(** What the operations below make of the two tables: no wine goes, and a
    slot stays as it is or is freed. *)
Definition rack_step db db' : Prop :=
  (forall wineId, is_Some (wines db !! wineId) -> is_Some (wines db' !! wineId))
  /\ (forall k slot', rack_slots db' !! k = Some slot' ->
        exists slot, rack_slots db !! k = Some slot
          /\ (slot' = slot \/ (wine_id slot' = None /\ is_occupied slot' = false))).

Lemma rack_step_refl db : rack_step db db.
Proof. split; [done|]. intros k slot Hk. exists slot. auto. Qed.

Lemma rack_step_trans db1 db2 db3 :
  rack_step db1 db2 -> rack_step db2 db3 -> rack_step db1 db3.
Proof.
  intros [Hw12 Hs12] [Hw23 Hs23]. split; [auto|].
  intros k slot3 Hk. destruct (Hs23 k slot3 Hk) as (slot2 & Hk2 & H23).
  destruct (Hs12 k slot2 Hk2) as (slot1 & Hk1 & H12).
  exists slot1. split; [done|].
  destruct H23 as [->|?]; [done|by right].
Qed.

Lemma rack_step_consistent db db' :
  rack_step db db' -> rack_consistent db -> rack_consistent db'.
Proof.
  intros [Hwines Hslots] Hok k slot' Hk.
  destruct (Hslots k slot' Hk) as (slot & Hslot & [->|[Hnone Hfree]]).
  - destruct (Hok k slot Hslot) as [Hocc Hstored]. split; [done|]. eauto.
  - rewrite Hnone, Hfree. split; [|done]. split; [done|]. by intros [? ?].
Qed.

Lemma clearSlotByWineId_step wineId now db :
  rack_step db (RackSlotModel.clearSlotByWineId wineId now db).2.
Proof.
  split; [done|]. intros k slot'. unfold RackSlotModel.clearSlotByWineId.
  cbn [snd rack_slots]. rewrite lookup_fmap.
  destruct (rack_slots db !! k) as [slot|]; [|done]. cbn. intros [= <-].
  exists slot. split; [done|]. case_bool_decide; [by right|by left].
Qed.

Lemma update_row_step id columns schemaYear db :
  rack_step db (WineModel.update_row id columns schemaYear db).2.
Proof.
  unfold WineModel.update_row. destruct (wines db !! id) as [w|] eqn:Hw;
    [|apply rack_step_refl].
  destruct (wines_check _ _); [|apply rack_step_refl].
  split.
  - intros wineId Hin. cbn. destruct (decide (wineId = id)) as [->|Hne].
    + by rewrite lookup_insert_eq.
    + by rewrite lookup_insert_ne.
  - intros k slot Hk. exists slot. auto.
Qed.

Lemma update_step id updates schemaYear now db :
  rack_step db (WineModel.update id updates schemaYear now db).2.
Proof.
  unfold WineModel.update.
  case_bool_decide.
  - pose proof (clearSlotByWineId_step id now db) as Hclear.
    destruct (RackSlotModel.clearSlotByWineId id now db) as [hit db1]. cbn [snd] in Hclear.
    pose proof (update_row_step id
                  (WineModel.set_columns (WineModel.with_rack_slot_null updates) now)
                  schemaYear db1) as Hrow.
    destruct (WineModel.update_row _ _ _ db1) as [[r|] db2]; cbn [snd] in *;
      by eapply rack_step_trans.
  - pose proof (update_row_step id (WineModel.set_columns updates now) schemaYear db) as Hrow.
    by destruct (WineModel.update_row _ _ _ db) as [[r|] db2].
Qed.

Lemma markConsumed_step id consumedDate schemaYear now db :
  rack_step db (WineModel.markConsumed id consumedDate schemaYear now db).2.
Proof.
  unfold WineModel.markConsumed.
  pose proof (clearSlotByWineId_step id now db) as Hclear.
  destruct (RackSlotModel.clearSlotByWineId id now db) as [hit db1]. cbn [snd] in Hclear.
  pose proof (update_row_step id (WineModel.consumed_columns consumedDate now)
                schemaYear db1) as Hrow.
  destruct (WineModel.update_row _ _ _ db1) as [[r|] db2]; cbn [snd] in *;
    by eapply rack_step_trans.
Qed.

Lemma create_step uuid wineData schemaYear now db :
  rack_step db (WineModel.create uuid wineData schemaYear now db).2.
Proof.
  unfold WineModel.create. destruct (wines db !! uuid) eqn:Hfresh; [apply rack_step_refl|].
  destruct (wines_check _ _); [|apply rack_step_refl].
  unfold WineModel.findById. cbn [wines]. rewrite lookup_insert_eq. cbn [snd].
  split.
  - intros wineId Hin. cbn. destruct (decide (wineId = uuid)) as [->|Hne].
    + by rewrite lookup_insert_eq.
    + by rewrite lookup_insert_ne.
  - intros k slot Hk. exists slot. auto.
Qed.

Lemma post_wine_step body uuid currentYear schemaYear now db :
  rack_step db (post_wine body uuid currentYear schemaYear now db).2.
Proof.
  unfold post_wine.
  repeat match goal with
         | |- context [if ?b then _ else _] => destruct b; [apply rack_step_refl|]
         end.
  match goal with
  | |- context [WineModel.create ?u ?d ?y ?n ?db] =>
      pose proof (create_step u d y n db) as Hstep;
      destruct (WineModel.create u d y n db) as [[created|] db']
  end; done.
Qed.

Lemma put_wine_step id body currentYear schemaYear now db :
  rack_step db (put_wine id body currentYear schemaYear now db).2.
Proof.
  unfold put_wine. destruct (WineModel.findById id db); [|apply rack_step_refl].
  repeat match goal with
         | |- context [if ?b then _ else _] => destruct b; [apply rack_step_refl|]
         end.
  match goal with
  | |- context [WineModel.update ?i ?u ?y ?n ?db] =>
      pose proof (update_step i u y n db) as Hstep;
      destruct (WineModel.update i u y n db) as [[updated|] db']
  end; done.
Qed.

Lemma post_consume_step id body schemaYear now db :
  rack_step db (post_consume id body schemaYear now db).2.
Proof.
  unfold post_consume. destruct (WineModel.findById id db); [|apply rack_step_refl].
  destruct (String.eqb _ _); [apply rack_step_refl|].
  match goal with
  | |- context [WineModel.markConsumed ?i ?d ?y ?n ?db] =>
      pose proof (markConsumed_step i d y n db) as Hstep;
      destruct (WineModel.markConsumed i d y n db) as [[updated|] db']
  end; done.
Qed.

(** X19. As long as wines are not deleted, the rack stays consistent: a slot is
    marked occupied exactly when it names a wine, and that wine is stored.
    Assigning a stored wine to a slot, clearing slots, updating and
    consuming wines and the three writing routes all keep it so. *)
Theorem rack_consistent_kept db (Hok : rack_consistent db) :
  (forall foreign_keys slotId wineId now,
      is_Some (wines db !! wineId) ->
      rack_consistent (RackSlotModel.assignWineToSlot foreign_keys slotId wineId now db).2)
  /\ (forall slotId now, rack_consistent (RackSlotModel.clearSlot slotId now db).2)
  /\ (forall wineId now, rack_consistent (RackSlotModel.clearSlotByWineId wineId now db).2)
  /\ (forall id updates schemaYear now,
        rack_consistent (WineModel.update id updates schemaYear now db).2)
  /\ (forall id consumedDate schemaYear now,
        rack_consistent (WineModel.markConsumed id consumedDate schemaYear now db).2)
  /\ (forall body uuid currentYear schemaYear now,
        rack_consistent (post_wine body uuid currentYear schemaYear now db).2)
  /\ (forall id body currentYear schemaYear now,
        rack_consistent (put_wine id body currentYear schemaYear now db).2)
  /\ (forall id body schemaYear now,
        rack_consistent (post_consume id body schemaYear now db).2).
Proof.
  split.
  { intros foreign_keys slotId wineId now Hwine.
    unfold RackSlotModel.assignWineToSlot.
    destruct (rack_slots db !! slotId) as [slot|] eqn:Hslot; [|done].
    destruct (foreign_keys && _); [done|]. cbn [snd].
    intros k slot'. cbn [rack_slots wines].
    destruct (decide (k = slotId)) as [->|Hne].
    - rewrite lookup_insert_eq. intros [= <-]. cbn. split; [by split; [eexists|]|].
      by intros ? [= <-].
    - rewrite lookup_insert_ne by done. apply Hok. }
  split.
  { intros slotId now. unfold RackSlotModel.clearSlot. cbn [snd].
    destruct (rack_slots db !! slotId) as [slot|] eqn:Hslot; [|done].
    intros k slot'. cbn [rack_slots wines].
    destruct (decide (k = slotId)) as [->|Hne].
    - rewrite lookup_insert_eq. intros [= <-]. cbn. split; [|done].
      split; [done|]. by intros [? ?].
    - rewrite lookup_insert_ne by done. apply Hok. }
  split; [intros; eapply rack_step_consistent; [apply clearSlotByWineId_step|done]|].
  split; [intros; eapply rack_step_consistent; [apply update_step|done]|].
  split; [intros; eapply rack_step_consistent; [apply markConsumed_step|done]|].
  split; [intros; eapply rack_step_consistent; [apply post_wine_step|done]|].
  split; [intros; eapply rack_step_consistent; [apply put_wine_step|done]|].
  intros; eapply rack_step_consistent; [apply post_consume_step|done].
Qed.


Lemma one_wine_cellar_consistent : rack_consistent one_wine_cellar.
Proof.
  intros k slot Hk. unfold one_wine_cellar in Hk. cbn [rack_slots] in Hk.
  apply lookup_singleton_Some in Hk as [<- <-]. cbn. split.
  - split; [by eexists|done].
  - intros wineId [= <-]. vm_compute. by eexists.
Qed.

Lemma rack_consistent_kept_witness :
  rack_consistent (WineModel.markConsumed "w1" None 2025 1000 one_wine_cellar).2
  /\ rack_consistent (RackSlotModel.clearSlot "A1" 1000 one_wine_cellar).2.
Proof.
  destruct (rack_consistent_kept one_wine_cellar one_wine_cellar_consistent)
    as (_ & Hclear & _ & _ & Hconsumed & _).
  split; [apply Hconsumed|apply Hclear].
Defined.

(** *** Deleting a wine *)

(** X20. DELETE answers 404 for a wine that is not stored and 204 otherwise,
    never 500. The wine is gone afterwards and the other wines are as they
    were. Its slot is not freed: with foreign keys enforced the slot loses
    the id of the wine and stays marked occupied, without them it goes on
    naming the deleted wine. *)
Theorem delete_wine_keeps_slot_occupied (foreign_keys : bool) id db :
  match wines db !! id with
  | None => delete_wine foreign_keys id db = (Failure 404 "Wine not found", db)
  | Some wine =>
      let db' := (delete_wine foreign_keys id db).2 in
      (delete_wine foreign_keys id db).1 = Empty 204
      /\ get_wine id db' = Failure 404 "Wine not found"
      /\ (forall other, other <> id -> wines db' !! other = wines db !! other)
      /\ (forall k,
            rack_slots db' !! k =
              (if foreign_keys then WineModel.set_null id <$> rack_slots db !! k
               else rack_slots db !! k))
      /\ (forall k slot,
            rack_slots db !! k = Some slot -> wine_id slot = Some id ->
            is_occupied slot = true ->
            (exists slot', rack_slots db' !! k = Some slot'
               /\ is_occupied slot' = true
               /\ wine_id slot' = (if foreign_keys then None else Some id))
            /\ ~ rack_consistent db')
  end.
Proof.
  unfold delete_wine, WineModel.findById, WineModel.delete.
  destruct (wines db !! id) as [wine|] eqn:Hwine; [|done].
  cbn [fst snd]. rewrite bool_decide_eq_true_2 by lia. cbn [fst snd].
  split; [done|].
  split. { unfold get_wine, WineModel.findById. cbn [wines]. by rewrite lookup_delete_eq. }
  split. { intros other Hother. cbn [wines]. by rewrite lookup_delete_ne. }
  assert (forall k,
            rack_slots
              {| wines := base.delete id (wines db);
                 rack_slots := if foreign_keys then WineModel.set_null id <$> rack_slots db
                               else rack_slots db |} !! k =
              (if foreign_keys then WineModel.set_null id <$> rack_slots db !! k
               else rack_slots db !! k)) as Hslots.
  { intros k. cbn [rack_slots]. destruct foreign_keys; [by rewrite lookup_fmap|done]. }
  split; [done|].
  intros k slot Hk Hid Hocc.
  assert (exists slot',
            rack_slots
              {| wines := base.delete id (wines db);
                 rack_slots := if foreign_keys then WineModel.set_null id <$> rack_slots db
                               else rack_slots db |} !! k = Some slot'
            /\ is_occupied slot' = true
            /\ wine_id slot' = (if foreign_keys then None else Some id))
    as (slot' & Hk' & Hocc' & Hid').
  { rewrite Hslots, Hk. destruct foreign_keys.
    - eexists. split; [done|]. unfold WineModel.set_null.
      by rewrite bool_decide_eq_true_2.
    - by exists slot. }
  split; [by exists slot'|].
  intros Hok. destruct (Hok k slot' Hk') as [Hiff Hstored].
  destruct foreign_keys.
  - apply Hiff in Hocc'. rewrite Hid' in Hocc'. by destruct Hocc'.
  - destruct (Hstored id Hid') as [w Hw]. cbn [wines] in Hw.
    by rewrite lookup_delete_eq in Hw.
Qed.

(** The wine of slot A1 is deleted, and the slot stays marked occupied. *)
Example delete_wine_examples :
  let after fk := (delete_wine fk "w1" one_wine_cellar).2 in
  (delete_wine true "w1" one_wine_cellar).1 = Empty 204
  /\ ((fun slot => (wine_id slot, is_occupied slot)) <$> rack_slots (after true) !! "A1")
     = Some (None, true)
  /\ ((fun slot => (wine_id slot, is_occupied slot)) <$> rack_slots (after false) !! "A1")
     = Some (Some "w1", true)
  /\ (delete_wine false "w1" (after false)).1 = Failure 404 "Wine not found".
Proof. by vm_compute. Qed.

End RackFacts.

(** ** The routes *)

Section RouteFacts.
Import JS Cellar.

Implicit Types (db : Database) (id uuid : string) (body : Body)
  (now currentYear schemaYear : Z).

(** *** POST /api/wines *)

(** X21. POST answers 201, 400 or 500. With 201 the wine it sends is stored
    under the new id and can be read back; its text fields are the trimmed
    ones of the body, it is 'Available', was never consumed and has a
    currency. The rack is not written, even when the body names a rack
    slot. With 400 and 500 nothing is written. *)
Theorem post_wine_stores_the_wine body uuid currentYear schemaYear now db :
  let out := post_wine body uuid currentYear schemaYear now db in
  (status out.1 = 201%Z
   /\ wines db !! uuid = None
   /\ exists wine,
        payload out.1 = WineJson (Some wine)
        /\ wines out.2 = <[uuid := wine]> (wines db)
        /\ rack_slots out.2 = rack_slots db
        /\ get_wine uuid out.2 = Json 200 wine
        /\ wines_check schemaYear wine = true
        /\ Cellar.id wine = uuid
        /\ Some (name wine) = trim <$> b_name body
        /\ Some (vineyard wine) = trim <$> b_vineyard body
        /\ Some (region wine) = trim <$> b_region body
        /\ Some (grape_varieties wine) = map trim <$> b_grape_varieties body
        /\ rack_slot wine = trim <$> b_rack_slot body
        /\ consumption_status wine = "Available"
        /\ date_consumed wine = None
        /\ date_added wine = now
        /\ (exists c, currency wine = Some c /\ c <> ""))
  \/ ((status out.1 = 400%Z \/ status out.1 = 500%Z)
      /\ out.2 = db
      /\ exists error, payload out.1 = Error error).
Proof.
  unfold post_wine.
  destruct (negb (present (b_name body)) || _ || _ || _ || _) eqn:Hmissing;
    [right; cbn; eauto|].
  destruct (negb (includes_str _ _)); [right; cbn; eauto|].
  destruct (invalid_vintage_year _ _); [right; cbn; eauto|].
  destruct (invalid_rating _); [right; cbn; eauto|].
  repeat (apply orb_false_iff in Hmissing as [Hmissing ?]).
  unfold WineModel.create.
  destruct (wines db !! uuid) eqn:Hfresh; [right; cbn; eauto|].
  destruct (wines_check _ _) eqn:Hcheck; [|right; cbn; eauto].
  unfold WineModel.findById. cbn [wines]. rewrite lookup_insert_eq.
  left. cbn [fst snd status payload]. split; [done|]. split; [done|].
  eexists. split; [done|]. cbn [wines rack_slots].
  split; [done|]. split; [done|].
  split. { unfold get_wine, WineModel.findById. cbn [wines]. by rewrite lookup_insert_eq. }
  split; [done|]. cbn.
  destruct (b_name body), (b_vineyard body), (b_region body), (b_grape_varieties body);
    try done.
  repeat split.
  eexists. split; [done|].
  match goal with
  | |- (if String.eqb ?x "" then _ else _) <> "" => by destruct (String.eqb_spec x "")
  end.
Qed.

(** A wine posted with slot A1 is stored with that slot, and the rack is
    as before; a second POST that is given the same id fails. *)
Example post_wine_examples :
  let body := {| b_name := Some " Merlot "; b_vineyard := Some "Heritage Vineyards";
                 b_region := Some "Napa"; b_color := Some "Red";
                 b_grape_varieties := Some ["Merlot "]; b_price := None;
                 b_currency := None; b_vintage_year := Some 2019%float;
                 b_rack_slot := Some "B2"; b_consumption_status := Some "Consumed";
                 b_date_consumed := None; b_description := None;
                 b_personal_notes := None; b_rating := None; b_food_pairings := None;
                 b_consumed_date := None |} in
  let out := post_wine body "w2" 2025 2025 1000 one_wine_cellar in
  status out.1 = 201%Z
  /\ ((fun wine => (name wine, rack_slot wine, consumption_status wine, currency wine))
        <$> wines out.2 !! "w2")
     = Some ("Merlot", Some "B2", "Available", Some "USD")
  /\ rack_slots out.2 = rack_slots one_wine_cellar
  /\ status (post_wine body "w2" 2025 2025 2000 out.2).1 = 500%Z.
Proof. by vm_compute. Qed.


(** *** PUT /api/wines/:id *)

(** A field of the body, if given, or else the stored one. *)
Definition or_stored {A} (given stored : option A) : option A :=
  match given with
  | Some v => Some v
  | None => stored
  end.

(** X22. PUT on a stored wine answers 200, 400 or 500. With 200 the wine it
    sends is the stored one: each field that the body gives is written,
    text trimmed, and every other field is as it was, but for [updated_at]
    and, when the wine becomes 'Consumed', [rack_slot], which is reset. The
    id and the dates of creation never change. With 400 and 500 no wine is
    written, and other wines are never written. *)
Theorem put_wine_writes_given_fields id body currentYear schemaYear now db (old : Wine)
    (Hold : wines db !! id = Some old) :
  let out := put_wine id body currentYear schemaYear now db in
  (status out.1 = 200%Z \/ status out.1 = 400%Z \/ status out.1 = 500%Z)
  /\ (forall other, other <> id -> wines out.2 !! other = wines db !! other)
  /\ (status out.1 <> 200%Z -> wines out.2 = wines db)
  /\ (status out.1 = 200%Z ->
      exists wine,
        payload out.1 = WineJson (Some wine)
        /\ wines out.2 !! id = Some wine
        /\ wines_check schemaYear wine = true
        /\ Cellar.id wine = Cellar.id old
        /\ date_added wine = date_added old
        /\ created_at wine = created_at old
        /\ updated_at wine = now
        /\ name wine = default (name old) (trim <$> b_name body)
        /\ vineyard wine = default (vineyard old) (trim <$> b_vineyard body)
        /\ region wine = default (region old) (trim <$> b_region body)
        /\ color wine = default (color old) (trim <$> b_color body)
        /\ grape_varieties wine
           = default (grape_varieties old) (map trim <$> b_grape_varieties body)
        /\ price wine = or_stored (b_price body) (price old)
        /\ currency wine = or_stored (trim <$> b_currency body) (currency old)
        /\ vintage_year wine = or_stored (b_vintage_year body) (vintage_year old)
        /\ consumption_status wine
           = default (consumption_status old) (trim <$> b_consumption_status body)
        /\ rack_slot wine
           = (if bool_decide (consumption_status wine = "Consumed"
                              /\ is_Some (b_consumption_status body))
              then None
              else or_stored (trim <$> b_rack_slot body) (rack_slot old))
        /\ date_consumed wine = or_stored (b_date_consumed body) (date_consumed old)
        /\ description wine = or_stored (trim <$> b_description body) (description old)
        /\ personal_notes wine
           = or_stored (trim <$> b_personal_notes body) (personal_notes old)
        /\ rating wine = or_stored (b_rating body) (rating old)
        /\ food_pairings wine
           = or_stored (map trim <$> b_food_pairings body) (food_pairings old)).
Proof.
  unfold put_wine, WineModel.findById. rewrite Hold.
  destruct (present (b_color body) && _); [cbn; by intuition|].
  destruct (invalid_vintage_year _ _); [cbn; by intuition|].
  destruct (invalid_rating _); [cbn; by intuition|].
  destruct (present (b_consumption_status body) && _); [cbn; by intuition|].
  set (updateData := {| u_name := trim <$> b_name body |}).
  unfold WineModel.update.
  assert (u_consumption_status updateData = trim <$> b_consumption_status body) as Hstatus
    by done.
  destruct (bool_decide (u_consumption_status updateData = Some "Consumed")) eqn:Hconsumed.
  - apply bool_decide_eq_true in Hconsumed.
    pose proof (clearSlotByWineId_wines id now db) as Hwines.
    destruct (RackSlotModel.clearSlotByWineId id now db) as [hit db1]. cbn [snd] in Hwines.
    destruct (WineModel.update_row id _ schemaYear db1) as [[r|] db2] eqn:Hrow.
    + pose proof Hrow as Hcheck. apply update_row_returned in Hrow as [Hrow Hothers].
      rewrite Hwines, Hold in Hrow. cbn [fst snd status payload].
      split; [by left|]. split; [by intros other ?; rewrite Hothers, Hwines|].
      split; [done|]. intros _. eexists. unfold WineModel.findById.
      split; [by rewrite Hrow|]. split; [done|].
      split.
      { unfold WineModel.update_row in Hcheck. rewrite Hwines, Hold in Hcheck.
        by destruct (wines_check _ _). }
      cbn. rewrite Hstatus in Hconsumed. rewrite Hconsumed. cbn.
      rewrite bool_decide_eq_true_2.
      * done.
      * split; [done|]. destruct (b_consumption_status body); [by eexists|done].
    + apply update_row_thrown in Hrow as ->. cbn [fst snd status payload].
      split; [auto|]. split; [by intros other ?; rewrite Hwines|]. by split.
  - apply bool_decide_eq_false in Hconsumed.
    destruct (WineModel.update_row id _ schemaYear db) as [[r|] db2] eqn:Hrow.
    + pose proof Hrow as Hcheck. apply update_row_returned in Hrow as [Hrow Hothers].
      rewrite Hold in Hrow. cbn [fst snd status payload].
      split; [by left|]. split; [done|].
      split; [done|]. intros _. eexists. unfold WineModel.findById.
      split; [by rewrite Hrow|]. split; [done|].
      split.
      { unfold WineModel.update_row in Hcheck. rewrite Hold in Hcheck.
        by destruct (wines_check _ _). }
      cbn. rewrite Hstatus in Hconsumed.
      rewrite bool_decide_eq_false_2.
      * unfold or_stored. by destruct (b_rack_slot body).
      * intros [Hc Hgiven]. apply Hconsumed.
        destruct (b_consumption_status body) as [c|]; [|by destruct Hgiven].
        cbn in *. by rewrite Hc.
    + apply update_row_thrown in Hrow as ->. cbn [fst snd status payload].
      split; [auto|]. by split.
Qed.


(** Sending a rating alone writes the rating alone. *)
Lemma put_wine_writes_given_fields_witness :
  let body := {| b_name := None; b_vineyard := None; b_region := None; b_color := None;
                 b_grape_varieties := None; b_price := None; b_currency := None;
                 b_vintage_year := None; b_rack_slot := None;
                 b_consumption_status := None; b_date_consumed := None;
                 b_description := None; b_personal_notes := None;
                 b_rating := Some 95%float; b_food_pairings := None;
                 b_consumed_date := None |} in
  let out := put_wine "w1" body 2025 2025 1000 one_wine_cellar in
  exists wine,
    wines out.2 !! "w1" = Some wine
    /\ rating wine = Some 95%float
    /\ name wine = "Merlot"
    /\ rack_slot wine = Some "A1"
    /\ updated_at wine = 1000%Z.
Proof.
  intros body out.
  assert (exists old, wines one_wine_cellar !! "w1" = Some old) as [old Hold].
  { eexists. by vm_compute. }
  destruct (put_wine_writes_given_fields "w1" body 2025 2025 1000 one_wine_cellar old Hold)
    as (_ & _ & _ & Hwritten).
  destruct Hwritten as (wine & _ & Hwine & _ & _ & _ & _ & Hupdated & Hname & _ & _ & _ & _
                        & _ & _ & _ & _ & Hslot & _ & _ & _ & Hrating & _);
    [by vm_compute|].
  exists wine. split; [done|].
  vm_compute in Hold. injection Hold as <-.
  rewrite Hrating, Hname, Hupdated. repeat split.
  rewrite Hslot. rewrite bool_decide_eq_false_2; [done|].
  by intros [_ [? ?]].
Defined.

(** *** POST /api/wines/:id/consume *)




(** *** POST /api/wines/:id/auto-populate *)

(** The search of the route, with its limit of 1, always finds one wine:
    the mock API never fails. *)
Lemma searchWine_limit_1 currentYear query vintage opt_region scrapes :
  exists externalData,
    WineApiService.searchWine currentYear
      {| WineApiService.query := query; WineApiService.vintage := vintage;
         WineApiService.opt_region := opt_region;
         WineApiService.limit := Some 1%Z |} scrapes
    = [externalData]
    /\ ((exists e, WineApiService.searchVivino scrapes = WineApiService.Thrown e) ->
        exists mock,
          WineApiService.mockResults
            {| WineApiService.query := query; WineApiService.vintage := vintage;
               WineApiService.opt_region := opt_region;
               WineApiService.limit := Some 1%Z |} = [mock]
          /\ externalData = WineDataNormalizer.normalizeWineData currentYear mock).
Proof.
  unfold WineApiService.searchWine, WineApiService.searchWine_from.
  set (options := {| WineApiService.query := query |}).
  change (WineApiService.limit_or_10 options) with 1%Z.
  rewrite slice0_nonneg by lia. change (Z.to_nat 1) with 1.
  set (results := match WineApiService.searchVivino scrapes with
                  | WineApiService.Returned found => [] ++ found
                  | WineApiService.Thrown _ => []
                  end ++ WineApiService.mockResults options).
  pose proof (removeDuplicates_head
                (map (WineDataNormalizer.normalizeWineData currentYear) results)) as Hhead.
  destruct (WineDataNormalizer.removeDuplicates _) as [|externalData unique] eqn:Hunique.
  - exfalso. unfold results in Hhead.
    destruct (WineApiService.searchVivino scrapes) as [[|? ?]|]; done.
  - exists externalData. split; [done|].
    intros [e He]. eexists. split; [done|].
    unfold results in Hhead. rewrite He in Hhead. cbn in Hhead. by injection Hhead.
Qed.

(** X24. The route never answers that no external data was found, and it only
    fills what is empty: a description, a rating, a price with its
    currency or food pairings that the wine has are kept, and so is every
    other field but [updated_at]. Neither the other wines nor the rack are
    written. *)
Theorem auto_populate_fills_only_empty_fields id (toString : number -> string)
    scrapes currentYear schemaYear now db (wine : Wine)
    (Hwine : wines db !! id = Some wine) :
  let out := auto_populate id toString scrapes currentYear schemaYear now db in
  out.1 <> Json 200 (NotPopulated "No external data found for this wine")
  /\ rack_slots out.2 = rack_slots db
  /\ (forall other, other <> id -> wines out.2 !! other = wines db !! other)
  /\ exists wine',
       wines out.2 !! id = Some wine'
       /\ (present (description wine) = true -> description wine' = description wine)
       /\ (truthy_opt (rating wine) = true -> rating wine' = rating wine)
       /\ (truthy_opt (price wine) = true ->
           price wine' = price wine /\ currency wine' = currency wine)
       /\ (forall pairing pairings, food_pairings wine = Some (pairing :: pairings) ->
           food_pairings wine' = food_pairings wine)
       /\ Cellar.id wine' = Cellar.id wine /\ name wine' = name wine
       /\ vineyard wine' = vineyard wine /\ region wine' = region wine
       /\ color wine' = color wine /\ grape_varieties wine' = grape_varieties wine
       /\ vintage_year wine' = vintage_year wine /\ rack_slot wine' = rack_slot wine
       /\ consumption_status wine' = consumption_status wine
       /\ date_consumed wine' = date_consumed wine
       /\ personal_notes wine' = personal_notes wine
       /\ date_added wine' = date_added wine /\ created_at wine' = created_at wine.
Proof.
  unfold auto_populate, WineModel.findById. rewrite Hwine.
  match goal with
  | |- context [WineApiService.searchWine ?y {| WineApiService.query := ?q;
                  WineApiService.vintage := ?v; WineApiService.opt_region := ?r;
                  WineApiService.limit := _ |} ?s] =>
      destruct (searchWine_limit_1 y q v r s) as (externalData & -> & _)
  end.
  set (updateData := populate wine externalData).
  destruct (updated_keys updateData) as [|key keys].
  { cbn [fst snd]. split; [done|]. split; [done|]. split; [done|].
    exists wine. by repeat split. }
  unfold WineModel.update. rewrite bool_decide_eq_false_2 by done.
  pose proof (update_row_rack_slots id (WineModel.set_columns updateData now) schemaYear db)
    as Hslots.
  destruct (WineModel.update_row id _ schemaYear db) as [[r|] db'] eqn:Hrow.
  - apply update_row_returned in Hrow as [Hrow Hothers]. rewrite Hwine in Hrow.
    cbn [fst snd] in *. split; [done|]. split; [done|]. split; [done|].
    eexists. split; [done|]. cbn.
    split. { intros Hhas. by rewrite Hhas. }
    split. { intros Hhas. by rewrite Hhas. }
    split. { intros Hhas. by rewrite Hhas. }
    split. { intros pairing pairings Hhas. by rewrite Hhas. }
    by repeat split.
  - apply update_row_thrown in Hrow as ->.
    cbn [fst snd]. split; [done|]. split; [done|]. split; [done|].
    exists wine. by repeat split.
Qed.


Lemma auto_populate_fills_only_empty_fields_witness :
  let out := auto_populate "w1" (fun _ => "2019")
               (fun _ => WineApiService.Thrown WineApiService.undefined_error)
               2025 2025 1000 one_wine_cellar in
  exists wine',
    wines out.2 !! "w1" = Some wine'
    /\ rating wine' = Some 92%float
    /\ name wine' = "Merlot"
    /\ rack_slot wine' = Some "A1".
Proof.
  intros out.
  assert (exists wine, wines one_wine_cellar !! "w1" = Some wine) as [wine Hwine].
  { eexists. by vm_compute. }
  destruct (auto_populate_fills_only_empty_fields "w1" (fun _ => "2019")
              (fun _ => WineApiService.Thrown WineApiService.undefined_error)
              2025 2025 1000 one_wine_cellar wine Hwine)
    as (_ & _ & _ & wine' & Hwine' & _ & Hrating & _ & _ & _ & Hname & _ & _ & _ & _ & _
        & Hslot & _).
  exists wine'. split; [done|].
  vm_compute in Hwine. injection Hwine as <-.
  rewrite Hrating, Hname, Hslot; by vm_compute.
Defined.

(** When every attempt on Vivino fails, the search ends with an error. *)
Lemma searchVivino_down scrapes :
  (forall attempt, exists e, scrapes attempt = WineApiService.Thrown e) ->
  exists e, WineApiService.searchVivino scrapes = WineApiService.Thrown e.
Proof.
  intros Hdown. unfold WineApiService.searchVivino,
    WineApiService.retryWithExponentialBackoff, WineApiService.MAX_RETRIES.
  cbn [WineApiService.retry_loop].
  destruct (Hdown 0) as [e0 ->]. destruct (WineApiService.isNonRetryableError e0); [by eexists|].
  destruct (Hdown 1) as [e1 ->]. destruct (WineApiService.isNonRetryableError e1); [by eexists|].
  destruct (Hdown 2) as [e2 ->]. destruct (WineApiService.isNonRetryableError e2); by eexists.
Qed.

(** X25. While Vivino cannot be reached, the data of the mock wine API is what
    the route writes: a wine without description gets the description of
    the mock, one without rating the rating 92, one without price 38.50
    USD, and one without food pairings salmon, duck and mushroom dishes. *)
Theorem auto_populate_writes_mock_data id (toString : number -> string)
    scrapes currentYear schemaYear now db (wine : Wine)
    (Hdown : forall attempt, exists e, scrapes attempt = WineApiService.Thrown e)
    (Hwine : wines db !! id = Some wine)
    (Hcheck : wines_check schemaYear wine = true) :
  let out := auto_populate id toString scrapes currentYear schemaYear now db in
  exists wine',
    wines out.2 !! id = Some wine'
    /\ description wine' =
         (if present (description wine) then description wine
          else Some "Elegant wine with bright acidity and cherry flavors.")
    /\ rating wine' = (if truthy_opt (rating wine) then rating wine else Some 92%float)
    /\ price wine' = (if truthy_opt (price wine) then price wine else Some 38.5%float)
    /\ currency wine' = (if truthy_opt (price wine) then currency wine else Some "USD")
    /\ food_pairings wine' =
         match food_pairings wine with
         | Some (pairing :: pairings) => Some (pairing :: pairings)
         | _ => Some ["Salmon"; "Duck"; "Mushroom dishes"]
         end
    /\ (out.1 = Json 200 (NotPopulated "Wine already has complete information")
        \/ exists fields,
             out.1 = Json 200 (Populated "Wine details updated from external sources"
                                 fields (Some wine') WineDataNormalizer.wine_api)).
Proof.
  unfold auto_populate, WineModel.findById. rewrite Hwine.
  match goal with
  | |- context [WineApiService.searchWine ?y {| WineApiService.query := ?q;
                  WineApiService.vintage := ?v; WineApiService.opt_region := ?r;
                  WineApiService.limit := _ |} ?s] =>
      destruct (searchWine_limit_1 y q v r s) as (externalData & -> & Hmock)
  end.
  destruct (Hmock (searchVivino_down scrapes Hdown)) as (mock & Hm & ->). clear Hmock.
  injection Hm as <-.
  set (externalData := WineDataNormalizer.normalizeWineData _ _).
  assert (WineDataNormalizer.description externalData
            = Some "Elegant wine with bright acidity and cherry flavors."
          /\ WineDataNormalizer.rating externalData = Some 92%float
          /\ WineDataNormalizer.price externalData = Some 38.5%float
          /\ WineDataNormalizer.currency externalData = Some "USD"
          /\ WineDataNormalizer.food_pairings externalData
             = Some ["Salmon"; "Duck"; "Mushroom dishes"]
          /\ WineDataNormalizer.source externalData = WineDataNormalizer.wine_api)
    as (Hd & Hr & Hp & Hc & Hf & Hs).
  { repeat split; by vm_compute. }
  clearbody externalData.
  assert (wines_check schemaYear
            (WineModel.set_columns (populate wine externalData) now wine) = true) as Hvalid.
  { unfold wines_check in *.
    apply andb_prop in Hcheck as [[[Hcolor Hstatus]%andb_prop Hvintage]%andb_prop Hrating].
    change (color (WineModel.set_columns (populate wine externalData) now wine))
      with (color wine).
    change (consumption_status (WineModel.set_columns (populate wine externalData) now wine))
      with (consumption_status wine).
    change (vintage_year (WineModel.set_columns (populate wine externalData) now wine))
      with (vintage_year wine).
    rewrite Hcolor, Hstatus, Hvintage. cbn [andb].
    cbn [rating WineModel.set_columns populate u_rating]. rewrite Hr.
    destruct (truthy_opt (rating wine)); cbn [negb andb]; [done|].
    change (truthy_opt (Some 92%float)) with true. cbn iota. by vm_compute. }
  unfold updated_keys, populate. cbn [u_description u_rating u_food_pairings u_price].
  rewrite Hd, Hr, Hp, Hf. cbn [present truthy_opt String.eqb negb].
  change (truthy 92%float) with true. change (truthy 38.5%float) with true.
  rewrite !andb_true_r.
  destruct (present (description wine)) eqn:Hhas_d, (truthy_opt (rating wine)) eqn:Hhas_r,
    (truthy_opt (price wine)) eqn:Hhas_p, (food_pairings wine) as [[|pairing pairings]|] eqn:Hhas_f;
    cbn [negb app bool_decide decide_rel is_Some_dec];
    try (cbn [fst snd]; exists wine; rewrite Hwine; repeat split; auto; fail);
    (unfold WineModel.update; rewrite bool_decide_eq_false_2 by done;
     unfold WineModel.update_row; rewrite Hwine;
     unfold populate in Hvalid; rewrite Hd, Hr, Hp, Hf, Hhas_d, Hhas_r, Hhas_p, Hhas_f in Hvalid;
     cbn [present truthy_opt String.eqb negb andb] in Hvalid;
     change (truthy 92%float) with true in Hvalid;
     change (truthy 38.5%float) with true in Hvalid;
     cbn [andb] in Hvalid; rewrite Hvalid;
     unfold WineModel.findById; cbn [wines fst snd]; rewrite lookup_insert_eq;
     eexists; split; [done|]; cbn; rewrite ?Hhas_d, ?Hhas_r, ?Hhas_p, ?Hhas_f, ?Hc, ?Hs;
     repeat split; right; by eexists).
Qed.


Lemma auto_populate_writes_mock_data_witness :
  let out := auto_populate "w1" (fun _ => "2019")
               (fun _ => WineApiService.Thrown WineApiService.undefined_error)
               2025 2025 1000 one_wine_cellar in
  exists wine',
    wines out.2 !! "w1" = Some wine'
    /\ description wine' = Some "Elegant wine with bright acidity and cherry flavors."
    /\ rating wine' = Some 92%float
    /\ price wine' = Some 38.5%float.
Proof.
  intros out.
  assert (exists wine, wines one_wine_cellar !! "w1" = Some wine
                       /\ wines_check 2025 wine = true) as (wine & Hwine & Hcheck).
  { eexists. split; by vm_compute. }
  destruct (auto_populate_writes_mock_data "w1" (fun _ => "2019")
              (fun _ => WineApiService.Thrown WineApiService.undefined_error)
              2025 2025 1000 one_wine_cellar wine)
    as (wine' & Hwine' & Hdescription & Hrating & Hprice & _); [by eexists|done|done|].
  exists wine'. split; [done|].
  vm_compute in Hwine. injection Hwine as <-.
  by rewrite Hdescription, Hrating, Hprice.
Defined.

(** *** GET /api/wines/:id/food-pairings *)

(** The pairings of a colour, and those that a grape variety adds. *)
Definition colour_pairings (wine_color : option string) : list string :=
  match wine_color with
  | Some "Red" => ["Red meat"; "Hard cheese"; "Dark chocolate"]
  | Some "White" => ["Fish"; "Poultry"; "Soft cheese"]
  | Some "Rosé" => ["Salmon"; "Light pasta"; "Fruit desserts"]
  | Some "Sparkling" => ["Appetizers"; "Seafood"; "Celebration dishes"]
  | Some "Dessert" => ["Desserts"; "Blue cheese"; "Foie gras"]
  | Some "Fortified" => ["Nuts"; "Dried fruits"; "Strong cheese"]
  | _ => []
  end.
Definition grape_pairings (pairings : list string) (grape : string) : list string :=
  match toLowerCase grape with
  | "cabernet sauvignon" => pairings ++ ["Grilled steak"; "Lamb chops"]
  | "pinot noir" => pairings ++ ["Duck"; "Mushroom risotto"]
  | "chardonnay" => pairings ++ ["Lobster"; "Cream sauces"]
  | "sauvignon blanc" => pairings ++ ["Goat cheese"; "Shellfish"]
  | _ => pairings
  end.

Lemma suggestFoodPairings_unfold wine_color wine_grape_varieties s now late :
  WineApiService.suggestFoodPairings wine_color wine_grape_varieties s now late
  = (WineDataNormalizer.first_occurrences []
       match wine_grape_varieties with
       | Some grapes => fold_left grape_pairings grapes (colour_pairings wine_color)
       | None => colour_pairings wine_color
       end,
     (WineApiService.rateLimit s now late).1).
Proof. reflexivity. Qed.

Lemma grape_pairings_extends pairings grape :
  exists added, grape_pairings pairings grape = pairings ++ added.
Proof.
  unfold grape_pairings. generalize (toLowerCase grape). intros lowered.
  repeat match goal with
         | |- context [match ?x with _ => _ end] => destruct x
         end;
    first [by eexists | by exists []; rewrite app_nil_r].
Qed.

Lemma fold_grape_pairings_extends grapes pairings :
  exists added, fold_left grape_pairings grapes pairings = pairings ++ added.
Proof.
  revert pairings. induction grapes as [|grape grapes IH]; intros pairings.
  - exists []. by rewrite app_nil_r.
  - cbn [fold_left]. destruct (grape_pairings_extends pairings grape) as [added ->].
    destruct (IH (pairings ++ added)) as [more ->].
    exists (added ++ more). by rewrite app_assoc.
Qed.

Lemma suggestFoodPairings_spec wine_color wine_grape_varieties s now late :
  let out := WineApiService.suggestFoodPairings wine_color wine_grape_varieties s now late in
  NoDup out.1
  /\ out.2 = (WineApiService.rateLimit s now late).1
  /\ (forall c, wine_color = Some c -> c ∈ validColors -> 3 <= length out.1).
Proof.
  rewrite suggestFoodPairings_unfold. cbn [fst snd].
  split; [apply first_occurrences_NoDup|]. split; [done|].
  intros c -> Hc.
  assert (NoDup (colour_pairings (Some c)) /\ length (colour_pairings (Some c)) = 3)
    as [Hdistinct Hthree].
  { unfold validColors in Hc.
    repeat (apply elem_of_cons in Hc as [->|Hc];
            [split; [by apply (bool_decide_unpack _)|done]|]).
    by apply elem_of_nil in Hc. }
  assert (exists more,
            match wine_grape_varieties with
            | Some grapes => fold_left grape_pairings grapes (colour_pairings (Some c))
            | None => colour_pairings (Some c)
            end = colour_pairings (Some c) ++ more) as [more ->].
  { destruct wine_grape_varieties as [grapes|]; [apply fold_grape_pairings_extends|].
    exists []. by rewrite app_nil_r. }
  rewrite <- Hthree.
  apply submseteq_length, NoDup_submseteq; [done|].
  intros pairing Hin. apply first_occurrences_elem. split; [|by apply not_elem_of_nil].
  apply elem_of_app. by left.
Qed.

(** X26. For a wine that is not stored the route answers 404 and the service is
    not asked. For a stored wine it counts one request and answers with
    suggestions of which none comes twice, however often a grape variety
    is listed, and of which there are at least three when the colour is
    one of the six of the table. *)
Theorem get_food_pairings_distinct id db (s : WineApiService.Service) now late :
  match wines db !! id with
  | None => get_food_pairings id db s now late = (Failure 404 "Wine not found", s)
  | Some wine =>
      exists suggestions,
        get_food_pairings id db s now late
        = (Json 200 (SuggestionsFor (Cellar.id wine) (name wine) suggestions),
           (WineApiService.rateLimit s now late).1)
        /\ NoDup suggestions
        /\ (color wine ∈ validColors -> 3 <= length suggestions)
  end.
Proof.
  unfold get_food_pairings, WineModel.findById.
  destruct (wines db !! id) as [wine|]; [|done].
  destruct (suggestFoodPairings_spec (Some (color wine)) (Some (grape_varieties wine))
              s now late) as (Hdistinct & Hservice & Hthree).
  destruct (WineApiService.suggestFoodPairings _ _ s now late) as [suggestions s'].
  cbn [fst snd] in *. exists suggestions. rewrite Hservice.
  split; [done|]. split; [done|]. intros Hcolor. by eapply Hthree.
Qed.

(** Two grape varieties listed twice each: five suggestions for a
    Cabernet, and eight for a blend with Pinot Noir and Chardonnay. *)
Example suggestFoodPairings_examples :
  (WineApiService.suggestFoodPairings (Some "Red")
     (Some ["Cabernet Sauvignon"; "cabernet sauvignon"]) WineApiService.initial 0 0).1
  = ["Red meat"; "Hard cheese"; "Dark chocolate"; "Grilled steak"; "Lamb chops"]
  /\ (WineApiService.suggestFoodPairings (Some "Rosé")
        (Some ["Pinot Noir"; "Chardonnay"; "PINOT NOIR"]) WineApiService.initial 0 0).1
     = ["Salmon"; "Light pasta"; "Fruit desserts"; "Duck"; "Mushroom risotto"; "Lobster";
        "Cream sauces"]
  /\ (WineApiService.suggestFoodPairings (Some "Orange") None WineApiService.initial 0 0).1
     = [].
Proof. by vm_compute. Qed.

End RouteFacts.

(** ** Statistics *)

Section StatisticsFacts.
Import JS Cellar WineModel.

Implicit Types (table : gmap string Wine) (rows : list (string * Z)).

Lemma count_where_insert p table k w :
  table !! k = None ->
  count_where p (<[k := w]> table)
  = (count_where p table + (if p w then 1 else 0))%Z.
Proof.
  intros Hk. unfold count_where.
  destruct (p w) eqn:Hp.
  - rewrite map_filter_insert_True by done.
    rewrite map_size_insert_None; [lia|].
    by rewrite map_lookup_filter_None; left.
  - rewrite map_filter_insert_not'; [lia| |by intros y; rewrite Hk].
    simpl. by rewrite Hp.
Qed.

Lemma count_where_empty p : count_where p ∅ = 0%Z.
Proof. unfold count_where. by rewrite map_filter_empty, map_size_empty. Qed.

Lemma count_where_nonneg p table : (0 <= count_where p table)%Z.
Proof. unfold count_where. lia. Qed.

Lemma count_where_pos p table :
  (0 < count_where p table)%Z <-> exists k w, table !! k = Some w /\ p w = true.
Proof.
  unfold count_where. split.
  - intros H.
    assert (size (filter (fun kv => p kv.2 = true) table) <> 0) as Hne by lia.
    apply map_size_ne_0_lookup in Hne as (k & w & Hkw).
    
    apply map_lookup_filter_Some in Hkw as [Hkw Hp]. by exists k, w.
  - intros (k & w & Hkw & Hp).
    assert (size (filter (fun kv => p kv.2 = true) table) <> 0); [|lia].
    apply (map_size_ne_0_lookup_2 _ k). exists w.
    by apply map_lookup_filter_Some.
Qed.

Lemma groupBy_keys column table :
  (groupBy column table).*1 = remove_dups (column <$> (map_to_list table).*2).
Proof.
  unfold groupBy. rewrite <- list_fmap_compose.
  by rewrite <- (list_fmap_id (remove_dups _)) at 2.
Qed.

Lemma groupBy_NoDup column table : NoDup (groupBy column table).*1.
Proof. rewrite groupBy_keys. apply NoDup_remove_dups. Qed.

Lemma groupBy_elem column table value count :
  (value, count) ∈ groupBy column table
  <-> count = count_where (fun w => String.eqb (column w) value) table
      /\ (0 < count)%Z.
Proof.
  unfold groupBy. rewrite list_elem_of_fmap. split.
  - intros (v & [= -> ->] & Hv). split; [done|].
    apply elem_of_remove_dups, list_elem_of_fmap in Hv as (w & -> & Hw).
    apply list_elem_of_fmap in Hw as ([k w'] & -> & Hkw).
    apply elem_of_map_to_list in Hkw.
    apply count_where_pos. exists k, w'. split; [done|]. simpl. apply String.eqb_refl.
  - intros [-> Hpos]. exists value. split; [done|].
    apply count_where_pos in Hpos as (k & w & Hkw & Hw%String.eqb_eq).
    apply elem_of_remove_dups, list_elem_of_fmap. exists w. split; [done|].
    apply list_elem_of_fmap. exists (k, w). split; [done|].
    by apply elem_of_map_to_list.
Qed.

Lemma set_counts_snoc rows row :
  set_counts (rows ++ [row])
  = if String.eqb row.1 "__proto__" then set_counts rows
    else <[row.1 := row.2]> (set_counts rows).
Proof. unfold set_counts. by rewrite fold_left_app. Qed.

Lemma set_counts_lookup rows key count :
  NoDup rows.*1 ->
  set_counts rows !! key = Some count
  <-> key <> "__proto__" /\ (key, count) ∈ rows.
Proof.
  induction rows as [|[key' count'] rows IH] using rev_ind; intros Hkeys.
  - unfold set_counts; simpl. rewrite lookup_empty. split; [done|].
    by intros [_ H%elem_of_nil].
  - rewrite fmap_app in Hkeys. apply NoDup_app in Hkeys as (Hkeys & Hnew & _).
    specialize (IH Hkeys). rewrite set_counts_snoc, elem_of_app, list_elem_of_singleton.
    simpl. destruct (String.eqb key' "__proto__") eqn:Hproto.
    + apply String.eqb_eq in Hproto as ->. rewrite IH. split; [tauto|].
      intros [Hkey [H|[= -> ->]]]; done.
    + apply String.eqb_neq in Hproto. destruct (decide (key = key')) as [->|Hne].
      * rewrite lookup_insert_eq. split.
        -- intros [= ->]. auto.
        -- intros [_ [H|[= ->]]]; [|done]. exfalso. apply (Hnew key'); [|by left].
           apply list_elem_of_fmap. by exists (key', count).
      * rewrite lookup_insert_ne by done. rewrite IH. split; [tauto|].
        intros [Hkey [H|[= -> ->]]]; done.
Qed.

Lemma set_counts_size rows : size (set_counts rows) <= length rows.
Proof.
  induction rows as [|row rows IH] using rev_ind; [done|].
  rewrite set_counts_snoc, length_app. simpl.
  destruct (String.eqb row.1 "__proto__"); [lia|].
  rewrite map_size_insert.
  destruct (set_counts rows !! row.1); simpl; lia.
Qed.

#[local] Instance count_desc_transitive : Transitive count_desc.
Proof. unfold count_desc. intros a b c. lia. Qed.

#[local] Instance count_desc_total : Total count_desc.
Proof. unfold count_desc. intros a b. lia. Qed.

Lemma top_ten_spec rows :
  length (top_ten rows) <= 10
  /\ (NoDup rows.*1 -> NoDup (top_ten rows).*1)
  /\ (forall row, row ∈ top_ten rows -> row ∈ rows)
  /\ (forall row other,
        row ∈ top_ten rows -> other ∈ rows -> other ∉ top_ten rows ->
        (other.2 <= row.2)%Z).
Proof.
  unfold top_ten.
  pose proof (merge_sort_Permutation count_desc rows) as Hperm.
  pose proof (StronglySorted_merge_sort count_desc rows) as Hsorted.
  set (sorted := merge_sort count_desc rows) in *.
  split; [rewrite length_take; lia|]. split; [|split].
  - intros Hkeys. rewrite <- Hperm in Hkeys.
    rewrite <- (take_drop 10 sorted), fmap_app in Hkeys.
    by apply NoDup_app in Hkeys as [? _].
  - intros row Hrow. rewrite <- Hperm.
    rewrite <- (take_drop 10 sorted). apply elem_of_app. by left.
  - intros row other Hrow Hother Hnot.
    rewrite <- Hperm, <- (take_drop 10 sorted), elem_of_app in Hother.
    destruct Hother as [?|Hother]; [done|].
    rewrite <- (take_drop 10 sorted) in Hsorted.
    by apply (StronglySorted_app_1_elem_of _ _ _ row other Hsorted).
Qed.

(** The number of [stats] that a status is counted in. *)
Definition status_field (status : string) (stats : Statistics) : Z :=
  if String.eqb status "Available" then available stats
  else if String.eqb status "Consumed" then consumed stats
  else reserved stats.

Lemma set_status_field row stats status :
  row.1 ∈ validStatuses -> status ∈ validStatuses ->
  total (set_status stats row) = total stats
  /\ status_field status (set_status stats row)
     = if String.eqb row.1 status then row.2 else status_field status stats.
Proof.
  destruct row as [key count], stats. unfold validStatuses. simpl.
  intros Hkey Hstatus.
  repeat (apply elem_of_cons in Hkey as [->|Hkey]); try (by apply elem_of_nil in Hkey);
    repeat (apply elem_of_cons in Hstatus as [->|Hstatus]);
    try (by apply elem_of_nil in Hstatus); by vm_compute.
Qed.

Lemma set_status_fold rows stats status :
  NoDup rows.*1 ->
  (forall row, row ∈ rows -> row.1 ∈ validStatuses) ->
  status ∈ validStatuses ->
  let result := fold_left set_status rows stats in
  total result = total stats
  /\ (forall count, (status, count) ∈ rows -> status_field status result = count)
  /\ (status ∉ rows.*1 -> status_field status result = status_field status stats).
Proof.
  intros Hkeys Hvalid Hstatus. revert stats Hkeys Hvalid.
  induction rows as [|row rows IH]; intros stats Hkeys Hvalid; simpl.
  - split; [done|]. split; [by intros ? ?%elem_of_nil|done].
  - rewrite fmap_cons in Hkeys. apply NoDup_cons in Hkeys as [Hnew Hkeys].
    destruct (IH (set_status stats row) Hkeys) as (Htotal & Hin & Hout).
    { intros r Hr. apply Hvalid. by right. }
    destruct (set_status_field row stats status) as [Htotal' Hfield];
      [apply Hvalid; by left|done|].
    split; [by rewrite Htotal|]. split.
    + intros count [<-|Hcount]%elem_of_cons; [|by apply Hin].
      rewrite Hout by done. rewrite Hfield. simpl. by rewrite String.eqb_refl.
    + intros Hnot. apply not_elem_of_cons in Hnot as [Hne Hnot].
      rewrite Hout by done. rewrite Hfield.
      destruct (String.eqb row.1 status) eqn:Heq; [|done].
      by apply String.eqb_eq in Heq.
Qed.

Lemma status_counts_sum table :
  (forall k w, table !! k = Some w -> consumption_status w ∈ validStatuses) ->
  (count_where (fun w => String.eqb (consumption_status w) "Available") table
   + count_where (fun w => String.eqb (consumption_status w) "Consumed") table
   + count_where (fun w => String.eqb (consumption_status w) "Reserved") table
   = Z.of_nat (size table))%Z.
Proof.
  induction table as [|k w table Hk _ IH] using map_first_key_ind; intros Hvalid.
  - by rewrite !count_where_empty, map_size_empty.
  - rewrite !count_where_insert, map_size_insert_None by done.
    assert (consumption_status w ∈ validStatuses) as Hw.
    { apply (Hvalid k). by rewrite lookup_insert_eq. }
    assert (forall k' w', table !! k' = Some w' -> consumption_status w' ∈ validStatuses)
      as Hrest.
    { intros k' w' Hkw. apply (Hvalid k').
      rewrite lookup_insert_ne; [done|]. intros ->. by rewrite Hk in Hkw. }
    specialize (IH Hrest). unfold validStatuses in Hw.
    repeat (apply elem_of_cons in Hw as [->|Hw]); try (by apply elem_of_nil in Hw);
      simpl; lia.
Qed.

Lemma status_count db status :
  (forall k w, wines db !! k = Some w -> consumption_status w ∈ validStatuses) ->
  status ∈ validStatuses ->
  status_field status (getStatistics db)
  = count_where (fun w => String.eqb (consumption_status w) status) (wines db).
Proof.
  intros Hvalid Hstatus.
  set (rows := groupBy consumption_status (wines db)).
  set (stats0 := {| total := Z.of_nat (size (wines db)); available := 0;
                    consumed := 0; reserved := 0; colors := ∅; regions := ∅ |}).
  destruct (set_status_fold rows stats0 status) as (_ & Hin & Hout);
    [apply groupBy_NoDup| |done|].
  { intros [value count] (-> & Hpos)%groupBy_elem.
    apply count_where_pos in Hpos as (k & w & Hkw & <-%String.eqb_eq).
    by apply (Hvalid k). }
  change (status_field status (getStatistics db))
    with (status_field status (fold_left set_status rows stats0)).
  set (count := count_where _ _).
  destruct (decide (0 < count)%Z) as [Hpos|Hzero].
  - apply Hin. by apply groupBy_elem.
  - rewrite Hout.
    + pose proof (count_where_nonneg
                    (fun w => String.eqb (consumption_status w) status) (wines db)).
      unfold stats0, status_field. simpl. fold count in H.
      destruct (String.eqb status "Available"), (String.eqb status "Consumed"); lia.
    + intros ([value n] & -> & Hrow)%list_elem_of_fmap.
      apply groupBy_elem in Hrow as [-> Hpos]. done.
Qed.

(** X27. The statistics count every wine once: the wines of each status, which
    add up to the total, and the wines of each colour; of the regions they
    list at most ten, each with its number of wines, and no region that is
    left out has more wines than one that is listed. *)
Theorem getStatistics_counts (db : Database) :
  (forall k w, wines db !! k = Some w -> consumption_status w ∈ validStatuses) ->
  let stats := getStatistics db in
  let count column value :=
    count_where (fun w => String.eqb (column w) value) (wines db) in
  total stats = Z.of_nat (size (wines db))
  /\ available stats = count consumption_status "Available"
  /\ consumed stats = count consumption_status "Consumed"
  /\ reserved stats = count consumption_status "Reserved"
  /\ (available stats + consumed stats + reserved stats = total stats)%Z
  /\ (forall c n, colors stats !! c = Some n
                  <-> c <> "__proto__" /\ n = count color c /\ (0 < n)%Z)
  /\ size (regions stats) <= 10
  /\ (forall r n, regions stats !! r = Some n -> n = count region r /\ (0 < n)%Z)
  /\ (forall r n r',
        regions stats !! r = Some n -> regions stats !! r' = None ->
        r' <> "__proto__" -> (count region r' <= n)%Z).
Proof.
  intros Hvalid stats count.
  assert (available stats = count consumption_status "Available") as Havailable.
  { apply (status_count db "Available" Hvalid). by left. }
  assert (consumed stats = count consumption_status "Consumed") as Hconsumed.
  { apply (status_count db "Consumed" Hvalid). right. by left. }
  assert (reserved stats = count consumption_status "Reserved") as Hreserved.
  { apply (status_count db "Reserved" Hvalid). right. right. by left. }
  assert (total stats = Z.of_nat (size (wines db))) as Htotal.
  { destruct (set_status_fold (groupBy consumption_status (wines db))
                {| total := Z.of_nat (size (wines db)); available := 0;
                   consumed := 0; reserved := 0; colors := ∅; regions := ∅ |}
                "Available") as (H & _); [apply groupBy_NoDup| |by left|done].
    intros [value n] (-> & Hpos)%groupBy_elem.
    apply count_where_pos in Hpos as (k & w & Hkw & <-%String.eqb_eq).
    by apply (Hvalid k). }
  destruct (top_ten_spec (groupBy region (wines db)))
    as (Hlength & Hkeys & Hrows & Htop).
  specialize (Hkeys (groupBy_NoDup region (wines db))).
  assert (forall r n, regions stats !! r = Some n
                      <-> r <> "__proto__" /\ (r, n) ∈ top_ten (groupBy region (wines db)))
    as Hregions.
  { intros r n. by apply set_counts_lookup. }
  split; [done|]. split; [done|]. split; [done|]. split; [done|]. split.
  { rewrite Havailable, Hconsumed, Hreserved, Htotal.
    by apply status_counts_sum. }
  split.
  { intros c n. change (colors stats) with (set_counts (groupBy color (wines db))).
    rewrite set_counts_lookup by apply groupBy_NoDup. by rewrite groupBy_elem. }
  split.
  { change (regions stats) with (set_counts (top_ten (groupBy region (wines db)))).
    pose proof (set_counts_size (top_ten (groupBy region (wines db)))). lia. }
  split.
  { intros r n [_ Hrow%Hrows]%Hregions. by apply groupBy_elem in Hrow. }
  intros r n r' [_ Hrow]%Hregions Hnone Hproto.
  destruct (decide (0 < count region r')%Z) as [Hpos|Hzero].
  - apply (Htop (r, n) (r', count region r')); [done|by apply groupBy_elem|].
    intros Hin. assert (regions stats !! r' = Some (count region r')) as Hsome.
    { by apply Hregions. }
    by rewrite Hnone in Hsome.
  - apply Hrows, groupBy_elem in Hrow as [_ Hn]. lia.
Qed.

Lemma getStatistics_counts_witness :
  let stats := getStatistics one_wine_cellar in
  total stats = 1%Z
  /\ (available stats + consumed stats + reserved stats = 1)%Z
  /\ colors stats !! "Red" = Some 1%Z.
Proof.
  destruct (getStatistics_counts one_wine_cellar)
    as (Htotal & _ & _ & _ & Hsum & Hcolors & _).
  { intros k w Hk. unfold one_wine_cellar in Hk. cbn [wines] in Hk.
    apply lookup_singleton_Some in Hk as [<- <-]. by left. }
  split; [by rewrite Htotal|]. split; [by rewrite Hsum, Htotal|].
  apply Hcolors. split; [done|]. split; [|done].
  reflexivity.
Defined.

(** Five wines of three regions and two colours, one of them consumed. *)
Example getStatistics_examples :
  let wine id region color status :=
    {| id := id; name := "Wine"; vineyard := "Estate"; region := region;
       color := color; grape_varieties := []; price := None; currency := Some "USD";
       vintage_year := None; date_added := 0; rack_slot := None;
       consumption_status := status; date_consumed := None; description := None;
       personal_notes := None; rating := None; food_pairings := None;
       created_at := 0; updated_at := 0 |} in
  let db :=
    {| wines :=
         <["a" := wine "a" "Napa" "Red" "Available"]>
         (<["b" := wine "b" "Napa" "White" "Consumed"]>
         (<["c" := wine "c" "Rioja" "Red" "Available"]>
         (<["d" := wine "d" "Napa" "Red" "Reserved"]>
         (<["e" := wine "e" "Mosel" "White" "Available"]> ∅))));
       rack_slots := ∅ |} in
  let stats := getStatistics db in
  (total stats, available stats, consumed stats, reserved stats) = (5, 3, 1, 1)%Z
  /\ colors stats = {[ "Red" := 3%Z; "White" := 2%Z ]}
  /\ regions stats = {[ "Napa" := 3%Z; "Rioja" := 1%Z; "Mosel" := 1%Z ]}.
Proof.
  intros wine db stats. split; [vm_compute; reflexivity|].
  split; [apply (bool_decide_unpack _); vm_compute; exact I|].
  apply (bool_decide_unpack _); vm_compute; exact I.
Qed.

End StatisticsFacts.

(** ** Suggestions stored for a wine *)

Section BulkSuggestionsFacts.
Import JS WineApiService Cellar.

(** X28. POST /bulk-suggestions never stores a pairing: it answers 404 for a wine
    that is not stored and 500 for one that is, because it asks for the
    suggestions of the row as the table has it, whose grape varieties are a
    JSON text. One request is counted on the way. GET /:id/food-pairings,
    which reads the wine through the model, answers 200 for the same wine. *)
Theorem post_bulk_suggestions_never_stores (wineId : string) (uuids : nat -> string)
    (db : Database) (food_pairings : gmap string FoodPairing)
    (s : Service) (now late now' : Z) :
  match wines db !! wineId with
  | None =>
      post_bulk_suggestions wineId uuids db food_pairings s now late now'
      = (Failure 404 "Wine not found", food_pairings, s)
  | Some wine =>
      post_bulk_suggestions wineId uuids db food_pairings s now late now'
      = (Failure 500 "Failed to create food pairing suggestions", food_pairings,
         (rateLimit s now late).1)
      /\ exists suggestions,
           (get_food_pairings wineId db s now late).1
           = Json 200 (SuggestionsFor (id wine) (name wine) suggestions)
  end.
Proof.
  unfold post_bulk_suggestions, get_food_pairings, WineModel.findById.
  destruct (wines db !! wineId) as [wine|] eqn:Hwine; [|done].
  split.
  - unfold suggestFoodPairings_of_row, row_grape_varieties, JSON_stringify.
    change ("[" +:+ ?rest) with (String "[" rest). cbn [String.eqb negb].
    done.
  - destruct (suggestFoodPairings _ _ _ _ _) as [suggestions s'].
    by exists suggestions.
Qed.

End BulkSuggestionsFacts.
